(** * Custom Airflow timetables: a shallow embedding of [custom_timetables.py]

    The development follows the layout of the Python module: a small model
    of the part of [pendulum] the timetables use, then one Rocq module per
    timetable class, a sum type over the classes, and the theorems.

    Modelling conventions.
    - A [pendulum.DateTime] is a record of its calendar fields.  All
      instants live in one fixed-offset zone (UTC), where civil arithmetic
      and instant arithmetic agree; daylight-saving transitions are outside
      the model.  The zone [tz] of a rule is kept as the string its
      constructor stores.  The source reads the fields of the instants it
      is given in their own zone (UTC, as Airflow passes them) and builds
      occurrences in the zone of the rule, so the evaluation functions
      below are those of the source for a rule whose zone is UTC; the
      theorems that order an occurrence and an instant given to the rule
      are stated for such rules ([in_utc]).
    - The calendar is the proleptic Gregorian one over all of [Z].  Of the
      cut-offs of the date library at years 1 and 9999 the lower one is
      modelled where a loop can walk into it, in the backward day scan
      ([subtract_day]); the upper one is not modelled.  [day_of_week]
      numbers the days as pendulum 3 and the comments of the source do:
      Monday = 0, ..., Sunday = 6.
    - Python integers are [Z]; a [dict] is a [gmap string Value].
    - Exceptions and non-termination are explicit: a computation returns
      [Ok v], raises ([Raise e]) or runs out of loop fuel ([OutOfFuel]).
      Every [while] loop of the source is a [Fixpoint] over a fuel counter
      that bounds the number of times its body runs. *)

From stdpp Require Import base numbers option list strings gmap.
From Stdlib Require Import ZArith Lia Bool Ascii String.

Local Open Scope Z_scope.

(** ** Outcomes of a Python computation *)

Inductive exn : Type :=
  ValueError | TypeError | AttributeError | IndexError | OverflowError.

Inductive result (A : Type) : Type :=
  | Ok (a : A)
  | Raise (e : exn)
  | OutOfFuel.

Arguments Ok {A} a.
Arguments Raise {A} e.
Arguments OutOfFuel {A}.

#[global] Instance result_ret : MRet result := fun A a => Ok a.
#[global] Instance result_bind : MBind result := fun A B k r =>
  match r with
  | Ok a => k a
  | Raise e => Raise e
  | OutOfFuel => OutOfFuel
  end.

#[global] Instance result_fmap : FMap result := fun A B f r =>
  match r with
  | Ok a => Ok (f a)
  | Raise e => Raise e
  | OutOfFuel => OutOfFuel
  end.

Definition is_Ok {A} (r : result A) : Prop := exists a, r = Ok a.

(** ** The fragment of [pendulum] used by the timetables *)

Module pendulum.

Record DateTime : Type := mkDateTime {
  year : Z; month : Z; day : Z;
  hour : Z; minute : Z; second : Z; microsecond : Z
}.

(** *** Calendar arithmetic (CPython's [datetime] helpers) *)

Definition is_leap (y : Z) : bool :=
  (y mod 4 =? 0) && (negb (y mod 100 =? 0) || (y mod 400 =? 0)).

Definition days_in_month (y m : Z) : Z :=
  if (m =? 2) then (if is_leap y then 29 else 28)
  else if (m =? 4) || (m =? 6) || (m =? 9) || (m =? 11) then 30
  else 31.

Definition days_before_year (y : Z) : Z :=
  let y' := y - 1 in y' * 365 + y' / 4 - y' / 100 + y' / 400.

Definition DAYS_BEFORE_MONTH (m : Z) : Z :=
  if m =? 1 then 0 else if m =? 2 then 31 else if m =? 3 then 59
  else if m =? 4 then 90 else if m =? 5 then 120 else if m =? 6 then 151
  else if m =? 7 then 181 else if m =? 8 then 212 else if m =? 9 then 243
  else if m =? 10 then 273 else if m =? 11 then 304 else 334.

Definition days_before_month (y m : Z) : Z :=
  DAYS_BEFORE_MONTH m + (if (2 <? m) && is_leap y then 1 else 0).

Definition ymd2ord (y m d : Z) : Z :=
  days_before_year y + days_before_month y m + d.

Definition toordinal (dt : DateTime) : Z :=
  ymd2ord (year dt) (month dt) (day dt).

(** Monday = 0 ... Sunday = 6, as the source's comments state. *)
Definition day_of_week (dt : DateTime) : Z := (toordinal dt + 6) mod 7.

(** *** Well-formed field values *)

Definition valid_date (y m d : Z) : bool :=
  (1 <=? m) && (m <=? 12) && (1 <=? d) && (d <=? days_in_month y m).

Definition valid_time (h mi s : Z) : bool :=
  (0 <=? h) && (h <=? 23) && (0 <=? mi) && (mi <=? 59) &&
  (0 <=? s) && (s <=? 59).

Definition valid (dt : DateTime) : bool :=
  valid_date (year dt) (month dt) (day dt) &&
  valid_time (hour dt) (minute dt) (second dt) &&
  (0 <=? microsecond dt) && (microsecond dt <=? 999999).

(** [datetime(year, month, day, hour, minute, second, tz=tz)]: raises
    ValueError on a field out of range.  The zone is not an argument: the
    one zone of the model stands for [tz]. *)
Definition datetime (y m d h mi s : Z) : result DateTime :=
  if valid_date y m d && valid_time h mi s
  then Ok (mkDateTime y m d h mi s 0)
  else Raise ValueError.

(** [dt.replace(hour=h, minute=mi, second=s, microsecond=0)] *)
Definition replace (dt : DateTime) (h mi s : Z) : result DateTime :=
  if valid_time h mi s
  then Ok (mkDateTime (year dt) (month dt) (day dt) h mi s 0)
  else Raise ValueError.

(** *** Comparison: field by field, as CPython's [datetime._cmp]

    For two instants of one zone this is the order of the instants. *)

Definition lex (c1 c2 : comparison) : comparison :=
  match c1 with Eq => c2 | _ => c1 end.

Definition compare (a b : DateTime) : comparison :=
  lex (year a ?= year b) (lex (month a ?= month b) (lex (day a ?= day b)
  (lex (hour a ?= hour b) (lex (minute a ?= minute b)
  (lex (second a ?= second b) (microsecond a ?= microsecond b)))))).

Definition ltb (a b : DateTime) : bool :=
  match compare a b with Lt => true | _ => false end.
Definition leb (a b : DateTime) : bool :=
  match compare a b with Gt => false | _ => true end.

Definition lt (a b : DateTime) : Prop := ltb a b = true.
Definition le (a b : DateTime) : Prop := leb a b = true.

(** Python's [max(a, b)] and [min(a, b)] return the first argument on ties. *)
Definition max (a b : DateTime) : DateTime := if ltb a b then b else a.
Definition min (a b : DateTime) : DateTime := if ltb b a then b else a.

(** *** Day and time shifts *)

Definition next_day (dt : DateTime) : DateTime :=
  let (y, m, d, h, mi, s, us) := dt in
  if d <? days_in_month y m then mkDateTime y m (d + 1) h mi s us
  else if m <? 12 then mkDateTime y (m + 1) 1 h mi s us
  else mkDateTime (y + 1) 1 1 h mi s us.

Definition prev_day (dt : DateTime) : DateTime :=
  let (y, m, d, h, mi, s, us) := dt in
  if 1 <? d then mkDateTime y m (d - 1) h mi s us
  else if 1 <? m then mkDateTime y (m - 1) (days_in_month y (m - 1)) h mi s us
  else mkDateTime (y - 1) 12 31 h mi s us.

(** [dt.add(days=n)]; [dt.subtract(days=n)] is [add_days dt (- n)]. *)
Definition add_days (dt : DateTime) (n : Z) : DateTime :=
  match n with
  | Z0 => dt
  | Zpos p => Pos.iter next_day dt p
  | Zneg p => Pos.iter prev_day dt p
  end.

Definition subtract_days (dt : DateTime) (n : Z) : DateTime := add_days dt (- n).

(** The first day the date library has, [date.min] = 0001-01-01. *)
Definition is_min_date (dt : DateTime) : bool :=
  (year dt =? 1) && (month dt =? 1) && (day dt =? 1).

(** [dt.subtract(days=1)] as a loop uses it to walk back day by day: there
    is no day before [date.min], and the subtraction raises OverflowError
    there. *)
Definition subtract_day (dt : DateTime) : result DateTime :=
  if is_min_date dt then Raise OverflowError else Ok (subtract_days dt 1).
Definition add_weeks (dt : DateTime) (w : Z) : DateTime := add_days dt (7 * w).

(** [dt.add(seconds=n)]: the time of day wraps into whole days. *)
Definition add_seconds (dt : DateTime) (n : Z) : DateTime :=
  let t := hour dt * 3600 + minute dt * 60 + second dt + n in
  let d := add_days dt (t / 86400) in
  let r := t mod 86400 in
  mkDateTime (year d) (month d) (day d)
             (r / 3600) ((r mod 3600) / 60) (r mod 60) (microsecond dt).

Definition add_minutes (dt : DateTime) (n : Z) : DateTime := add_seconds dt (60 * n).
Definition add_hours (dt : DateTime) (n : Z) : DateTime := add_seconds dt (3600 * n).

(** [dt.add(days=d, hours=h, minutes=mi, seconds=s)] *)
Definition add (dt : DateTime) (d h mi s : Z) : DateTime :=
  add_seconds (add_days dt d) (h * 3600 + mi * 60 + s).

(** Microseconds since the start of ordinal day 0. *)
Definition stamp (dt : DateTime) : Z :=
  ((toordinal dt * 86400 + hour dt * 3600 + minute dt * 60 + second dt)
   * 1000000) + microsecond dt.

(** [(a - b).days] for [b <= a]: whole days of the difference. *)
Definition diff_days (a b : DateTime) : Z := (stamp a - stamp b) / 86400000000.

(** [int((a - b).total_minutes())] *)
Definition diff_total_minutes (a b : DateTime) : Z :=
  Z.quot (stamp a - stamp b) 60000000.

(** *** [pendulum.parse] on the documented [YYYY-MM-DD] form *)

Definition digit (c : ascii) : option Z :=
  let n := Z.of_nat (nat_of_ascii c) in
  if (48 <=? n) && (n <=? 57) then Some (n - 48) else None.

Fixpoint digits (acc : Z) (l : list ascii) : option Z :=
  match l with
  | [] => Some acc
  | c :: l' => match digit c with
               | Some d => digits (acc * 10 + d) l'
               | None => None
               end
  end.

Definition parse (s : string) : result DateTime :=
  match list_ascii_of_string s with
  | [y1; y2; y3; y4; d1; m1; m2; d2; a1; a2] =>
      if (nat_of_ascii d1 =? 45)%nat && (nat_of_ascii d2 =? 45)%nat then
        match digits 0 [y1; y2; y3; y4], digits 0 [m1; m2], digits 0 [a1; a2] with
        | Some y, Some m, Some d => datetime y m d 0 0 0
        | _, _, _ => Raise ValueError
        end
      else Raise ValueError
  | _ => Raise ValueError
  end.

End pendulum.

Import pendulum.

(** ** The Airflow interface types *)

Module airflow.

Record DataInterval : Type := mkDataInterval { start : DateTime; end_ : DateTime }.

Record TimeRestriction : Type := mkTimeRestriction {
  earliest : option DateTime;
  latest : option DateTime;
  catchup : bool
}.

Record DagRunInfo : Type := mkDagRunInfo {
  run_after : DateTime;
  data_interval : DataInterval
}.

(** [DagRunInfo.interval(start, end)] *)
Definition interval (s e : DateTime) : DagRunInfo :=
  mkDagRunInfo e (mkDataInterval s e).

(** The two ways the source reads the clock.  [pendulum_now] is the value
    of [pendulum.now(tz)] (and of [now(tz)]).  [datetime_now] is the
    outcome of evaluating [datetime.now(tz)]: the name [datetime] bound by
    the import on line 20 is pendulum's constructor function, which has no
    attribute [now], so with pendulum's API the outcome is
    [Raise AttributeError] ([pendulum_clock]); [working_clock] is the
    reading in which the expression yields the current time. *)
Record Clock : Type := mkClock {
  pendulum_now : DateTime;
  datetime_now : result DateTime
}.

Definition pendulum_clock (now : DateTime) : Clock := mkClock now (Raise AttributeError).
Definition working_clock (now : DateTime) : Clock := mkClock now (Ok now).

(** Values stored in a serialized timetable. *)
Inductive Value : Type :=
  | VInt (z : Z)
  | VStr (s : string)
  | VList (l : list Z).

(** [data.get(key, default)] at the type the constructor expects. *)
Definition get_int (data : gmap string Value) (key : string) (default : Z) : result Z :=
  match data !! key with
  | None => Ok default
  | Some (VInt z) => Ok z
  | Some _ => Raise TypeError
  end.

Definition get_str (data : gmap string Value) (key : string) (default : string) : result string :=
  match data !! key with
  | None => Ok default
  | Some (VStr s) => Ok s
  | Some _ => Raise TypeError
  end.

Definition get_list (data : gmap string Value) (key : string) (default : list Z) : result (list Z) :=
  match data !! key with
  | None => Ok default
  | Some (VList l) => Ok l
  | Some _ => Raise TypeError
  end.

End airflow.

Import airflow.

(** ** Code shared by the classes

    The baseline computation is repeated verbatim at the head of every
    [next_dagrun_info] (lines 99-109, 202-212, 325-335, 426-436, 545-555,
    647-657, 748-758, 853-862, 949-958, 1042-1051, 1150-1159, 1234-1243,
    1341-1350, 1438-1447); it is written once here. *)

Definition resolve_after (current_time : DateTime) (last : option DataInterval)
    (restriction : TimeRestriction) : DateTime :=
  let baseline := default current_time (earliest restriction) in
  let baseline := if catchup restriction then baseline else max baseline current_time in
  match last with
  | None => baseline
  | Some iv =>
      let after := end_ iv in
      if negb (catchup restriction) && ltb after current_time then current_time else after
  end.

(** [restriction.latest is not None and start > restriction.latest] *)
Definition past_latest (restriction : TimeRestriction) (start : DateTime) : bool :=
  match latest restriction with
  | Some l => ltb l start
  | None => false
  end.

(** The period search [while True: x = occ(period); if x >= after: break;
    period = step(period)] of lines 115-123, 218-226, 442-455, 561-574,
    662-666, 763-767, 1164-1172, 1355-1363 and 1452-1460. *)
Fixpoint search_from {St : Type} (fuel : nat) (occ : St -> result DateTime)
    (step : St -> St) (after : DateTime) (s : St) : result DateTime :=
  match fuel with
  | O => OutOfFuel
  | S fuel' =>
      d ← occ s;
      if leb after d then Ok d else search_from fuel' occ step after (step s)
  end.

Definition next_month (p : Z * Z) : Z * Z :=
  let (y, m) := p in if m =? 12 then (y + 1, 1) else (y, m + 1).

Definition prev_month (p : Z * Z) : Z * Z :=
  let (y, m) := p in if m =? 1 then (y - 1, 12) else (y, m - 1).

(** [month in [a, b, c]] *)
Definition month_in (m a b c : Z) : bool := (m =? a) || (m =? b) || (m =? c).

Definition next_quarter (p : Z * Z) : Z * Z :=
  let (y, m) := p in
  if month_in m 1 2 3 then (y, 4)
  else if month_in m 4 5 6 then (y, 7)
  else if month_in m 7 8 9 then (y, 10)
  else (y + 1, 1).

(** [datetime(year, month + 1, 1) - 1 day], with the December case, as
    written at lines 68-72, 288-291, 1010-1013, 1119-1122, 1310-1313 and
    1410-1414. *)
Definition last_date_of_month (y m : Z) : result DateTime :=
  first ← (if m =? 12 then datetime (y + 1) 1 1 0 0 0 else datetime y (m + 1) 1 0 0 0);
  Ok (subtract_days first 1).

(** The forward day scan of lines 1109-1115 (and 709-715, 1301-1307):
    count the days that satisfy [hit] and stop at the [n]-th. *)
Fixpoint scan_forward (fuel : nat) (hit : Z -> bool) (n : Z) (dt : DateTime)
    (count : Z) : result DateTime :=
  match fuel with
  | O => OutOfFuel
  | S fuel' =>
      if hit (day_of_week dt) then
        if count + 1 =? n then Ok dt
        else scan_forward fuel' hit n (add_days dt 1) (count + 1)
      else scan_forward fuel' hit n (add_days dt 1) count
  end.

(** The backward day scan of lines 1123-1129 (and 722-728, 1314-1320).  It
    is the one loop that can run back to the first day of the calendar (when
    its index is 0), so its step back is [subtract_day]. *)
Fixpoint scan_backward (fuel : nat) (hit : Z -> bool) (n : Z) (dt : DateTime)
    (count : Z) : result DateTime :=
  match fuel with
  | O => OutOfFuel
  | S fuel' =>
      if hit (day_of_week dt) then
        if n =? count then Ok dt
        else dt ← subtract_day dt; scan_backward fuel' hit n dt (count - 1)
      else dt ← subtract_day dt; scan_backward fuel' hit n dt count
  end.

(** The list indexing [[...7 names...][self.weekday]] inside the description
    strings built by two constructors raises IndexError outside -7..6. *)
Definition weekday_name_exists (weekday : Z) : bool := (-7 <=? weekday) && (weekday <=? 6).

(** ** The timetable classes

    Each module is one class of the source.  The record is the instance
    state set by [__init__]; the [description] strings, used only for
    display, are left out. *)

Module MonthlyLastDay.

Record t : Type := mk { tz : string; hour : Z; minute : Z; second : Z }.

Definition serialize (self : t) : gmap string Value :=
  <["tz" := VStr (tz self)]> (<["hour" := VInt (hour self)]>
  (<["minute" := VInt (minute self)]> (<["second" := VInt (second self)]> ∅))).

Definition deserialize (data : gmap string Value) : result t :=
  tz ← get_str data "tz" "America/New_York";
  hour ← get_int data "hour" 0;
  minute ← get_int data "minute" 0;
  second ← get_int data "second" 0;
  Ok (mk tz hour minute second).

Definition _get_last_day (self : t) (year month : Z) : result DateTime :=
  last_day ← last_date_of_month year month;
  replace last_day (hour self) (minute self) (second self).

Definition infer_manual_data_interval (self : t) (run_after : DateTime)
    : result DataInterval :=
  let year := pendulum.year run_after in
  let month := pendulum.month run_after in
  last_day ← _get_last_day self year month;
  last_day ← (if ltb run_after last_day then
                let (year, month) := prev_month (year, month) in
                _get_last_day self year month
              else Ok last_day);
  let start := last_day in
  Ok (mkDataInterval start (add_hours start 1)).

(** Lines 111-125: the search from [after]. *)
Definition locate_next (fuel : nat) (self : t) (after : DateTime) : result DateTime :=
  search_from fuel (fun p => _get_last_day self p.1 p.2) next_month after
              (pendulum.year after, pendulum.month after).

Definition next_dagrun_info (fuel : nat) (self : t) (clock : Clock)
    (last_automated_data_interval : option DataInterval)
    (restriction : TimeRestriction) : result (option DagRunInfo) :=
  let after := resolve_after (pendulum_now clock) last_automated_data_interval restriction in
  start ← locate_next fuel self after;
  if past_latest restriction start then Ok None
  else Ok (Some (interval start (add_hours start 1))).

End MonthlyLastDay.

Module MonthlyOnDay.

Record t : Type := mk { day : Z; tz : string; hour : Z; minute : Z; second : Z }.

Definition serialize (self : t) : gmap string Value :=
  <["day" := VInt (day self)]> (<["tz" := VStr (tz self)]>
  (<["hour" := VInt (hour self)]> (<["minute" := VInt (minute self)]>
  (<["second" := VInt (second self)]> ∅)))).

Definition deserialize (data : gmap string Value) : result t :=
  day ← get_int data "day" 1;
  tz ← get_str data "tz" "America/New_York";
  hour ← get_int data "hour" 0;
  minute ← get_int data "minute" 0;
  second ← get_int data "second" 0;
  Ok (mk day tz hour minute second).

Definition _get_run_date (self : t) (year month : Z) : result DateTime :=
  first ← (if month <? 12 then datetime year (month + 1) 1 0 0 0
           else datetime (year + 1) 1 1 0 0 0);
  let last_day := pendulum.day (subtract_days first 1) in
  let day := Z.min (day self) last_day in
  datetime year month day (hour self) (minute self) (second self).

Definition infer_manual_data_interval (self : t) (run_after : DateTime)
    : result DataInterval :=
  let year := pendulum.year run_after in
  let month := pendulum.month run_after in
  run_date ← _get_run_date self year month;
  run_date ← (if ltb run_after run_date then
                let (year, month) := prev_month (year, month) in
                _get_run_date self year month
              else Ok run_date);
  let start := run_date in
  Ok (mkDataInterval start (add_hours start 1)).

(** Lines 214-228. *)
Definition locate_next (fuel : nat) (self : t) (after : DateTime) : result DateTime :=
  search_from fuel (fun p => _get_run_date self p.1 p.2) next_month after
              (pendulum.year after, pendulum.month after).

Definition next_dagrun_info (fuel : nat) (self : t) (clock : Clock)
    (last_automated_data_interval : option DataInterval)
    (restriction : TimeRestriction) : result (option DagRunInfo) :=
  let after := resolve_after (pendulum_now clock) last_automated_data_interval restriction in
  start ← locate_next fuel self after;
  if past_latest restriction start then Ok None
  else Ok (Some (interval start (add_hours start 1))).

End MonthlyOnDay.

Module MonthlyMultipleDays.

Record t : Type := mk { days : list Z; tz : string; hour : Z; minute : Z; second : Z }.

(** [sorted(set(days))] *)
Fixpoint insert_sorted (x : Z) (l : list Z) : list Z :=
  match l with
  | [] => [x]
  | y :: l' => if x <? y then x :: l
               else if x =? y then l
               else y :: insert_sorted x l'
  end.

Definition sorted_set (l : list Z) : list Z := foldr insert_sorted [] l.

Definition __init__ (days : option (list Z)) (hour minute : Z) (tz : string)
    (second : Z) : t :=
  let days := default [1] days in
  mk (sorted_set days) tz hour minute second.

Definition serialize (self : t) : gmap string Value :=
  <["days" := VList (days self)]> (<["tz" := VStr (tz self)]>
  (<["hour" := VInt (hour self)]> (<["minute" := VInt (minute self)]>
  (<["second" := VInt (second self)]> ∅)))).

Definition deserialize (data : gmap string Value) : result t :=
  days ← get_list data "days" [1];
  tz ← get_str data "tz" "America/New_York";
  hour ← get_int data "hour" 0;
  minute ← get_int data "minute" 0;
  second ← get_int data "second" 0;
  Ok (__init__ (Some days) hour minute tz second).

Definition valid_days_of (self : t) (last_day : Z) : list Z :=
  List.filter (fun d => (1 <=? d) && (d <=? last_day)) (days self).

(** The [for d in valid_days] loop of lines 295-298. *)
Fixpoint first_candidate (self : t) (after : DateTime) (year month : Z)
    (valid_days : list Z) : result (option DateTime) :=
  match valid_days with
  | [] => Ok None
  | d :: rest =>
      candidate ← datetime year month d (hour self) (minute self) (second self);
      if leb after candidate then Ok (Some candidate)
      else first_candidate self after year month rest
  end.

(** The [while True] loop of lines 300-312. *)
Fixpoint following_months (fuel : nat) (self : t) (year month : Z) : result DateTime :=
  match fuel with
  | O => OutOfFuel
  | S fuel' =>
      let (year, month) := next_month (year, month) in
      last ← last_date_of_month year month;
      match valid_days_of self (pendulum.day last) with
      | d :: _ => datetime year month d (hour self) (minute self) (second self)
      | [] => following_months fuel' self year month
      end
  end.

Definition _get_next_run_date (fuel : nat) (self : t) (after : DateTime)
    : result DateTime :=
  let year := pendulum.year after in
  let month := pendulum.month after in
  last ← last_date_of_month year month;
  found ← first_candidate self after year month (valid_days_of self (pendulum.day last));
  match found with
  | Some candidate => Ok candidate
  | None => following_months fuel self year month
  end.

Definition infer_manual_data_interval (fuel : nat) (self : t) (run_after : DateTime)
    : result DataInterval :=
  next_run ← _get_next_run_date fuel self run_after;
  Ok (mkDataInterval next_run (add_hours next_run 1)).

Definition next_dagrun_info (fuel : nat) (self : t) (clock : Clock)
    (last_automated_data_interval : option DataInterval)
    (restriction : TimeRestriction) : result (option DagRunInfo) :=
  let after := resolve_after (pendulum_now clock) last_automated_data_interval restriction in
  next_run ← _get_next_run_date fuel self after;
  if past_latest restriction next_run then Ok None
  else Ok (Some (interval next_run (add_hours next_run 1))).

End MonthlyMultipleDays.

Module QuarterlyFirstDay.

Record t : Type := mk { tz : string; hour : Z; minute : Z; second : Z }.

Definition serialize (self : t) : gmap string Value :=
  <["tz" := VStr (tz self)]> (<["hour" := VInt (hour self)]>
  (<["minute" := VInt (minute self)]> (<["second" := VInt (second self)]> ∅))).

Definition deserialize (data : gmap string Value) : result t :=
  tz ← get_str data "tz" "America/New_York";
  hour ← get_int data "hour" 0;
  minute ← get_int data "minute" 0;
  second ← get_int data "second" 0;
  Ok (mk tz hour minute second).

Definition _get_first_day_of_quarter (self : t) (year month : Z) : result DateTime :=
  let quarter_month :=
    if month_in month 1 2 3 then 1
    else if month_in month 4 5 6 then 4
    else if month_in month 7 8 9 then 7
    else 10 in
  datetime year quarter_month 1 (hour self) (minute self) (second self).

Definition prev_quarter (p : Z * Z) : Z * Z :=
  let (y, m) := p in
  if month_in m 1 2 3 then (y - 1, 10)
  else if month_in m 4 5 6 then (y, 1)
  else if month_in m 7 8 9 then (y, 4)
  else (y, 7).

Definition infer_manual_data_interval (self : t) (run_after : DateTime)
    : result DataInterval :=
  let year := pendulum.year run_after in
  let month := pendulum.month run_after in
  first_day ← _get_first_day_of_quarter self year month;
  first_day ← (if ltb run_after first_day then
                 let (year, month) := prev_quarter (year, month) in
                 _get_first_day_of_quarter self year month
               else Ok first_day);
  let start := first_day in
  Ok (mkDataInterval start (add_hours start 1)).

(** Lines 438-457. *)
Definition locate_next (fuel : nat) (self : t) (next_run : DateTime) : result DateTime :=
  search_from fuel (fun p => _get_first_day_of_quarter self p.1 p.2) next_quarter next_run
              (pendulum.year next_run, pendulum.month next_run).

Definition next_dagrun_info (fuel : nat) (self : t) (clock : Clock)
    (last_automated_data_interval : option DataInterval)
    (restriction : TimeRestriction) : result (option DagRunInfo) :=
  let next_run := resolve_after (pendulum_now clock) last_automated_data_interval restriction in
  start ← locate_next fuel self next_run;
  if past_latest restriction start then Ok None
  else Ok (Some (interval start (add_hours start 1))).

End QuarterlyFirstDay.

Module QuarterlyLastDay.

Record t : Type := mk { tz : string; hour : Z; minute : Z; second : Z }.

Definition serialize (self : t) : gmap string Value :=
  <["tz" := VStr (tz self)]> (<["hour" := VInt (hour self)]>
  (<["minute" := VInt (minute self)]> (<["second" := VInt (second self)]> ∅))).

Definition deserialize (data : gmap string Value) : result t :=
  tz ← get_str data "tz" "America/New_York";
  hour ← get_int data "hour" 0;
  minute ← get_int data "minute" 0;
  second ← get_int data "second" 0;
  Ok (mk tz hour minute second).

Definition _get_last_day_of_quarter (self : t) (year month : Z) : result DateTime :=
  let last_month :=
    if month_in month 1 2 3 then 3
    else if month_in month 4 5 6 then 6
    else if month_in month 7 8 9 then 9
    else 12 in
  last_day ← last_date_of_month year last_month;
  replace last_day (hour self) (minute self) (second self).

Definition prev_quarter (p : Z * Z) : Z * Z :=
  let (y, m) := p in
  if month_in m 1 2 3 then (y - 1, 12)
  else if month_in m 4 5 6 then (y, 3)
  else if month_in m 7 8 9 then (y, 6)
  else (y, 9).

Definition infer_manual_data_interval (self : t) (run_after : DateTime)
    : result DataInterval :=
  let year := pendulum.year run_after in
  let month := pendulum.month run_after in
  last_day ← _get_last_day_of_quarter self year month;
  last_day ← (if ltb run_after last_day then
                let (year, month) := prev_quarter (year, month) in
                _get_last_day_of_quarter self year month
              else Ok last_day);
  let start := last_day in
  Ok (mkDataInterval start (add_hours start 1)).

(** Lines 557-576. *)
Definition locate_next (fuel : nat) (self : t) (next_run : DateTime) : result DateTime :=
  search_from fuel (fun p => _get_last_day_of_quarter self p.1 p.2) next_quarter next_run
              (pendulum.year next_run, pendulum.month next_run).

Definition next_dagrun_info (fuel : nat) (self : t) (clock : Clock)
    (last_automated_data_interval : option DataInterval)
    (restriction : TimeRestriction) : result (option DagRunInfo) :=
  let next_run := resolve_after (pendulum_now clock) last_automated_data_interval restriction in
  start ← locate_next fuel self next_run;
  if past_latest restriction start then Ok None
  else Ok (Some (interval start (add_hours start 1))).

End QuarterlyLastDay.

Module YearlyFirstDay.

Record t : Type := mk { tz : string; hour : Z; minute : Z; second : Z }.

Definition serialize (self : t) : gmap string Value :=
  <["tz" := VStr (tz self)]> (<["hour" := VInt (hour self)]>
  (<["minute" := VInt (minute self)]> (<["second" := VInt (second self)]> ∅))).

Definition deserialize (data : gmap string Value) : result t :=
  tz ← get_str data "tz" "America/New_York";
  hour ← get_int data "hour" 0;
  minute ← get_int data "minute" 0;
  second ← get_int data "second" 0;
  Ok (mk tz hour minute second).

Definition _get_first_day_of_year (self : t) (year : Z) : result DateTime :=
  datetime year 1 1 (hour self) (minute self) (second self).

Definition infer_manual_data_interval (self : t) (run_after : DateTime)
    : result DataInterval :=
  let year := pendulum.year run_after in
  first_day ← _get_first_day_of_year self year;
  first_day ← (if ltb run_after first_day then _get_first_day_of_year self (year - 1)
               else Ok first_day);
  let start := first_day in
  Ok (mkDataInterval start (add_hours start 1)).

(** Lines 659-668. *)
Definition locate_next (fuel : nat) (self : t) (next_run : DateTime) : result DateTime :=
  search_from fuel (_get_first_day_of_year self) Z.succ next_run (pendulum.year next_run).

Definition next_dagrun_info (fuel : nat) (self : t) (clock : Clock)
    (last_automated_data_interval : option DataInterval)
    (restriction : TimeRestriction) : result (option DagRunInfo) :=
  let next_run := resolve_after (pendulum_now clock) last_automated_data_interval restriction in
  start ← locate_next fuel self next_run;
  if past_latest restriction start then Ok None
  else Ok (Some (interval start (add_hours start 1))).

End YearlyFirstDay.

Module YearlyWeekdayOccurrence.

Record t : Type := mk {
  month : Z; weekday : Z; n : Z; tz : string; hour : Z; minute : Z; second : Z
}.

(** The class defines neither [serialize] nor [deserialize]; it inherits
    Airflow's [Timetable.serialize], which returns [{}], and
    [Timetable.deserialize], which is [return cls()]: a call of
    [__init__] without its three required arguments. *)
Definition serialize (self : t) : gmap string Value := ∅.

Definition deserialize (data : gmap string Value) : result t := Raise TypeError.

Definition _get_nth_weekday (fuel : nat) (self : t) (year : Z) : result DateTime :=
  if 0 <? n self then
    dt ← datetime year (month self) 1 0 0 0;
    dt ← scan_forward fuel (fun w => w =? weekday self) (n self) dt 0;
    replace dt (hour self) (minute self) (second self)
  else
    dt ← last_date_of_month year (month self);
    dt ← scan_backward fuel (fun w => w =? weekday self) (n self) dt (-1);
    replace dt (hour self) (minute self) (second self).

Definition infer_manual_data_interval (fuel : nat) (self : t) (run_after : DateTime)
    : result DataInterval :=
  let year := pendulum.year run_after in
  nth_weekday ← _get_nth_weekday fuel self year;
  nth_weekday ← (if ltb run_after nth_weekday then _get_nth_weekday fuel self (year - 1)
                 else Ok nth_weekday);
  let start := nth_weekday in
  Ok (mkDataInterval start (add_hours start 1)).

(** Lines 760-769. *)
Definition locate_next (fuel : nat) (self : t) (next_run : DateTime) : result DateTime :=
  search_from fuel (_get_nth_weekday fuel self) Z.succ next_run (pendulum.year next_run).

Definition next_dagrun_info (fuel : nat) (self : t) (clock : Clock)
    (last_automated_data_interval : option DataInterval)
    (restriction : TimeRestriction) : result (option DagRunInfo) :=
  let next_run := resolve_after (pendulum_now clock) last_automated_data_interval restriction in
  start ← locate_next fuel self next_run;
  if past_latest restriction start then Ok None
  else Ok (Some (interval start (add_hours start 1))).

End YearlyWeekdayOccurrence.

Module WeeklyOnDay.

Record t : Type := mk { weekday : Z; tz : string; hour : Z; minute : Z; second : Z }.

Definition serialize (self : t) : gmap string Value :=
  <["weekday" := VInt (weekday self)]> (<["tz" := VStr (tz self)]>
  (<["hour" := VInt (hour self)]> (<["minute" := VInt (minute self)]>
  (<["second" := VInt (second self)]> ∅)))).

Definition deserialize (data : gmap string Value) : result t :=
  weekday ← get_int data "weekday" 0;
  tz ← get_str data "tz" "America/New_York";
  hour ← get_int data "hour" 0;
  minute ← get_int data "minute" 0;
  second ← get_int data "second" 0;
  Ok (mk weekday tz hour minute second).

Definition _get_next_weekday (self : t) (after : DateTime) : result DateTime :=
  let days_ahead := (weekday self - day_of_week after + 7) mod 7 in
  let days_ahead :=
    if (days_ahead =? 0) && (hour self <=? pendulum.hour after)
       && (minute self <=? pendulum.minute after)
    then 7 else days_ahead in
  replace (add_days after days_ahead) (hour self) (minute self) (second self).

Definition infer_manual_data_interval (self : t) (run_after : DateTime)
    : result DataInterval :=
  next_run ← _get_next_weekday self run_after;
  Ok (mkDataInterval next_run (add_hours next_run 1)).

Definition next_dagrun_info (self : t) (clock : Clock)
    (last_automated_data_interval : option DataInterval)
    (restriction : TimeRestriction) : result (option DagRunInfo) :=
  current_time ← datetime_now clock;
  let after := resolve_after current_time last_automated_data_interval restriction in
  next_run ← _get_next_weekday self after;
  Ok (Some (interval next_run (add_hours next_run 1))).

End WeeklyOnDay.

Module BiweeklyOnDay.

Record t : Type := mk {
  weekday : Z; tz : string; hour : Z; minute : Z; second : Z; anchor_date : string
}.

Definition __init__ (weekday hour minute : Z) (tz : string) (second : Z)
    (anchor_date : string) : result t :=
  if weekday_name_exists weekday then Ok (mk weekday tz hour minute second anchor_date)
  else Raise IndexError.

Definition serialize (self : t) : gmap string Value :=
  <["weekday" := VInt (weekday self)]> (<["tz" := VStr (tz self)]>
  (<["hour" := VInt (hour self)]> (<["minute" := VInt (minute self)]>
  (<["second" := VInt (second self)]>
  (<["anchor_date" := VStr (anchor_date self)]> ∅))))).

Definition deserialize (data : gmap string Value) : result t :=
  weekday ← get_int data "weekday" 0;
  tz ← get_str data "tz" "America/New_York";
  hour ← get_int data "hour" 0;
  minute ← get_int data "minute" 0;
  second ← get_int data "second" 0;
  anchor_date ← get_str data "anchor_date" "2024-01-01";
  __init__ weekday hour minute tz second anchor_date.

Definition _get_next_biweekly (self : t) (after : DateTime) : result DateTime :=
  anchor ← parse (anchor_date self);
  let days_to_weekday := (weekday self - day_of_week anchor + 7) mod 7 in
  first_run ← replace (add_days anchor days_to_weekday)
                      (hour self) (minute self) (second self);
  if ltb after first_run then Ok first_run
  else
    let delta_days := diff_days after first_run in
    let cycles := delta_days / 14
                  + (if leb after (add first_run 13 23 59 59) then 0 else 1) in
    let next_run := add_weeks first_run (cycles * 2) in
    let next_run := if leb next_run after then add_weeks next_run 2 else next_run in
    Ok next_run.

Definition infer_manual_data_interval (self : t) (run_after : DateTime)
    : result DataInterval :=
  next_run ← _get_next_biweekly self run_after;
  Ok (mkDataInterval next_run (add_hours next_run 1)).

Definition next_dagrun_info (self : t) (clock : Clock)
    (last_automated_data_interval : option DataInterval)
    (restriction : TimeRestriction) : result (option DagRunInfo) :=
  current_time ← datetime_now clock;
  let after := resolve_after current_time last_automated_data_interval restriction in
  next_run ← _get_next_biweekly self after;
  Ok (Some (interval next_run (add_hours next_run 1))).

End BiweeklyOnDay.

Module SemiMonthly.

Record t : Type := mk { tz : string; hour : Z; minute : Z; second : Z }.

Definition serialize (self : t) : gmap string Value :=
  <["tz" := VStr (tz self)]> (<["hour" := VInt (hour self)]>
  (<["minute" := VInt (minute self)]> (<["second" := VInt (second self)]> ∅))).

Definition deserialize (data : gmap string Value) : result t :=
  tz ← get_str data "tz" "America/New_York";
  hour ← get_int data "hour" 0;
  minute ← get_int data "minute" 0;
  second ← get_int data "second" 0;
  Ok (mk tz hour minute second).

(** The 15th and the last day of a month, lines 1009-1014 and 1028-1033. *)
Definition fifteenth_and_last (self : t) (year month : Z)
    : result (DateTime * DateTime) :=
  fifteenth ← datetime year month 15 (hour self) (minute self) (second self);
  last_date ← last_date_of_month year month;
  last ← datetime year month (pendulum.day last_date)
                  (hour self) (minute self) (second self);
  Ok (fifteenth, last).

(** The [while True] of lines 1022-1034 returns in its first pass. *)
Definition _get_next_run_date (self : t) (after : DateTime) : result DateTime :=
  let year := pendulum.year after in
  let month := pendulum.month after in
  '(fifteenth, last) ← fifteenth_and_last self year month;
  let candidates := List.filter (fun dt => leb after dt) [fifteenth; last] in
  match candidates with
  | c :: rest => Ok (foldl min c rest)
  | [] =>
      let (year, month) := next_month (year, month) in
      '(fifteenth, last) ← fifteenth_and_last self year month;
      Ok (min fifteenth last)
  end.

Definition infer_manual_data_interval (self : t) (run_after : DateTime)
    : result DataInterval :=
  next_run ← _get_next_run_date self run_after;
  Ok (mkDataInterval next_run (add_hours next_run 1)).

Definition next_dagrun_info (self : t) (clock : Clock)
    (last_automated_data_interval : option DataInterval)
    (restriction : TimeRestriction) : result (option DagRunInfo) :=
  current_time ← datetime_now clock;
  let after := resolve_after current_time last_automated_data_interval restriction in
  next_run ← _get_next_run_date self after;
  Ok (Some (interval next_run (add_hours next_run 1))).

End SemiMonthly.

Module MonthlyWeekdayOccurrence.

Record t : Type := mk {
  weekday : Z; n : Z; tz : string; hour : Z; minute : Z; second : Z
}.

Definition __init__ (weekday n hour minute : Z) (tz : string) (second : Z) : result t :=
  if weekday_name_exists weekday then Ok (mk weekday n tz hour minute second)
  else Raise IndexError.

Definition serialize (self : t) : gmap string Value :=
  <["weekday" := VInt (weekday self)]> (<["n" := VInt (n self)]>
  (<["tz" := VStr (tz self)]> (<["hour" := VInt (hour self)]>
  (<["minute" := VInt (minute self)]> (<["second" := VInt (second self)]> ∅))))).

Definition deserialize (data : gmap string Value) : result t :=
  weekday ← get_int data "weekday" 0;
  n ← get_int data "n" 1;
  tz ← get_str data "tz" "America/New_York";
  hour ← get_int data "hour" 0;
  minute ← get_int data "minute" 0;
  second ← get_int data "second" 0;
  __init__ weekday n hour minute tz second.

Definition _get_nth_weekday (fuel : nat) (self : t) (year month : Z) : result DateTime :=
  if 0 <? n self then
    dt ← datetime year month 1 0 0 0;
    dt ← scan_forward fuel (fun w => w =? weekday self) (n self) dt 0;
    replace dt (hour self) (minute self) (second self)
  else
    dt ← last_date_of_month year month;
    dt ← scan_backward fuel (fun w => w =? weekday self) (n self) dt (-1);
    replace dt (hour self) (minute self) (second self).

Definition infer_manual_data_interval (fuel : nat) (self : t) (run_after : DateTime)
    : result DataInterval :=
  let year := pendulum.year run_after in
  let month := pendulum.month run_after in
  nth_weekday ← _get_nth_weekday fuel self year month;
  nth_weekday ← (if ltb run_after nth_weekday then
                   let (year, month) := prev_month (year, month) in
                   _get_nth_weekday fuel self year month
                 else Ok nth_weekday);
  let start := nth_weekday in
  Ok (mkDataInterval start (add_hours start 1)).

(** Lines 1161-1174. *)
Definition locate_next (fuel : nat) (self : t) (next_run : DateTime) : result DateTime :=
  search_from fuel (fun p => _get_nth_weekday fuel self p.1 p.2) next_month next_run
              (pendulum.year next_run, pendulum.month next_run).

Definition next_dagrun_info (fuel : nat) (self : t) (clock : Clock)
    (last_automated_data_interval : option DataInterval)
    (restriction : TimeRestriction) : result (option DagRunInfo) :=
  current_time ← datetime_now clock;
  let next_run := resolve_after current_time last_automated_data_interval restriction in
  start ← locate_next fuel self next_run;
  Ok (Some (interval start (add_hours start 1))).

End MonthlyWeekdayOccurrence.

Module EveryNDays.

Record t : Type := mk {
  interval_days : Z; tz : string; hour : Z; minute : Z; second : Z
}.

Definition serialize (self : t) : gmap string Value :=
  <["interval_days" := VInt (interval_days self)]> (<["tz" := VStr (tz self)]>
  (<["hour" := VInt (hour self)]> (<["minute" := VInt (minute self)]>
  (<["second" := VInt (second self)]> ∅)))).

Definition deserialize (data : gmap string Value) : result t :=
  interval_days ← get_int data "interval_days" 1;
  tz ← get_str data "tz" "America/New_York";
  hour ← get_int data "hour" 0;
  minute ← get_int data "minute" 0;
  second ← get_int data "second" 0;
  Ok (mk interval_days tz hour minute second).

(** [while base > run_after: base = base.subtract(days=self.interval_days)] *)
Fixpoint step_back (fuel : nat) (self : t) (run_after base : DateTime) : result DateTime :=
  match fuel with
  | O => OutOfFuel
  | S fuel' =>
      if ltb run_after base
      then step_back fuel' self run_after (subtract_days base (interval_days self))
      else Ok base
  end.

(** [run_after.in_timezone(tz)] is [run_after] itself in the one zone of
    the model. *)
Definition infer_manual_data_interval (fuel : nat) (self : t) (run_after : DateTime)
    : result DataInterval :=
  base ← replace run_after (hour self) (minute self) (second self);
  base ← step_back fuel self run_after base;
  let start := base in
  Ok (mkDataInterval start (add_days start (interval_days self))).

(** Lines 1244-1248. *)
Definition locate_next (self : t) (next_run : DateTime) : result DateTime :=
  aligned ← replace next_run (hour self) (minute self) (second self);
  Ok (if ltb aligned next_run then add_days aligned 1 else aligned).

Definition next_dagrun_info (self : t) (clock : Clock)
    (last_automated_data_interval : option DataInterval)
    (restriction : TimeRestriction) : result (option DagRunInfo) :=
  current_time ← datetime_now clock;
  let next_run := resolve_after current_time last_automated_data_interval restriction in
  start ← locate_next self next_run;
  Ok (Some (interval start (add_days start (interval_days self)))).

End EveryNDays.

Module BusinessDayOfMonth.

Record t : Type := mk { n : Z; tz : string; hour : Z; minute : Z; second : Z }.

Definition serialize (self : t) : gmap string Value :=
  <["n" := VInt (n self)]> (<["tz" := VStr (tz self)]>
  (<["hour" := VInt (hour self)]> (<["minute" := VInt (minute self)]>
  (<["second" := VInt (second self)]> ∅)))).

Definition deserialize (data : gmap string Value) : result t :=
  n ← get_int data "n" 1;
  tz ← get_str data "tz" "America/New_York";
  hour ← get_int data "hour" 0;
  minute ← get_int data "minute" 0;
  second ← get_int data "second" 0;
  Ok (mk n tz hour minute second).

Definition _get_nth_business_day (fuel : nat) (self : t) (year month : Z)
    : result DateTime :=
  dt ← (if 0 <? n self then
          dt ← datetime year month 1 0 0 0;
          scan_forward fuel (fun w => w <? 5) (n self) dt 0
        else
          dt ← last_date_of_month year month;
          scan_backward fuel (fun w => w <? 5) (n self) dt (-1));
  replace dt (hour self) (minute self) (second self).

Definition infer_manual_data_interval (fuel : nat) (self : t) (run_after : DateTime)
    : result DataInterval :=
  let year := pendulum.year run_after in
  let month := pendulum.month run_after in
  nth_business_day ← _get_nth_business_day fuel self year month;
  nth_business_day ← (if ltb run_after nth_business_day then
                        let (year, month) := prev_month (year, month) in
                        _get_nth_business_day fuel self year month
                      else Ok nth_business_day);
  let start := nth_business_day in
  Ok (mkDataInterval start (add_hours start 1)).

(** Lines 1352-1365. *)
Definition locate_next (fuel : nat) (self : t) (next_run : DateTime) : result DateTime :=
  search_from fuel (fun p => _get_nth_business_day fuel self p.1 p.2) next_month next_run
              (pendulum.year next_run, pendulum.month next_run).

Definition next_dagrun_info (fuel : nat) (self : t) (clock : Clock)
    (last_automated_data_interval : option DataInterval)
    (restriction : TimeRestriction) : result (option DagRunInfo) :=
  current_time ← datetime_now clock;
  let next_run := resolve_after current_time last_automated_data_interval restriction in
  start ← locate_next fuel self next_run;
  Ok (Some (interval start (add_hours start 1))).

End BusinessDayOfMonth.

Module MonthlyLastDayExceptWeekend.

Record t : Type := mk { tz : string; hour : Z; minute : Z; second : Z }.

Definition serialize (self : t) : gmap string Value :=
  <["tz" := VStr (tz self)]> (<["hour" := VInt (hour self)]>
  (<["minute" := VInt (minute self)]> (<["second" := VInt (second self)]> ∅))).

Definition deserialize (data : gmap string Value) : result t :=
  tz ← get_str data "tz" "America/New_York";
  hour ← get_int data "hour" 0;
  minute ← get_int data "minute" 0;
  second ← get_int data "second" 0;
  Ok (mk tz hour minute second).

(** [while last_day.day_of_week > 4: last_day = last_day.subtract(days=1)] *)
Fixpoint skip_weekend (fuel : nat) (last_day : DateTime) : result DateTime :=
  match fuel with
  | O => OutOfFuel
  | S fuel' =>
      if 4 <? day_of_week last_day
      then skip_weekend fuel' (subtract_days last_day 1)
      else Ok last_day
  end.

Definition _get_last_day (fuel : nat) (self : t) (year month : Z) : result DateTime :=
  last_day ← last_date_of_month year month;
  last_day ← skip_weekend fuel last_day;
  replace last_day (hour self) (minute self) (second self).

Definition infer_manual_data_interval (fuel : nat) (self : t) (run_after : DateTime)
    : result DataInterval :=
  let year := pendulum.year run_after in
  let month := pendulum.month run_after in
  last_day ← _get_last_day fuel self year month;
  last_day ← (if ltb run_after last_day then
                let (year, month) := prev_month (year, month) in
                _get_last_day fuel self year month
              else Ok last_day);
  let start := last_day in
  Ok (mkDataInterval start (add_hours start 1)).

(** Lines 1449-1462. *)
Definition locate_next (fuel : nat) (self : t) (next_run : DateTime) : result DateTime :=
  search_from fuel (fun p => _get_last_day fuel self p.1 p.2) next_month next_run
              (pendulum.year next_run, pendulum.month next_run).

Definition next_dagrun_info (fuel : nat) (self : t) (clock : Clock)
    (last_automated_data_interval : option DataInterval)
    (restriction : TimeRestriction) : result (option DagRunInfo) :=
  current_time ← datetime_now clock;
  let next_run := resolve_after current_time last_automated_data_interval restriction in
  start ← locate_next fuel self next_run;
  Ok (Some (interval start (add_hours start 1))).

End MonthlyLastDayExceptWeekend.

Module EveryNInterval.

Record t : Type := mk { interval_minutes : Z; interval_hours : Z; tz : string }.

Definition serialize (self : t) : gmap string Value :=
  <["interval_minutes" := VInt (interval_minutes self)]>
  (<["interval_hours" := VInt (interval_hours self)]>
  (<["tz" := VStr (tz self)]> ∅)).

Definition deserialize (data : gmap string Value) : result t :=
  interval_minutes ← get_int data "interval_minutes" 0;
  interval_hours ← get_int data "interval_hours" 0;
  tz ← get_str data "tz" "America/New_York";
  Ok (mk interval_minutes interval_hours tz).

Definition total_minutes (self : t) : Z := interval_hours self * 60 + interval_minutes self.

(** Lines 1552-1555 and 1573-1576: the grid point at or before [t]. *)
Definition grid_floor (total_minutes : Z) (t : DateTime) : result DateTime :=
  anchor ← replace t 0 0 0;
  let minutes_since_anchor := diff_total_minutes t anchor in
  let aligned_minutes := (minutes_since_anchor / total_minutes) * total_minutes in
  Ok (add_minutes anchor aligned_minutes).

Definition infer_manual_data_interval (self : t) (run_after : DateTime)
    : result DataInterval :=
  let total_minutes := total_minutes self in
  if total_minutes =? 0 then Raise ValueError
  else
    aligned ← grid_floor total_minutes run_after;
    Ok (mkDataInterval aligned (add_minutes aligned total_minutes)).

(** Lines 1573-1578: the grid point at or after [baseline]. *)
Definition locate_next (total_minutes : Z) (baseline : DateTime) : result DateTime :=
  aligned ← grid_floor total_minutes baseline;
  Ok (if ltb aligned baseline then add_minutes aligned total_minutes else aligned).

Definition next_dagrun_info (self : t) (clock : Clock)
    (last_automated_data_interval : option DataInterval)
    (restriction : TimeRestriction) : result (option DagRunInfo) :=
  let total_minutes := total_minutes self in
  if total_minutes =? 0 then Raise ValueError
  else
    let current_time := pendulum_now clock in
    let baseline := default current_time (earliest restriction) in
    let baseline := if catchup restriction then baseline else max baseline current_time in
    aligned ← locate_next total_minutes baseline;
    let next_start :=
      match last_automated_data_interval with
      | Some iv => if ltb (end_ iv) aligned then aligned else end_ iv
      | None => aligned
      end in
    if past_latest restriction next_start then Ok None
    else Ok (Some (interval next_start (add_minutes next_start total_minutes))).

End EveryNInterval.

(** ** The closed family of native timetables

    [CronTimetable] only forwards to Airflow's [CronDataIntervalTimetable]
    and has no evaluation code of its own in this module; it is not part of
    the family below. *)

Inductive Timetable : Type :=
  | TMonthlyLastDay (r : MonthlyLastDay.t)
  | TMonthlyOnDay (r : MonthlyOnDay.t)
  | TMonthlyMultipleDays (r : MonthlyMultipleDays.t)
  | TQuarterlyFirstDay (r : QuarterlyFirstDay.t)
  | TQuarterlyLastDay (r : QuarterlyLastDay.t)
  | TYearlyFirstDay (r : YearlyFirstDay.t)
  | TYearlyWeekdayOccurrence (r : YearlyWeekdayOccurrence.t)
  | TWeeklyOnDay (r : WeeklyOnDay.t)
  | TBiweeklyOnDay (r : BiweeklyOnDay.t)
  | TSemiMonthly (r : SemiMonthly.t)
  | TMonthlyWeekdayOccurrence (r : MonthlyWeekdayOccurrence.t)
  | TEveryNDays (r : EveryNDays.t)
  | TBusinessDayOfMonth (r : BusinessDayOfMonth.t)
  | TMonthlyLastDayExceptWeekend (r : MonthlyLastDayExceptWeekend.t)
  | TEveryNInterval (r : EveryNInterval.t).

Definition infer_manual_data_interval (fuel : nat) (tt : Timetable)
    (run_after : DateTime) : result DataInterval :=
  match tt with
  | TMonthlyLastDay r => MonthlyLastDay.infer_manual_data_interval r run_after
  | TMonthlyOnDay r => MonthlyOnDay.infer_manual_data_interval r run_after
  | TMonthlyMultipleDays r => MonthlyMultipleDays.infer_manual_data_interval fuel r run_after
  | TQuarterlyFirstDay r => QuarterlyFirstDay.infer_manual_data_interval r run_after
  | TQuarterlyLastDay r => QuarterlyLastDay.infer_manual_data_interval r run_after
  | TYearlyFirstDay r => YearlyFirstDay.infer_manual_data_interval r run_after
  | TYearlyWeekdayOccurrence r => YearlyWeekdayOccurrence.infer_manual_data_interval fuel r run_after
  | TWeeklyOnDay r => WeeklyOnDay.infer_manual_data_interval r run_after
  | TBiweeklyOnDay r => BiweeklyOnDay.infer_manual_data_interval r run_after
  | TSemiMonthly r => SemiMonthly.infer_manual_data_interval r run_after
  | TMonthlyWeekdayOccurrence r => MonthlyWeekdayOccurrence.infer_manual_data_interval fuel r run_after
  | TEveryNDays r => EveryNDays.infer_manual_data_interval fuel r run_after
  | TBusinessDayOfMonth r => BusinessDayOfMonth.infer_manual_data_interval fuel r run_after
  | TMonthlyLastDayExceptWeekend r => MonthlyLastDayExceptWeekend.infer_manual_data_interval fuel r run_after
  | TEveryNInterval r => EveryNInterval.infer_manual_data_interval r run_after
  end.

Definition next_dagrun_info (fuel : nat) (tt : Timetable) (clock : Clock)
    (last : option DataInterval) (restriction : TimeRestriction)
    : result (option DagRunInfo) :=
  match tt with
  | TMonthlyLastDay r => MonthlyLastDay.next_dagrun_info fuel r clock last restriction
  | TMonthlyOnDay r => MonthlyOnDay.next_dagrun_info fuel r clock last restriction
  | TMonthlyMultipleDays r => MonthlyMultipleDays.next_dagrun_info fuel r clock last restriction
  | TQuarterlyFirstDay r => QuarterlyFirstDay.next_dagrun_info fuel r clock last restriction
  | TQuarterlyLastDay r => QuarterlyLastDay.next_dagrun_info fuel r clock last restriction
  | TYearlyFirstDay r => YearlyFirstDay.next_dagrun_info fuel r clock last restriction
  | TYearlyWeekdayOccurrence r => YearlyWeekdayOccurrence.next_dagrun_info fuel r clock last restriction
  | TWeeklyOnDay r => WeeklyOnDay.next_dagrun_info r clock last restriction
  | TBiweeklyOnDay r => BiweeklyOnDay.next_dagrun_info r clock last restriction
  | TSemiMonthly r => SemiMonthly.next_dagrun_info r clock last restriction
  | TMonthlyWeekdayOccurrence r => MonthlyWeekdayOccurrence.next_dagrun_info fuel r clock last restriction
  | TEveryNDays r => EveryNDays.next_dagrun_info r clock last restriction
  | TBusinessDayOfMonth r => BusinessDayOfMonth.next_dagrun_info fuel r clock last restriction
  | TMonthlyLastDayExceptWeekend r => MonthlyLastDayExceptWeekend.next_dagrun_info fuel r clock last restriction
  | TEveryNInterval r => EveryNInterval.next_dagrun_info r clock last restriction
  end.

(** The search step of [next_dagrun_info]: the occurrence located when
    searching from [after]. *)
Definition locate_next (fuel : nat) (tt : Timetable) (after : DateTime) : result DateTime :=
  match tt with
  | TMonthlyLastDay r => MonthlyLastDay.locate_next fuel r after
  | TMonthlyOnDay r => MonthlyOnDay.locate_next fuel r after
  | TMonthlyMultipleDays r => MonthlyMultipleDays._get_next_run_date fuel r after
  | TQuarterlyFirstDay r => QuarterlyFirstDay.locate_next fuel r after
  | TQuarterlyLastDay r => QuarterlyLastDay.locate_next fuel r after
  | TYearlyFirstDay r => YearlyFirstDay.locate_next fuel r after
  | TYearlyWeekdayOccurrence r => YearlyWeekdayOccurrence.locate_next fuel r after
  | TWeeklyOnDay r => WeeklyOnDay._get_next_weekday r after
  | TBiweeklyOnDay r => BiweeklyOnDay._get_next_biweekly r after
  | TSemiMonthly r => SemiMonthly._get_next_run_date r after
  | TMonthlyWeekdayOccurrence r => MonthlyWeekdayOccurrence.locate_next fuel r after
  | TEveryNDays r => EveryNDays.locate_next r after
  | TBusinessDayOfMonth r => BusinessDayOfMonth.locate_next fuel r after
  | TMonthlyLastDayExceptWeekend r => MonthlyLastDayExceptWeekend.locate_next fuel r after
  | TEveryNInterval r =>
      if EveryNInterval.total_minutes r =? 0 then Raise ValueError
      else EveryNInterval.locate_next (EveryNInterval.total_minutes r) after
  end.

(** [cls.deserialize(self.serialize())] *)
Definition round_trip (tt : Timetable) : result Timetable :=
  match tt with
  | TMonthlyLastDay r => TMonthlyLastDay <$> MonthlyLastDay.deserialize (MonthlyLastDay.serialize r)
  | TMonthlyOnDay r => TMonthlyOnDay <$> MonthlyOnDay.deserialize (MonthlyOnDay.serialize r)
  | TMonthlyMultipleDays r =>
      TMonthlyMultipleDays <$> MonthlyMultipleDays.deserialize (MonthlyMultipleDays.serialize r)
  | TQuarterlyFirstDay r =>
      TQuarterlyFirstDay <$> QuarterlyFirstDay.deserialize (QuarterlyFirstDay.serialize r)
  | TQuarterlyLastDay r =>
      TQuarterlyLastDay <$> QuarterlyLastDay.deserialize (QuarterlyLastDay.serialize r)
  | TYearlyFirstDay r => TYearlyFirstDay <$> YearlyFirstDay.deserialize (YearlyFirstDay.serialize r)
  | TYearlyWeekdayOccurrence r =>
      TYearlyWeekdayOccurrence <$>
        YearlyWeekdayOccurrence.deserialize (YearlyWeekdayOccurrence.serialize r)
  | TWeeklyOnDay r => TWeeklyOnDay <$> WeeklyOnDay.deserialize (WeeklyOnDay.serialize r)
  | TBiweeklyOnDay r => TBiweeklyOnDay <$> BiweeklyOnDay.deserialize (BiweeklyOnDay.serialize r)
  | TSemiMonthly r => TSemiMonthly <$> SemiMonthly.deserialize (SemiMonthly.serialize r)
  | TMonthlyWeekdayOccurrence r =>
      TMonthlyWeekdayOccurrence <$>
        MonthlyWeekdayOccurrence.deserialize (MonthlyWeekdayOccurrence.serialize r)
  | TEveryNDays r => TEveryNDays <$> EveryNDays.deserialize (EveryNDays.serialize r)
  | TBusinessDayOfMonth r =>
      TBusinessDayOfMonth <$> BusinessDayOfMonth.deserialize (BusinessDayOfMonth.serialize r)
  | TMonthlyLastDayExceptWeekend r =>
      TMonthlyLastDayExceptWeekend <$>
        MonthlyLastDayExceptWeekend.deserialize (MonthlyLastDayExceptWeekend.serialize r)
  | TEveryNInterval r => TEveryNInterval <$> EveryNInterval.deserialize (EveryNInterval.serialize r)
  end.

(** ** Vocabulary of the statements *)

Definition lex_lt (a b : DateTime) : Prop :=
  year a < year b \/ (year a = year b /\
  (month a < month b \/ (month a = month b /\
  (day a < day b \/ (day a = day b /\
  (hour a < hour b \/ (hour a = hour b /\
  (minute a < minute b \/ (minute a = minute b /\
  (second a < second b \/ (second a = second b /\
    microsecond a < microsecond b))))))))))).

Definition fields_eq (a b : DateTime) : Prop :=
  year a = year b /\ month a = month b /\ day a = day b /\ hour a = hour b /\
  minute a = minute b /\ second a = second b /\ microsecond a = microsecond b.

Definition valid_day (dt : DateTime) : Prop :=
  1 <= month dt <= 12 /\ 1 <= day dt <= days_in_month (year dt) (month dt).

(** What a shift by whole days preserves and changes. *)
Definition shifted (dt dt' : DateTime) (n : Z) : Prop :=
  valid_day dt' /\ toordinal dt' = toordinal dt + n /\
  hour dt' = hour dt /\ minute dt' = minute dt /\
  second dt' = second dt /\ microsecond dt' = microsecond dt.

Definition date_lt (a b : DateTime) : Prop :=
  year a < year b \/ (year a = year b /\
  (month a < month b \/ (month a = month b /\ day a < day b))).

(** The day scans seen from the weekday alone: the number of days the scan
    moves before it stops, given the weekday it starts on. *)
Fixpoint rel_forward (fuel : nat) (hit : Z -> bool) (n : Z) (w : Z) (count : Z)
    : option Z :=
  match fuel with
  | O => None
  | S fuel' =>
      if hit w then
        if count + 1 =? n then Some 0
        else Z.succ <$> rel_forward fuel' hit n ((w + 1) mod 7) (count + 1)
      else Z.succ <$> rel_forward fuel' hit n ((w + 1) mod 7) count
  end.

Fixpoint rel_backward (fuel : nat) (hit : Z -> bool) (n : Z) (w : Z) (count : Z)
    : option Z :=
  match fuel with
  | O => None
  | S fuel' =>
      if hit w then
        if n =? count then Some 0
        else Z.succ <$> rel_backward fuel' hit n ((w - 1) mod 7) (count - 1)
      else Z.succ <$> rel_backward fuel' hit n ((w - 1) mod 7) count
  end.

Definition weekdays : list Z := [0; 1; 2; 3; 4; 5; 6].

Definition within_27 (r : option Z) : bool :=
  match r with
  | Some k => k <=? 27
  | None => false
  end.

(** Every scan for the 1st..[n_max]-th hit from any weekday stops within
    28 steps, at most 27 days away. *)
Definition forward_check (hit : Z -> bool) (n_max : Z) : bool :=
  forallb (fun w => forallb (fun n => within_27 (rel_forward 28 hit n w 0))
                            (seqZ 1 n_max)) weekdays.

Definition backward_check (hit : Z -> bool) (n_max : Z) : bool :=
  forallb (fun w => forallb (fun n => within_27 (rel_backward 28 hit (- n) w (-1)))
                            (seqZ 1 n_max)) weekdays.

Definition is_weekday (wd : Z) : Z -> bool := fun w => w =? wd.
Definition is_business_day : Z -> bool := fun w => w <? 5.

(** An occurrence inside month [m] of year [y] at the configured time. *)
Definition in_month_at (y m h mi s : Z) (r : result DateTime) : Prop :=
  exists d, 1 <= d <= days_in_month y m /\ r = Ok (mkDateTime y m d h mi s 0).

(** The occurrence a total period function yields, for the search lemmas. *)
Definition value_of (r : result DateTime) : DateTime :=
  match r with
  | Ok d => d
  | _ => mkDateTime 0 0 0 0 0 0 0
  end.

(** The index of a month and of a quarter on the time line. *)
Definition month_key (p : Z * Z) : Z := 12 * p.1 + p.2.
Definition quarter_key (p : Z * Z) : Z := 4 * p.1 + (p.2 - 1) / 3.
Definition valid_month (p : Z * Z) : Prop := 1 <= p.2 <= 12.

(** ** Well-formed configurations

    The parameter ranges the docstrings give: times of day in range, a day
    of month from 1, weekdays 0..6, a month 1..12, an ordinal that exists in
    every month (first to fourth, or fourth-last to last, weekday; first to
    twentieth, or twentieth-last to last, business day), a configured day
    every month has, an anchor date that parses, a positive number of days
    and a non-zero interval. *)

Definition ordinal_within (n bound : Z) : bool :=
  ((1 <=? n) && (n <=? bound)) || ((- bound <=? n) && (n <=? -1)).

Definition weekday_in_range (w : Z) : bool := (0 <=? w) && (w <=? 6).

Definition parses (s : string) : bool :=
  match parse s with
  | Ok _ => true
  | _ => false
  end.

Definition well_formed (tt : Timetable) : bool :=
  match tt with
  | TMonthlyLastDay r =>
      valid_time (MonthlyLastDay.hour r) (MonthlyLastDay.minute r) (MonthlyLastDay.second r)
  | TMonthlyOnDay r =>
      valid_time (MonthlyOnDay.hour r) (MonthlyOnDay.minute r) (MonthlyOnDay.second r)
      && (1 <=? MonthlyOnDay.day r)
  | TMonthlyMultipleDays r =>
      valid_time (MonthlyMultipleDays.hour r) (MonthlyMultipleDays.minute r)
                 (MonthlyMultipleDays.second r)
      && existsb (fun d => (1 <=? d) && (d <=? 28)) (MonthlyMultipleDays.days r)
  | TQuarterlyFirstDay r =>
      valid_time (QuarterlyFirstDay.hour r) (QuarterlyFirstDay.minute r)
                 (QuarterlyFirstDay.second r)
  | TQuarterlyLastDay r =>
      valid_time (QuarterlyLastDay.hour r) (QuarterlyLastDay.minute r)
                 (QuarterlyLastDay.second r)
  | TYearlyFirstDay r =>
      valid_time (YearlyFirstDay.hour r) (YearlyFirstDay.minute r) (YearlyFirstDay.second r)
  | TYearlyWeekdayOccurrence r =>
      valid_time (YearlyWeekdayOccurrence.hour r) (YearlyWeekdayOccurrence.minute r)
                 (YearlyWeekdayOccurrence.second r)
      && (1 <=? YearlyWeekdayOccurrence.month r) && (YearlyWeekdayOccurrence.month r <=? 12)
      && weekday_in_range (YearlyWeekdayOccurrence.weekday r)
      && ordinal_within (YearlyWeekdayOccurrence.n r) 4
  | TWeeklyOnDay r =>
      valid_time (WeeklyOnDay.hour r) (WeeklyOnDay.minute r) (WeeklyOnDay.second r)
  | TBiweeklyOnDay r =>
      valid_time (BiweeklyOnDay.hour r) (BiweeklyOnDay.minute r) (BiweeklyOnDay.second r)
      && parses (BiweeklyOnDay.anchor_date r)
  | TSemiMonthly r =>
      valid_time (SemiMonthly.hour r) (SemiMonthly.minute r) (SemiMonthly.second r)
  | TMonthlyWeekdayOccurrence r =>
      valid_time (MonthlyWeekdayOccurrence.hour r) (MonthlyWeekdayOccurrence.minute r)
                 (MonthlyWeekdayOccurrence.second r)
      && weekday_in_range (MonthlyWeekdayOccurrence.weekday r)
      && ordinal_within (MonthlyWeekdayOccurrence.n r) 4
  | TEveryNDays r =>
      valid_time (EveryNDays.hour r) (EveryNDays.minute r) (EveryNDays.second r)
      && (1 <=? EveryNDays.interval_days r)
  | TBusinessDayOfMonth r =>
      valid_time (BusinessDayOfMonth.hour r) (BusinessDayOfMonth.minute r)
                 (BusinessDayOfMonth.second r)
      && ordinal_within (BusinessDayOfMonth.n r) 20
  | TMonthlyLastDayExceptWeekend r =>
      valid_time (MonthlyLastDayExceptWeekend.hour r) (MonthlyLastDayExceptWeekend.minute r)
                 (MonthlyLastDayExceptWeekend.second r)
  | TEveryNInterval r => negb (EveryNInterval.total_minutes r =? 0)
  end.

(** The inputs of [next_dagrun_info] are instants: their fields are in range. *)
Definition valid_opt (o : option DateTime) : bool :=
  match o with
  | Some d => valid d
  | None => true
  end.

Definition valid_restriction (r : TimeRestriction) : bool :=
  valid_opt (earliest r) && valid_opt (latest r).

Definition valid_last (last : option DataInterval) : bool :=
  match last with
  | Some iv => valid (start iv) && valid (end_ iv)
  | None => true
  end.

(** A clock read yields an instant or raises; it does not loop. *)
Definition valid_clock (c : Clock) : bool :=
  valid (pendulum_now c) &&
  match datetime_now c with
  | Ok d => valid d
  | Raise _ => true
  | OutOfFuel => false
  end.

(** The two variants that promise a Monday-to-Friday occurrence. *)
Definition avoids_weekend (tt : Timetable) : bool :=
  match tt with
  | TBusinessDayOfMonth _ | TMonthlyLastDayExceptWeekend _ => true
  | _ => false
  end.

(** The variants with an ordinal index, configured with [n = 0] (and, for
    the yearly one, a month that exists). *)
Definition zero_ordinal (tt : Timetable) : bool :=
  match tt with
  | TYearlyWeekdayOccurrence r =>
      (YearlyWeekdayOccurrence.n r =? 0)
      && (1 <=? YearlyWeekdayOccurrence.month r) && (YearlyWeekdayOccurrence.month r <=? 12)
  | TMonthlyWeekdayOccurrence r => MonthlyWeekdayOccurrence.n r =? 0
  | TBusinessDayOfMonth r => BusinessDayOfMonth.n r =? 0
  | _ => false
  end.

(** The variants whose [next_dagrun_info] reads the clock with
    [pendulum.now(tz)] or [now(tz)]; the others use [datetime.now(tz)]. *)
Definition reads_pendulum_now (tt : Timetable) : bool :=
  match tt with
  | TMonthlyLastDay _ | TMonthlyOnDay _ | TMonthlyMultipleDays _
  | TQuarterlyFirstDay _ | TQuarterlyLastDay _ | TYearlyFirstDay _
  | TYearlyWeekdayOccurrence _ | TEveryNInterval _ => true
  | _ => false
  end.

(** The start of the interval a next-run decision carries. *)
Definition start_of (info : DagRunInfo) : DateTime := start (data_interval info).

(** The biweekly rule on stamps: [F] is the stamp of the first run and [A]
    the stamp searched from. *)
Definition biweekly_stamp (F A : Z) : Z :=
  if A <? F then F
  else F + 14 * 86400000000 * ((A - F) / (14 * 86400000000) + 1).

(** Midnight of the day of [t], and the grid of step [total] minutes
    anchored there. *)
Definition midnight (t : DateTime) : DateTime :=
  mkDateTime (year t) (month t) (day t) 0 0 0 0.

Definition grid_point (total : Z) (t : DateTime) (k : Z) : DateTime :=
  add_minutes (midnight t) (k * total).

(** [g] is the first point at or after [t] of the grid anchored at the
    midnight of [t]. *)
Definition first_grid_point_from (total : Z) (t g : DateTime) : Prop :=
  exists k, g = grid_point total t k /\ le t g /\ lt (grid_point total t (k - 1)) t.

(** The grid restarts at every midnight exactly when the step divides a day. *)
Definition grid_periodic (r : EveryNInterval.t) : bool :=
  (0 <? EveryNInterval.total_minutes r) && (1440 mod EveryNInterval.total_minutes r =? 0).

(** The variants for which the search is monotone. *)
Definition monotone_variant (tt : Timetable) : bool :=
  match tt with
  | TWeeklyOnDay _ => false
  | TEveryNInterval r => grid_periodic r
  | _ => true
  end.

(** The clock read at the head of a variant's [next_dagrun_info]. *)
Definition clock_read (tt : Timetable) (clock : Clock) : result DateTime :=
  if reads_pendulum_now tt then Ok (pendulum_now clock) else datetime_now clock.

Definition is_EveryNInterval (tt : Timetable) : bool :=
  match tt with
  | TEveryNInterval _ => true
  | _ => false
  end.

(** A configuration as a constructor builds it: the days of
    MonthlyMultipleDays sorted and distinct, a weekday that has a name where
    the constructor looks one up. *)
Definition constructed (tt : Timetable) : bool :=
  match tt with
  | TMonthlyMultipleDays r =>
      bool_decide (MonthlyMultipleDays.sorted_set (MonthlyMultipleDays.days r)
                   = MonthlyMultipleDays.days r)
  | TBiweeklyOnDay r => weekday_name_exists (BiweeklyOnDay.weekday r)
  | TMonthlyWeekdayOccurrence r => weekday_name_exists (MonthlyWeekdayOccurrence.weekday r)
  | _ => true
  end.

Definition is_YearlyWeekdayOccurrence (tt : Timetable) : bool :=
  match tt with
  | TYearlyWeekdayOccurrence _ => true
  | _ => false
  end.

(** The zone a rule is configured with, [self.tz]. *)
Definition zone (tt : Timetable) : string :=
  match tt with
  | TMonthlyLastDay r => MonthlyLastDay.tz r
  | TMonthlyOnDay r => MonthlyOnDay.tz r
  | TMonthlyMultipleDays r => MonthlyMultipleDays.tz r
  | TQuarterlyFirstDay r => QuarterlyFirstDay.tz r
  | TQuarterlyLastDay r => QuarterlyLastDay.tz r
  | TYearlyFirstDay r => YearlyFirstDay.tz r
  | TYearlyWeekdayOccurrence r => YearlyWeekdayOccurrence.tz r
  | TWeeklyOnDay r => WeeklyOnDay.tz r
  | TBiweeklyOnDay r => BiweeklyOnDay.tz r
  | TSemiMonthly r => SemiMonthly.tz r
  | TMonthlyWeekdayOccurrence r => MonthlyWeekdayOccurrence.tz r
  | TEveryNDays r => EveryNDays.tz r
  | TBusinessDayOfMonth r => BusinessDayOfMonth.tz r
  | TMonthlyLastDayExceptWeekend r => MonthlyLastDayExceptWeekend.tz r
  | TEveryNInterval r => EveryNInterval.tz r
  end.

(** The instants Airflow hands to a timetable ([run_after], the bounds of
    a restriction, the end of the last interval) are UTC instants, and a
    [DateTime] of this development is a civil time in UTC.  The source
    reads the calendar fields of such an instant in the instant's own zone
    and builds the occurrences it compares it with in the zone of the rule;
    the embedding, which has one zone, is the source exactly when the two
    agree: for a rule whose zone is UTC.  The statements that order an
    occurrence and an instant given to the rule are made for such rules. *)
Definition in_utc (tt : Timetable) : bool := String.eqb (zone tt) "UTC".

(** ** Vocabulary of the further properties *)

Fixpoint strictly_increasing (l : list Z) : bool :=
  match l with
  | x :: (y :: _) as rest => (x <? y) && strictly_increasing rest
  | _ => true
  end.

(** The nine classes whose search walks calendar periods with the
    [while True] loop embedded as [search_from]: the occurrence of a period
    (a month, the quarter of a month, or the year), and the period steps of
    their two evaluation calls. *)
Definition searches_by_period (tt : Timetable) : bool :=
  match tt with
  | TMonthlyLastDay _ | TMonthlyOnDay _ | TQuarterlyFirstDay _ | TQuarterlyLastDay _
  | TYearlyFirstDay _ | TYearlyWeekdayOccurrence _ | TMonthlyWeekdayOccurrence _
  | TBusinessDayOfMonth _ | TMonthlyLastDayExceptWeekend _ => true
  | _ => false
  end.

Definition period_occurrence (fuel : nat) (tt : Timetable) (p : Z * Z) : result DateTime :=
  match tt with
  | TMonthlyLastDay r => MonthlyLastDay._get_last_day r p.1 p.2
  | TMonthlyOnDay r => MonthlyOnDay._get_run_date r p.1 p.2
  | TQuarterlyFirstDay r => QuarterlyFirstDay._get_first_day_of_quarter r p.1 p.2
  | TQuarterlyLastDay r => QuarterlyLastDay._get_last_day_of_quarter r p.1 p.2
  | TYearlyFirstDay r => YearlyFirstDay._get_first_day_of_year r p.1
  | TYearlyWeekdayOccurrence r => YearlyWeekdayOccurrence._get_nth_weekday fuel r p.1
  | TMonthlyWeekdayOccurrence r => MonthlyWeekdayOccurrence._get_nth_weekday fuel r p.1 p.2
  | TBusinessDayOfMonth r => BusinessDayOfMonth._get_nth_business_day fuel r p.1 p.2
  | TMonthlyLastDayExceptWeekend r => MonthlyLastDayExceptWeekend._get_last_day fuel r p.1 p.2
  | _ => Raise TypeError
  end.

Definition following_period (tt : Timetable) (p : Z * Z) : Z * Z :=
  match tt with
  | TQuarterlyFirstDay _ | TQuarterlyLastDay _ => next_quarter p
  | TYearlyFirstDay _ | TYearlyWeekdayOccurrence _ => (p.1 + 1, p.2)
  | _ => next_month p
  end.

Definition preceding_period (tt : Timetable) (p : Z * Z) : Z * Z :=
  match tt with
  | TQuarterlyFirstDay _ => QuarterlyFirstDay.prev_quarter p
  | TQuarterlyLastDay _ => QuarterlyLastDay.prev_quarter p
  | TYearlyFirstDay _ | TYearlyWeekdayOccurrence _ => (p.1 - 1, p.2)
  | _ => prev_month p
  end.

(** The configured time of day of the fourteen classes that have one. *)
Definition time_of_day (tt : Timetable) : option (Z * Z * Z) :=
  match tt with
  | TMonthlyLastDay r =>
      Some (MonthlyLastDay.hour r, MonthlyLastDay.minute r, MonthlyLastDay.second r)
  | TMonthlyOnDay r =>
      Some (MonthlyOnDay.hour r, MonthlyOnDay.minute r, MonthlyOnDay.second r)
  | TMonthlyMultipleDays r =>
      Some (MonthlyMultipleDays.hour r, MonthlyMultipleDays.minute r,
            MonthlyMultipleDays.second r)
  | TQuarterlyFirstDay r =>
      Some (QuarterlyFirstDay.hour r, QuarterlyFirstDay.minute r, QuarterlyFirstDay.second r)
  | TQuarterlyLastDay r =>
      Some (QuarterlyLastDay.hour r, QuarterlyLastDay.minute r, QuarterlyLastDay.second r)
  | TYearlyFirstDay r =>
      Some (YearlyFirstDay.hour r, YearlyFirstDay.minute r, YearlyFirstDay.second r)
  | TYearlyWeekdayOccurrence r =>
      Some (YearlyWeekdayOccurrence.hour r, YearlyWeekdayOccurrence.minute r,
            YearlyWeekdayOccurrence.second r)
  | TWeeklyOnDay r =>
      Some (WeeklyOnDay.hour r, WeeklyOnDay.minute r, WeeklyOnDay.second r)
  | TBiweeklyOnDay r =>
      Some (BiweeklyOnDay.hour r, BiweeklyOnDay.minute r, BiweeklyOnDay.second r)
  | TSemiMonthly r =>
      Some (SemiMonthly.hour r, SemiMonthly.minute r, SemiMonthly.second r)
  | TMonthlyWeekdayOccurrence r =>
      Some (MonthlyWeekdayOccurrence.hour r, MonthlyWeekdayOccurrence.minute r,
            MonthlyWeekdayOccurrence.second r)
  | TEveryNDays r =>
      Some (EveryNDays.hour r, EveryNDays.minute r, EveryNDays.second r)
  | TBusinessDayOfMonth r =>
      Some (BusinessDayOfMonth.hour r, BusinessDayOfMonth.minute r,
            BusinessDayOfMonth.second r)
  | TMonthlyLastDayExceptWeekend r =>
      Some (MonthlyLastDayExceptWeekend.hour r, MonthlyLastDayExceptWeekend.minute r,
            MonthlyLastDayExceptWeekend.second r)
  | TEveryNInterval _ => None
  end.

Definition at_time_of_day (tt : Timetable) (r : DateTime) : Prop :=
  match time_of_day tt with
  | Some (h, mi, s) => hour r = h /\ minute r = mi /\ second r = s /\ microsecond r = 0
  | None => True
  end.

(** The number of days among [first], [first + step], ..., [first + k * step]
    whose weekday satisfies [hit]. *)
Fixpoint matching_days (hit : Z -> bool) (first : DateTime) (step : Z) (k : nat) : Z :=
  (if hit (day_of_week (add_days first (step * Z.of_nat k))) then 1 else 0)
  + match k with
    | O => 0
    | S k' => matching_days hit first step k'
    end.

(** The calendar date of an instant, without its time of day. *)
Definition same_date (a b : DateTime) : Prop :=
  year a = year b /\ month a = month b /\ day a = day b.

(** The variants whose search is proved never to return an instant before
    the one searched from: all but WeeklyOnDay, and EveryNInterval with a
    positive interval. *)
Definition no_skip_variant (tt : Timetable) : bool :=
  match tt with
  | TWeeklyOnDay _ => false
  | TEveryNInterval r => 0 <? EveryNInterval.total_minutes r
  | _ => true
  end.

(** Two instants with the same time of day. *)
Definition same_time (a b : DateTime) : Prop :=
  hour a = hour b /\ minute a = minute b /\ second a = second b /\
  microsecond a = microsecond b.

(** The three classes with an ordinal index: the test their day scans
    apply to a weekday, and the index. *)
Definition ordinal_rule (tt : Timetable) : option ((Z -> bool) * Z) :=
  match tt with
  | TYearlyWeekdayOccurrence r =>
      Some (fun w => w =? YearlyWeekdayOccurrence.weekday r, YearlyWeekdayOccurrence.n r)
  | TMonthlyWeekdayOccurrence r =>
      Some (fun w => w =? MonthlyWeekdayOccurrence.weekday r, MonthlyWeekdayOccurrence.n r)
  | TBusinessDayOfMonth r => Some (fun w => w <? 5, BusinessDayOfMonth.n r)
  | _ => None
  end.

(** The first and the last day of the month of an instant, at midnight. *)
Definition first_of_month (r : DateTime) : DateTime :=
  mkDateTime (year r) (month r) 1 0 0 0 0.

Definition last_of_month (r : DateTime) : DateTime :=
  mkDateTime (year r) (month r) (days_in_month (year r) (month r)) 0 0 0 0.

(** The classes whose evaluation reaches the time-of-day fields after steps
    that cannot fail or loop on a valid instant. *)
Definition sets_time_directly (tt : Timetable) : bool :=
  match tt with
  | TMonthlyLastDay _ | TMonthlyOnDay _ | TQuarterlyFirstDay _ | TQuarterlyLastDay _
  | TYearlyFirstDay _ | TWeeklyOnDay _ | TSemiMonthly _ | TEveryNDays _
  | TMonthlyLastDayExceptWeekend _ => true
  | _ => false
  end.

(** * Properties *)

(** ** Sanity checks of the model *)

Example parse_anchor : parse "2024-01-01" = Ok (mkDateTime 2024 1 1 0 0 0 0).
Proof. reflexivity. Qed.

Example monday_2024_01_01 : day_of_week (mkDateTime 2024 1 1 0 0 0 0) = 0.
Proof. reflexivity. Qed.

Example leap_day_step :
  add_days (mkDateTime 2024 2 28 7 0 0 0) 2 = mkDateTime 2024 3 1 7 0 0 0.
Proof. reflexivity. Qed.

Example hour_wrap :
  add_hours (mkDateTime 2023 12 31 23 30 0 0) 1 = mkDateTime 2024 1 1 0 30 0 0.
Proof. reflexivity. Qed.


(** ** The outcome monad *)

Lemma bind_Ok_inv {A B} (r : result A) (k : A -> result B) (b : B) :
  r ≫= k = Ok b -> exists a, r = Ok a /\ k a = Ok b.
Proof. destruct r as [a| |]; simpl; intros H; try discriminate. exists a; auto. Qed.

Lemma bind_Ok {A B} (a : A) (k : A -> result B) : Ok a ≫= k = k a.
Proof. reflexivity. Qed.

Lemma bind_not_Ok {A B} (r : result A) (k : A -> result B) :
  (forall a, r <> Ok a) -> forall b, r ≫= k <> Ok b.
Proof. intros Hr b H. apply bind_Ok_inv in H as (a & Ha & _). exact (Hr a Ha). Qed.

(** ** The order on instants *)

Section Order.

Lemma fields_eq_eq a b : fields_eq a b <-> a = b.
Proof.
  split; [|intros ->; repeat split].
  destruct a, b; unfold fields_eq; simpl. intros (-> & -> & -> & -> & -> & -> & ->).
  reflexivity.
Qed.

Lemma compare_Lt a b : compare a b = Lt <-> lex_lt a b.
Proof.
  unfold compare, lex_lt, lex.
  repeat match goal with
         | |- context [?x ?= ?y] => destruct (Z.compare_spec x y)
         end; split; intros; try discriminate; try reflexivity; lia.
Qed.

Lemma compare_Gt a b : compare a b = Gt <-> lex_lt b a.
Proof.
  unfold compare, lex_lt, lex.
  repeat match goal with
         | |- context [?x ?= ?y] => destruct (Z.compare_spec x y)
         end; split; intros; try discriminate; try reflexivity; lia.
Qed.

Lemma compare_Eq a b : compare a b = Eq <-> a = b.
Proof.
  rewrite <- fields_eq_eq. unfold compare, fields_eq, lex.
  repeat match goal with
         | |- context [?x ?= ?y] => destruct (Z.compare_spec x y)
         end; split; intros; try discriminate; try reflexivity; lia.
Qed.

Lemma ltb_lt a b : ltb a b = true <-> lex_lt a b.
Proof.
  unfold ltb. rewrite <- compare_Lt.
  destruct (compare a b); split; intros; congruence.
Qed.

Lemma ltb_nlt a b : ltb a b = false <-> ~ lex_lt a b.
Proof. rewrite <- ltb_lt. destruct (ltb a b); split; intros; congruence. Qed.

Lemma leb_le a b : leb a b = true <-> ~ lex_lt b a.
Proof.
  unfold leb. rewrite <- compare_Gt.
  destruct (compare a b); split; intros; congruence.
Qed.

Lemma leb_gt a b : leb a b = false <-> lex_lt b a.
Proof.
  unfold leb. rewrite <- compare_Gt.
  destruct (compare a b); split; intros; congruence.
Qed.

Lemma lt_lex a b : lt a b <-> lex_lt a b.
Proof. apply ltb_lt. Qed.

Lemma le_lex a b : le a b <-> ~ lex_lt b a.
Proof. apply leb_le. Qed.

Lemma le_cases a b : le a b <-> lex_lt a b \/ a = b.
Proof.
  rewrite le_lex, <- fields_eq_eq. unfold lex_lt, fields_eq. lia.
Qed.

Lemma le_refl a : le a a.
Proof. apply le_lex. unfold lex_lt. lia. Qed.

Lemma le_trans a b c : le a b -> le b c -> le a c.
Proof. rewrite !le_lex. unfold lex_lt. lia. Qed.

Lemma lt_le_trans a b c : lt a b -> le b c -> lt a c.
Proof. rewrite !lt_lex, le_lex. unfold lex_lt. lia. Qed.

Lemma le_lt_trans a b c : le a b -> lt b c -> lt a c.
Proof. rewrite !lt_lex, le_lex. unfold lex_lt. lia. Qed.

Lemma le_antisym a b : le a b -> le b a -> a = b.
Proof. rewrite !le_lex, <- fields_eq_eq. unfold lex_lt, fields_eq. lia. Qed.

Lemma lt_le a b : lt a b -> le a b.
Proof. rewrite lt_lex, le_lex. unfold lex_lt. lia. Qed.

Lemma lt_not_le a b : lt a b <-> ~ le b a.
Proof. rewrite lt_lex, le_lex. unfold lex_lt. lia. Qed.

Lemma le_total a b : le a b \/ le b a.
Proof. rewrite !le_lex. unfold lex_lt. lia. Qed.

End Order.

(** Turn boolean comparisons of instants into arithmetic on fields. *)
Ltac order_to_fields :=
  repeat match goal with
         | H : ltb _ _ = true |- _ => apply ltb_lt in H
         | H : ltb _ _ = false |- _ => apply ltb_nlt in H
         | H : leb _ _ = true |- _ => apply leb_le in H
         | H : leb _ _ = false |- _ => apply leb_gt in H
         | H : lt _ _ |- _ => apply lt_lex in H
         | H : le _ _ |- _ => apply le_lex in H
         | |- ltb _ _ = true => apply ltb_lt
         | |- ltb _ _ = false => apply ltb_nlt
         | |- leb _ _ = true => apply leb_le
         | |- leb _ _ = false => apply leb_gt
         | |- lt _ _ => apply lt_lex
         | |- le _ _ => apply le_lex
         end;
  unfold lex_lt in *; simpl in *.

Ltac order_lia := order_to_fields; lia.

(** ** The calendar *)

Section Calendar.

Lemma month_cases (m : Z) :
  1 <= m <= 12 ->
  m = 1 \/ m = 2 \/ m = 3 \/ m = 4 \/ m = 5 \/ m = 6 \/
  m = 7 \/ m = 8 \/ m = 9 \/ m = 10 \/ m = 11 \/ m = 12.
Proof. lia. Qed.

Lemma days_in_month_bounds y m : 28 <= days_in_month y m <= 31.
Proof.
  unfold days_in_month.
  repeat match goal with |- context [if ?c then _ else _] => destruct c end; lia.
Qed.

Lemma days_before_year_succ y :
  days_before_year (y + 1) = days_before_year y + (if is_leap y then 366 else 365).
Proof.
  unfold days_before_year, is_leap.
  replace (y + 1 - 1) with y by lia.
  destruct (Z.eqb_spec (y mod 4) 0), (Z.eqb_spec (y mod 100) 0),
    (Z.eqb_spec (y mod 400) 0); simpl; Z.div_mod_to_equations; lia.
Qed.

Lemma days_before_month_succ y m :
  1 <= m <= 11 ->
  days_before_month y (m + 1) = days_before_month y m + days_in_month y m.
Proof.
  intros Hm. unfold days_before_month, days_in_month.
  assert (Hc : m = 1 \/ m = 2 \/ m = 3 \/ m = 4 \/ m = 5 \/ m = 6 \/
               m = 7 \/ m = 8 \/ m = 9 \/ m = 10 \/ m = 11) by lia.
  destruct (is_leap y);
    repeat (destruct Hc as [-> | Hc]; [reflexivity|]); subst; reflexivity.
Qed.

Lemma days_before_month_december y :
  days_before_month y 12 + 31 = if is_leap y then 366 else 365.
Proof. unfold days_before_month. destruct (is_leap y); reflexivity. Qed.

Lemma days_before_month_january y : days_before_month y 1 = 0.
Proof. reflexivity. Qed.

Lemma valid_date_spec y m d :
  valid_date y m d = true <-> 1 <= m <= 12 /\ 1 <= d <= days_in_month y m.
Proof. unfold valid_date. rewrite !andb_true_iff, !Z.leb_le. lia. Qed.

Lemma valid_time_spec h mi s :
  valid_time h mi s = true <-> 0 <= h <= 23 /\ 0 <= mi <= 59 /\ 0 <= s <= 59.
Proof. unfold valid_time. rewrite !andb_true_iff, !Z.leb_le. lia. Qed.

Lemma valid_spec dt :
  valid dt = true <->
  valid_day dt /\ (0 <= hour dt <= 23 /\ 0 <= minute dt <= 59 /\ 0 <= second dt <= 59)
  /\ 0 <= microsecond dt <= 999999.
Proof.
  unfold valid, valid_day.
  rewrite !andb_true_iff, valid_date_spec, valid_time_spec, !Z.leb_le. lia.
Qed.

Lemma toordinal_next_day dt :
  valid_day dt -> toordinal (next_day dt) = toordinal dt + 1.
Proof.
  destruct dt as [y m d h mi s us]. unfold valid_day, toordinal, next_day. simpl.
  intros [Hm Hd].
  destruct (Z.ltb_spec d (days_in_month y m)); simpl; [unfold ymd2ord; lia|].
  assert (d = days_in_month y m) as -> by lia.
  destruct (Z.ltb_spec m 12); simpl; unfold ymd2ord.
  - rewrite days_before_month_succ by lia. lia.
  - assert (m = 12) as -> by lia.
    rewrite days_before_year_succ, days_before_month_january.
    pose proof (days_before_month_december y).
    change (days_in_month y 12) with 31. lia.
Qed.

Lemma next_day_valid dt : valid_day dt -> valid_day (next_day dt).
Proof.
  destruct dt as [y m d h mi s us]. unfold valid_day, next_day. simpl.
  intros [Hm Hd].
  destruct (Z.ltb_spec d (days_in_month y m)); simpl; [lia|].
  destruct (Z.ltb_spec m 12); simpl.
  - pose proof (days_in_month_bounds y (m + 1)). lia.
  - pose proof (days_in_month_bounds (y + 1) 1). lia.
Qed.

Lemma prev_day_valid dt : valid_day dt -> valid_day (prev_day dt).
Proof.
  destruct dt as [y m d h mi s us]. unfold valid_day, prev_day. simpl.
  intros [Hm Hd].
  destruct (Z.ltb_spec 1 d); simpl; [lia|].
  destruct (Z.ltb_spec 1 m); simpl.
  - pose proof (days_in_month_bounds y (m - 1)). lia.
  - change (days_in_month (y - 1) 12) with 31. lia.
Qed.

Lemma next_prev_day dt : valid_day dt -> next_day (prev_day dt) = dt.
Proof.
  destruct dt as [y m d h mi s us]. unfold valid_day, prev_day. simpl.
  intros [Hm Hd].
  destruct (Z.ltb_spec 1 d); simpl.
  - destruct (Z.ltb_spec (d - 1) (days_in_month y m)); [|lia].
    f_equal; lia.
  - assert (d = 1) as -> by lia.
    destruct (Z.ltb_spec 1 m); simpl.
    + rewrite Z.ltb_irrefl.
      destruct (Z.ltb_spec (m - 1) 12); [|lia]. f_equal; lia.
    + assert (m = 1) as -> by lia.
      change (days_in_month (y - 1) 12) with 31. simpl. f_equal; lia.
Qed.

Lemma prev_next_day dt : valid_day dt -> prev_day (next_day dt) = dt.
Proof.
  destruct dt as [y m d h mi s us]. unfold valid_day, next_day. simpl.
  intros [Hm Hd].
  destruct (Z.ltb_spec d (days_in_month y m)); simpl.
  - destruct (Z.ltb_spec 1 (d + 1)); [|lia]. f_equal; lia.
  - assert (d = days_in_month y m) by lia. subst d.
    destruct (Z.ltb_spec m 12); simpl.
    + destruct (Z.ltb_spec 1 (m + 1)); [|lia].
      replace (m + 1 - 1) with m by lia. reflexivity.
    + assert (m = 12) as -> by lia.
      replace (y + 1 - 1) with y by lia. reflexivity.
Qed.

Lemma toordinal_prev_day dt :
  valid_day dt -> toordinal (prev_day dt) = toordinal dt - 1.
Proof.
  intros H. pose proof (toordinal_next_day (prev_day dt) (prev_day_valid dt H)) as E.
  rewrite next_prev_day in E by assumption. lia.
Qed.


Lemma next_day_time dt :
  hour (next_day dt) = hour dt /\ minute (next_day dt) = minute dt /\
  second (next_day dt) = second dt /\ microsecond (next_day dt) = microsecond dt.
Proof.
  destruct dt as [y m d h mi s us]. unfold next_day.
  repeat match goal with |- context [if ?c then _ else _] => destruct c end; simpl; auto.
Qed.

Lemma prev_day_time dt :
  hour (prev_day dt) = hour dt /\ minute (prev_day dt) = minute dt /\
  second (prev_day dt) = second dt /\ microsecond (prev_day dt) = microsecond dt.
Proof.
  destruct dt as [y m d h mi s us]. unfold prev_day.
  repeat match goal with |- context [if ?c then _ else _] => destruct c end; simpl; auto.
Qed.

Lemma add_days_shifted dt n : valid_day dt -> shifted dt (add_days dt n) n.
Proof.
  intros Hv. unfold shifted. destruct n as [|p|p]; simpl.
  - repeat split; try apply Hv; lia.
  - induction p using Pos.peano_ind.
    + simpl. pose proof (next_day_time dt). pose proof (toordinal_next_day dt Hv).
      pose proof (next_day_valid dt Hv). intuition lia.
    + rewrite Pos.iter_succ. destruct IHp as (V & O & T).
      pose proof (next_day_time (Pos.iter next_day dt p)).
      pose proof (toordinal_next_day _ V). pose proof (next_day_valid _ V).
      intuition lia.
  - induction p using Pos.peano_ind.
    + simpl. pose proof (prev_day_time dt). pose proof (toordinal_prev_day dt Hv).
      pose proof (prev_day_valid dt Hv). intuition lia.
    + rewrite Pos.iter_succ. destruct IHp as (V & O & T).
      pose proof (prev_day_time (Pos.iter prev_day dt p)).
      pose proof (toordinal_prev_day _ V). pose proof (prev_day_valid _ V).
      intuition lia.
Qed.

Lemma days_before_year_le y k :
  0 <= k -> days_before_year y + 365 * k <= days_before_year (y + k).
Proof.
  intros Hk. revert k Hk. apply natlike_ind.
  - replace (y + 0) with y by lia. lia.
  - intros k Hk IH. replace (y + Z.succ k) with (y + k + 1) by lia.
    rewrite days_before_year_succ. destruct (is_leap (y + k)); lia.
Qed.

Lemma ymd2ord_in_year y m d :
  1 <= m <= 12 -> 1 <= d <= days_in_month y m ->
  days_before_year y < ymd2ord y m d <= days_before_year (y + 1).
Proof.
  intros Hm Hd. rewrite days_before_year_succ. unfold ymd2ord.
  revert Hd. unfold days_before_month, days_in_month, DAYS_BEFORE_MONTH.
  destruct (is_leap y);
    destruct (month_cases m Hm) as
      [->|[->|[->|[->|[->|[->|[->|[->|[->|[->|[->| ->]]]]]]]]]]]; simpl; lia.
Qed.

Lemma days_before_month_le y m k :
  1 <= m -> 0 <= k -> m + 1 + k <= 12 ->
  days_before_month y m + days_in_month y m <= days_before_month y (m + 1 + k).
Proof.
  intros Hm Hk. revert k Hk. apply (natlike_ind (fun k => m + 1 + k <= 12 ->
    days_before_month y m + days_in_month y m <= days_before_month y (m + 1 + k))).
  - intros Hle. replace (m + 1 + 0) with (m + 1) by lia.
    rewrite days_before_month_succ by lia. lia.
  - intros k Hk IH Hle. replace (m + 1 + Z.succ k) with (m + 1 + k + 1) by lia.
    rewrite days_before_month_succ by lia.
    pose proof (days_in_month_bounds y (m + 1 + k)). lia.
Qed.

Lemma days_before_month_mono y m1 m2 :
  1 <= m1 -> m1 < m2 -> m2 <= 12 ->
  days_before_month y m1 + days_in_month y m1 <= days_before_month y m2.
Proof.
  intros H1 H12 H2.
  pose proof (days_before_month_le y m1 (m2 - (m1 + 1)) H1 ltac:(lia) ltac:(lia)) as E.
  replace (m1 + 1 + (m2 - (m1 + 1))) with m2 in E by lia. exact E.
Qed.

Lemma toordinal_lt a b :
  valid_day a -> valid_day b -> date_lt a b -> toordinal a < toordinal b.
Proof.
  destruct a as [y1 m1 d1 ? ? ? ?], b as [y2 m2 d2 ? ? ? ?].
  unfold valid_day, date_lt, toordinal. simpl. intros [Hm1 Hd1] [Hm2 Hd2] H.
  pose proof (ymd2ord_in_year y1 m1 d1 Hm1 Hd1) as B1.
  pose proof (ymd2ord_in_year y2 m2 d2 Hm2 Hd2) as B2.
  destruct H as [Hy | [Ey [Hmo | [Emo Hd]]]].
  - pose proof (days_before_year_le (y1 + 1) (y2 - (y1 + 1)) ltac:(lia)) as E.
    replace (y1 + 1 + (y2 - (y1 + 1))) with y2 in E by lia. lia.
  - subst y2. pose proof (days_before_month_mono y1 m1 m2 ltac:(lia) Hmo ltac:(lia)).
    unfold ymd2ord. lia.
  - subst y2 m2. unfold ymd2ord. lia.
Qed.

Lemma toordinal_inj a b :
  valid_day a -> valid_day b -> toordinal a = toordinal b ->
  year a = year b /\ month a = month b /\ day a = day b.
Proof.
  intros Ha Hb E.
  assert (N1 : ~ date_lt a b) by (intros L; apply (toordinal_lt a b Ha Hb) in L; lia).
  assert (N2 : ~ date_lt b a) by (intros L; apply (toordinal_lt b a Hb Ha) in L; lia).
  unfold date_lt in *. lia.
Qed.

Lemma toordinal_lt_iff a b :
  valid_day a -> valid_day b -> (date_lt a b <-> toordinal a < toordinal b).
Proof.
  intros Ha Hb. split; [apply toordinal_lt; assumption|].
  intros H.
  assert (N1 : ~ date_lt b a) by (intros L; apply (toordinal_lt b a Hb Ha) in L; lia).
  assert (N2 : ~ (year a = year b /\ month a = month b /\ day a = day b)).
  { intros (E1 & E2 & E3). unfold toordinal in H. rewrite E1, E2, E3 in H. lia. }
  unfold date_lt in *. lia.
Qed.

(** On valid instants the field-wise order is the order of [stamp]. *)
Lemma stamp_lt a b :
  valid a = true -> valid b = true -> (lex_lt a b <-> stamp a < stamp b).
Proof.
  rewrite !valid_spec. intros (Da & Ta & Ua) (Db & Tb & Ub).
  destruct (Z.lt_trichotomy (toordinal a) (toordinal b)) as [L | [E | G]].
  - pose proof (proj2 (toordinal_lt_iff a b Da Db) L) as D.
    unfold stamp, lex_lt, date_lt in *. split; intros; lia.
  - destruct (toordinal_inj a b Da Db E) as (Ey & Em & Ed).
    unfold stamp, lex_lt. rewrite E. lia.
  - pose proof (proj2 (toordinal_lt_iff b a Db Da) G) as D.
    unfold stamp, lex_lt, date_lt in *. split; intros; lia.
Qed.

Lemma stamp_le a b :
  valid a = true -> valid b = true -> (~ lex_lt b a <-> stamp a <= stamp b).
Proof. intros Ha Hb. rewrite (stamp_lt b a Hb Ha). lia. Qed.

Lemma stamp_inj a b :
  valid a = true -> valid b = true -> stamp a = stamp b -> a = b.
Proof.
  intros Ha Hb E. apply le_antisym; apply le_lex.
  - rewrite (stamp_lt b a Hb Ha). lia.
  - rewrite (stamp_lt a b Ha Hb). lia.
Qed.


Lemma shifted_unique dt x y n : shifted dt x n -> shifted dt y n -> x = y.
Proof.
  intros (Vx & Ox & Tx) (Vy & Oy & Ty).
  destruct (toordinal_inj x y Vx Vy ltac:(lia)) as (E1 & E2 & E3).
  apply fields_eq_eq. unfold fields_eq. intuition lia.
Qed.

Lemma add_days_add dt a b :
  valid_day dt -> add_days (add_days dt a) b = add_days dt (a + b).
Proof.
  intros V. pose proof (add_days_shifted dt a V) as (Va & Oa & Ta).
  pose proof (add_days_shifted (add_days dt a) b Va) as (Vb & Ob & Tb).
  apply (shifted_unique dt _ _ (a + b)); [|apply add_days_shifted; assumption].
  unfold shifted. intuition lia.
Qed.

Lemma add_days_valid_day dt n : valid_day dt -> valid_day (add_days dt n).
Proof. intros V. apply (add_days_shifted dt n V). Qed.

Lemma toordinal_add_days dt n :
  valid_day dt -> toordinal (add_days dt n) = toordinal dt + n.
Proof. intros V. apply (add_days_shifted dt n V). Qed.

Lemma day_of_week_range dt : 0 <= day_of_week dt <= 6.
Proof. unfold day_of_week. pose proof (Z.mod_pos_bound (toordinal dt + 6) 7). lia. Qed.

Lemma day_of_week_add_days dt n :
  valid_day dt -> day_of_week (add_days dt n) = (day_of_week dt + n) mod 7.
Proof.
  intros V. unfold day_of_week. rewrite toordinal_add_days by assumption.
  rewrite Zplus_mod_idemp_l. f_equal. lia.
Qed.

(** A shift that stays inside the month only changes the day field. *)
Lemma add_days_in_month dt k :
  valid_day dt -> 1 <= day dt + k <= days_in_month (year dt) (month dt) ->
  add_days dt k =
  mkDateTime (year dt) (month dt) (day dt + k)
             (hour dt) (minute dt) (second dt) (microsecond dt).
Proof.
  intros V Hk. apply (shifted_unique dt _ _ k); [apply add_days_shifted; assumption|].
  destruct V as [Vm Vd]. unfold shifted, valid_day, toordinal, ymd2ord. simpl.
  repeat split; lia.
Qed.

Lemma add_days_valid dt n : valid dt = true -> valid (add_days dt n) = true.
Proof.
  rewrite !valid_spec. intros (D & T & U).
  pose proof (add_days_shifted dt n D) as (V & O & E1 & E2 & E3 & E4).
  rewrite E1, E2, E3, E4. auto.
Qed.

Lemma stamp_add_days dt n :
  valid_day dt -> stamp (add_days dt n) = stamp dt + n * 86400000000.
Proof.
  intros D. pose proof (add_days_shifted dt n D) as (V & O & E1 & E2 & E3 & E4).
  unfold stamp. rewrite O, E1, E2, E3, E4. lia.
Qed.

Lemma add_seconds_spec dt n :
  valid dt = true ->
  valid (add_seconds dt n) = true /\ stamp (add_seconds dt n) = stamp dt + n * 1000000.
Proof.
  intros Hv. pose proof Hv as Hv'. rewrite valid_spec in Hv'. destruct Hv' as (D & T & U).
  unfold add_seconds.
  remember (hour dt * 3600 + minute dt * 60 + second dt + n) as t eqn:Et.
  pose proof (add_days_shifted dt (t / 86400) D) as (V & O & _).
  remember (add_days dt (t / 86400)) as d eqn:Ed. clear Ed.
  split.
  - apply valid_spec. unfold valid_day. simpl.
    split; [exact V|]. split; [|lia].
    clear Et. Z.div_mod_to_equations. lia.
  - unfold stamp, toordinal in *. simpl. rewrite O.
    Z.div_mod_to_equations. lia.
Qed.

Lemma replace_Ok dt h mi s r :
  replace dt h mi s = Ok r ->
  valid_time h mi s = true /\ r = mkDateTime (year dt) (month dt) (day dt) h mi s 0.
Proof.
  unfold replace. destruct (valid_time h mi s); intros E; inversion E; auto.
Qed.

Lemma replace_valid_time dt h mi s :
  valid_time h mi s = true ->
  replace dt h mi s = Ok (mkDateTime (year dt) (month dt) (day dt) h mi s 0).
Proof. unfold replace. intros ->. reflexivity. Qed.

Lemma datetime_Ok y m d h mi s r :
  datetime y m d h mi s = Ok r ->
  valid_date y m d = true /\ valid_time h mi s = true /\ r = mkDateTime y m d h mi s 0.
Proof.
  unfold datetime. destruct (valid_date y m d), (valid_time h mi s);
    intros E; inversion E; auto.
Qed.

Lemma datetime_valid y m d h mi s :
  valid_date y m d = true -> valid_time h mi s = true ->
  datetime y m d h mi s = Ok (mkDateTime y m d h mi s 0).
Proof. unfold datetime. intros -> ->. reflexivity. Qed.

Lemma day_of_week_date a b :
  year a = year b -> month a = month b -> day a = day b ->
  day_of_week a = day_of_week b.
Proof. unfold day_of_week, toordinal. intros -> -> ->. reflexivity. Qed.

(** The last day of a month, as the source computes it. *)
Lemma last_date_of_month_spec y m :
  1 <= m <= 12 ->
  last_date_of_month y m = Ok (mkDateTime y m (days_in_month y m) 0 0 0 0).
Proof.
  intros Hm. unfold last_date_of_month.
  destruct (Z.eqb_spec m 12) as [-> | Hne].
  - simpl. unfold subtract_days, add_days. simpl.
    replace (y + 1 - 1) with y by lia. reflexivity.
  - rewrite datetime_valid; [|apply valid_date_spec; simpl;
      pose proof (days_in_month_bounds y (m + 1)); lia | reflexivity].
    simpl. f_equal. unfold subtract_days, add_days. simpl.
    destruct (Z.ltb_spec 1 (m + 1)); [|lia].
    replace (m + 1 - 1) with m by lia. reflexivity.
Qed.

End Calendar.

(** ** The day scans *)

Section Scans.

Variable hit : Z -> bool.

(** A scan only ever stops on a day that satisfies [hit]. *)
Lemma scan_forward_hit fuel n dt count r :
  scan_forward fuel hit n dt count = Ok r -> hit (day_of_week r) = true.
Proof.
  revert dt count. induction fuel as [|fuel IH]; intros dt count; simpl; [discriminate|].
  destruct (hit (day_of_week dt)) eqn:Hh.
  - destruct (count + 1 =? n); [intros E; inversion E; subst; exact Hh | apply IH].
  - apply IH.
Qed.

Lemma scan_backward_hit fuel n dt count r :
  scan_backward fuel hit n dt count = Ok r -> hit (day_of_week r) = true.
Proof.
  revert dt count. induction fuel as [|fuel IH]; intros dt count;
    cbn [scan_backward]; [discriminate|].
  destruct (hit (day_of_week dt)) eqn:Hh.
  - destruct (n =? count); [intros E; inversion E; subst; exact Hh|].
    destruct (subtract_day dt) as [d| |]; [rewrite bind_Ok; apply IH | discriminate..].
  - destruct (subtract_day dt) as [d| |]; [rewrite bind_Ok; apply IH | discriminate..].
Qed.

(** A scan never raises. *)
Lemma scan_forward_no_raise fuel n dt count e :
  scan_forward fuel hit n dt count <> Raise e.
Proof.
  revert dt count. induction fuel as [|fuel IH]; intros dt count; simpl; [discriminate|].
  destruct (hit (day_of_week dt)); [destruct (count + 1 =? n); [discriminate|]|]; apply IH.
Qed.

(** Away from the first day of the calendar the step back is a plain
    subtraction of one day. *)
Lemma subtract_day_Ok dt :
  is_min_date dt = false -> subtract_day dt = Ok (add_days dt (-1)).
Proof. unfold subtract_day. intros ->. reflexivity. Qed.

Lemma is_min_date_day dt : 2 <= day dt -> is_min_date dt = false.
Proof.
  intros H. unfold is_min_date. destruct (Z.eqb_spec (day dt) 1); [lia|].
  rewrite andb_false_r. reflexivity.
Qed.

Lemma is_min_date_toordinal dt :
  valid_day dt -> (is_min_date dt = true <-> toordinal dt = 1).
Proof.
  intros V. unfold is_min_date. rewrite !andb_true_iff, !Z.eqb_eq. split.
  - intros [[Ey Em] Ed]. unfold toordinal. rewrite Ey, Em, Ed. reflexivity.
  - intros E.
    assert (Vm : valid_day (mkDateTime 1 1 1 0 0 0 0)) by (unfold valid_day; cbn; lia).
    destruct (toordinal_inj dt (mkDateTime 1 1 1 0 0 0 0) V Vm) as (Ey & Em & Ed);
      [rewrite E; reflexivity|].
    cbn in Ey, Em, Ed. auto.
Qed.

(** The backward scan from a count below [n] has no exit; it walks
    back one day per iteration until it stands on the first day of the
    calendar, where the step back raises: after as many iterations as the
    ordinal of the day it starts on, and not before. *)
Lemma scan_backward_overflows fuel n dt count :
  count < n -> valid_day dt -> 1 <= toordinal dt -> toordinal dt <= Z.of_nat fuel ->
  scan_backward fuel hit n dt count = Raise OverflowError.
Proof.
  revert dt count. induction fuel as [|fuel IH]; intros dt count Hc V L F; [lia|].
  cbn [scan_backward].
  assert (Step : forall c, c < n ->
            subtract_day dt ≫= (fun d => scan_backward fuel hit n d c)
            = Raise OverflowError).
  { intros c Hlt. destruct (is_min_date dt) eqn:M.
    - unfold subtract_day. rewrite M. reflexivity.
    - rewrite subtract_day_Ok by exact M. rewrite bind_Ok.
      assert (toordinal dt <> 1)
        by (intros E; apply (is_min_date_toordinal dt V) in E; congruence).
      pose proof (toordinal_add_days dt (-1) V).
      apply IH; [exact Hlt | apply add_days_valid_day; exact V | lia | lia]. }
  destruct (hit (day_of_week dt)).
  - destruct (Z.eqb_spec n count); [lia|]. apply Step. lia.
  - apply Step. exact Hc.
Qed.

Lemma scan_backward_still_running fuel n dt count :
  count < n -> valid_day dt -> Z.of_nat fuel < toordinal dt ->
  scan_backward fuel hit n dt count = OutOfFuel.
Proof.
  revert dt count. induction fuel as [|fuel IH]; intros dt count Hc V F; [reflexivity|].
  cbn [scan_backward].
  assert (Step : forall c, c < n ->
            subtract_day dt ≫= (fun d => scan_backward fuel hit n d c) = OutOfFuel).
  { intros c Hlt. destruct (is_min_date dt) eqn:M.
    - apply (is_min_date_toordinal dt V) in M. lia.
    - rewrite subtract_day_Ok by exact M. rewrite bind_Ok.
      pose proof (toordinal_add_days dt (-1) V).
      apply IH; [exact Hlt | apply add_days_valid_day; exact V | lia]. }
  destruct (hit (day_of_week dt)).
  - destruct (Z.eqb_spec n count); [lia|]. apply Step. lia.
  - apply Step. exact Hc.
Qed.

(** The scans on dates follow the scans on weekdays. *)
Lemma scan_forward_rel fuel n dt count k :
  valid_day dt ->
  rel_forward fuel hit n (day_of_week dt) count = Some k ->
  0 <= k /\ scan_forward fuel hit n dt count = Ok (add_days dt k).
Proof.
  revert dt count k. induction fuel as [|fuel IH]; intros dt count k V; simpl;
    [discriminate|].
  assert (Hstep : forall c k',
    rel_forward fuel hit n ((day_of_week dt + 1) mod 7) c = Some k' ->
    0 <= Z.succ k' /\
    scan_forward fuel hit n (add_days dt 1) c = Ok (add_days dt (Z.succ k'))).
  { intros c k' E. rewrite <- day_of_week_add_days in E by assumption.
    apply IH in E as [Hk E]; [|apply add_days_valid_day; assumption].
    rewrite add_days_add in E by assumption.
    replace (1 + k') with (Z.succ k') in E by lia. split; [lia | exact E]. }
  destruct (hit (day_of_week dt)).
  - destruct (count + 1 =? n).
    + intros E. inversion E. split; [lia | reflexivity].
    + destruct (rel_forward fuel hit n _ (count + 1)) as [k'|] eqn:E; [|discriminate].
      intros E'. inversion E'. subst k. apply Hstep. exact E.
  - destruct (rel_forward fuel hit n _ count) as [k'|] eqn:E; [|discriminate].
    intros E'. inversion E'. subst k. apply Hstep. exact E.
Qed.

Lemma rel_backward_nonneg fuel n w count k :
  rel_backward fuel hit n w count = Some k -> 0 <= k.
Proof.
  revert w count k. induction fuel as [|fuel IH]; intros w count k;
    cbn [rel_backward]; [discriminate|].
  destruct (hit w); [destruct (n =? count); [intros E; inversion E; lia|]|];
    (destruct (rel_backward fuel hit n _ _) as [k'|] eqn:E; [|discriminate];
     intros E'; inversion E'; apply IH in E; lia).
Qed.

(** A backward scan that stops before the first day of the month it
    starts in never steps back from the first day of the calendar. *)
Lemma scan_backward_rel fuel n dt count k :
  valid_day dt ->
  rel_backward fuel hit n (day_of_week dt) count = Some k -> k < day dt ->
  0 <= k /\ scan_backward fuel hit n dt count = Ok (add_days dt (- k)).
Proof.
  revert dt count k. induction fuel as [|fuel IH]; intros dt count k V;
    cbn [rel_backward scan_backward]; [discriminate|].
  assert (Hstep : forall c k',
    rel_backward fuel hit n ((day_of_week dt - 1) mod 7) c = Some k' ->
    Z.succ k' < day dt ->
    0 <= Z.succ k' /\
    subtract_day dt ≫= (fun d => scan_backward fuel hit n d c)
    = Ok (add_days dt (- Z.succ k'))).
  { intros c k' E D.
    replace (day_of_week dt - 1) with (day_of_week dt + - (1)) in E by lia.
    rewrite <- day_of_week_add_days in E by assumption.
    assert (P : 0 <= k' -> add_days dt (-1)
                = mkDateTime (year dt) (month dt) (day dt + -1)
                             (hour dt) (minute dt) (second dt) (microsecond dt)).
    { intros Hk'. apply add_days_in_month; [exact V|]. destruct V as [_ Vd]. lia. }
    specialize (P (rel_backward_nonneg _ _ _ _ _ E)).
    change (- (1)) with (-1) in E.
    apply IH in E as [Hk E];
      [|apply add_days_valid_day; assumption | rewrite P; cbn; lia].
    rewrite add_days_add in E by assumption.
    replace (-1 + - k') with (- Z.succ k') in E by lia.
    rewrite subtract_day_Ok by (apply is_min_date_day; lia).
    rewrite bind_Ok. split; [lia | exact E]. }
  destruct (hit (day_of_week dt)).
  - destruct (n =? count).
    + intros E _. inversion E. split; [lia | reflexivity].
    + destruct (rel_backward fuel hit n _ (count - 1)) as [k'|] eqn:E; [|discriminate].
      intros E' D. inversion E'. subst k. apply Hstep; assumption.
  - destruct (rel_backward fuel hit n _ count) as [k'|] eqn:E; [|discriminate].
    intros E' D. inversion E'. subst k. apply Hstep; assumption.
Qed.

(** More fuel does not change a result. *)
Lemma rel_forward_mono fuel fuel' n w count k :
  (fuel <= fuel')%nat ->
  rel_forward fuel hit n w count = Some k -> rel_forward fuel' hit n w count = Some k.
Proof.
  revert fuel' w count k. induction fuel as [|fuel IH]; intros fuel' w count k Hf;
    simpl; [discriminate|].
  destruct fuel' as [|fuel']; [lia|]. simpl.
  destruct (hit w); [destruct (count + 1 =? n); [auto|]|].
  - destruct (rel_forward fuel hit n _ _) as [k'|] eqn:E; [|discriminate].
    intros E'. rewrite (IH fuel' _ _ k'); [exact E' | lia | exact E].
  - destruct (rel_forward fuel hit n _ _) as [k'|] eqn:E; [|discriminate].
    intros E'. rewrite (IH fuel' _ _ k'); [exact E' | lia | exact E].
Qed.

Lemma rel_backward_mono fuel fuel' n w count k :
  (fuel <= fuel')%nat ->
  rel_backward fuel hit n w count = Some k -> rel_backward fuel' hit n w count = Some k.
Proof.
  revert fuel' w count k. induction fuel as [|fuel IH]; intros fuel' w count k Hf;
    simpl; [discriminate|].
  destruct fuel' as [|fuel']; [lia|]. simpl.
  destruct (hit w); [destruct (n =? count); [auto|]|].
  - destruct (rel_backward fuel hit n _ _) as [k'|] eqn:E; [|discriminate].
    intros E'. rewrite (IH fuel' _ _ k'); [exact E' | lia | exact E].
  - destruct (rel_backward fuel hit n _ _) as [k'|] eqn:E; [|discriminate].
    intros E'. rewrite (IH fuel' _ _ k'); [exact E' | lia | exact E].
Qed.

Lemma weekdays_In w : 0 <= w <= 6 -> In w weekdays.
Proof.
  intros H. assert (C : w = 0 \/ w = 1 \/ w = 2 \/ w = 3 \/ w = 4 \/ w = 5 \/ w = 6) by lia.
  unfold weekdays. simpl. intuition auto.
Qed.

Lemma seqZ_In n n_max : 1 <= n <= n_max -> In n (seqZ 1 n_max).
Proof. intros H. apply list_elem_of_In, elem_of_seqZ. lia. Qed.

Lemma within_27_Some r : within_27 r = true -> exists k, r = Some k /\ k <= 27.
Proof.
  destruct r as [k|]; simpl; [|discriminate].
  intros H. exists k. split; [reflexivity | lia].
Qed.

Lemma forward_check_sound n_max fuel n dt :
  forward_check hit n_max = true ->
  valid_day dt -> (28 <= fuel)%nat -> 1 <= n <= n_max ->
  exists k, 0 <= k <= 27 /\ scan_forward fuel hit n dt 0 = Ok (add_days dt k).
Proof.
  intros C V Hf Hn. unfold forward_check in C.
  rewrite forallb_forall in C.
  specialize (C _ (weekdays_In _ (day_of_week_range dt))).
  rewrite forallb_forall in C. specialize (C _ (seqZ_In n n_max Hn)).
  apply within_27_Some in C as (k & E & Hk27).
  apply (rel_forward_mono 28 fuel) in E; [|exact Hf].
  apply scan_forward_rel in E as [Hk E]; [|exact V].
  exists k. split; [lia | exact E].
Qed.

Lemma backward_check_sound n_max fuel n dt :
  backward_check hit n_max = true ->
  valid_day dt -> 28 <= day dt -> (28 <= fuel)%nat -> - n_max <= n <= -1 ->
  exists k, 0 <= k <= 27 /\ scan_backward fuel hit n dt (-1) = Ok (add_days dt (- k)).
Proof.
  intros C V D Hf Hn. unfold backward_check in C.
  rewrite forallb_forall in C.
  specialize (C _ (weekdays_In _ (day_of_week_range dt))).
  rewrite forallb_forall in C. specialize (C _ (seqZ_In (- n) n_max ltac:(lia))).
  replace (- - n) with n in C by lia.
  apply within_27_Some in C as (k & E & Hk27).
  apply (rel_backward_mono 28 fuel) in E; [|exact Hf].
  apply scan_backward_rel in E as [Hk E]; [|exact V | lia].
  exists k. split; [lia | exact E].
Qed.

End Scans.

Lemma weekday_forward_check wd : 0 <= wd <= 6 -> forward_check (is_weekday wd) 4 = true.
Proof.
  intros H. assert (C : wd = 0 \/ wd = 1 \/ wd = 2 \/ wd = 3 \/ wd = 4 \/ wd = 5 \/ wd = 6) by lia.
  repeat (destruct C as [-> | C]; [vm_compute; reflexivity|]). subst. vm_compute. reflexivity.
Qed.

Lemma weekday_backward_check wd : 0 <= wd <= 6 -> backward_check (is_weekday wd) 4 = true.
Proof.
  intros H. assert (C : wd = 0 \/ wd = 1 \/ wd = 2 \/ wd = 3 \/ wd = 4 \/ wd = 5 \/ wd = 6) by lia.
  repeat (destruct C as [-> | C]; [vm_compute; reflexivity|]). subst. vm_compute. reflexivity.
Qed.

Lemma business_forward_check : forward_check is_business_day 20 = true.
Proof. vm_compute. reflexivity. Qed.

Lemma business_backward_check : backward_check is_business_day 20 = true.
Proof. vm_compute. reflexivity. Qed.

(** ** The period search *)

Section PeriodSearch.

Context {St : Type}.
Variables (occ : St -> result DateTime) (step : St -> St).
Variables (f : St -> DateTime) (ok : St -> Prop) (key : St -> Z).

Hypothesis occ_f : forall s, ok s -> occ s = Ok (f s).
Hypothesis step_ok : forall s, ok s -> ok (step s).
Hypothesis key_step : forall s, ok s -> key (step s) = key s + 1.
Hypothesis f_mono : forall a b, ok a -> ok b -> key a <= key b -> le (f a) (f b).

(** When the occurrence of the next period is not before [after], the
    search stops in at most two passes. *)
Lemma search_from_two fuel after s :
  ok s -> (2 <= fuel)%nat -> le after (f (step s)) ->
  search_from fuel occ step after s =
  Ok (if leb after (f s) then f s else f (step s)).
Proof.
  intros Hs Hf Hle. destruct fuel as [|[|fuel]]; [lia | lia |].
  simpl. rewrite (occ_f s Hs). simpl.
  destruct (leb after (f s)); [reflexivity|].
  rewrite (occ_f (step s) (step_ok s Hs)). simpl.
  apply le_lex, leb_le in Hle. rewrite Hle. reflexivity.
Qed.

Lemma search_from_Ok fuel after s r :
  ok s -> le after (f (step s)) ->
  search_from fuel occ step after s = Ok r ->
  r = (if leb after (f s) then f s else f (step s)).
Proof.
  intros Hs Hle. destruct fuel as [|[|fuel]].
  - discriminate.
  - simpl. rewrite (occ_f s Hs). simpl. destruct (leb after (f s)); [|discriminate].
    intros E; inversion E; reflexivity.
  - rewrite (search_from_two (S (S fuel)) after s Hs ltac:(lia) Hle).
    intros E; inversion E; reflexivity.
Qed.

Lemma search_from_le fuel after s r :
  ok s -> le after (f (step s)) ->
  search_from fuel occ step after s = Ok r -> le after r.
Proof.
  intros Hs Hle E. apply search_from_Ok in E; [|assumption..]. subst r.
  destruct (leb after (f s)) eqn:L; [|exact Hle].
  apply le_lex, leb_le. exact L.
Qed.

Lemma search_from_mono fuel1 fuel2 t1 t2 s1 s2 r1 r2 :
  ok s1 -> ok s2 -> key s1 <= key s2 -> le t1 t2 ->
  le t1 (f (step s1)) -> le t2 (f (step s2)) ->
  search_from fuel1 occ step t1 s1 = Ok r1 ->
  search_from fuel2 occ step t2 s2 = Ok r2 ->
  le r1 r2.
Proof.
  intros O1 O2 K T L1 L2 E1 E2.
  apply search_from_Ok in E1; [|assumption..].
  apply search_from_Ok in E2; [|assumption..]. subst r1 r2.
  pose proof (f_mono s1 s2 O1 O2 K) as M12.
  pose proof (f_mono s2 (step s2) O2 (step_ok _ O2)
                ltac:(rewrite key_step by assumption; lia)) as M22.
  pose proof (f_mono (step s1) (step s2) (step_ok _ O1) (step_ok _ O2)
                ltac:(rewrite !key_step by assumption; lia)) as Mss.
  destruct (leb t1 (f s1)) eqn:B1, (leb t2 (f s2)) eqn:B2.
  - exact M12.
  - eapply le_trans; eassumption.
  - destruct (Z_le_gt_dec (key s2) (key s1)) as [Kle | Kgt].
    + pose proof (f_mono s2 s1 O2 O1 Kle) as M21.
      apply leb_gt, lt_lex in B1. apply leb_le, le_lex in B2.
      exfalso. apply (proj1 (lt_not_le _ _) B1).
      eapply le_trans; [exact T|]. eapply le_trans; eassumption.
    + apply f_mono; [apply step_ok; assumption | assumption |].
      rewrite key_step by assumption. lia.
  - exact Mss.
Qed.

End PeriodSearch.

(** Searches month by month whose occurrence lies in its own month. *)
Section MonthSearch.

Variables (occ : Z * Z -> result DateTime) (h mi s : Z).
Hypothesis occ_in_month :
  forall y m, 1 <= m <= 12 -> in_month_at y m h mi s (occ (y, m)).

Let f (p : Z * Z) : DateTime := value_of (occ p).

Lemma month_occ_f p : valid_month p -> occ p = Ok (f p).
Proof.
  destruct p as [y m]. intros V. destruct (occ_in_month y m V) as (d & Hd & E).
  unfold f. rewrite E. reflexivity.
Qed.

Lemma month_f_fields p :
  valid_month p ->
  exists d, 1 <= d <= days_in_month p.1 p.2 /\ f p = mkDateTime p.1 p.2 d h mi s 0.
Proof.
  destruct p as [y m]. intros V. destruct (occ_in_month y m V) as (d & Hd & E).
  exists d. unfold f. rewrite E. auto.
Qed.

Lemma next_month_valid p : valid_month p -> valid_month (next_month p).
Proof.
  destruct p as [y m]. unfold valid_month, next_month. simpl.
  destruct (Z.eqb_spec m 12); simpl; lia.
Qed.

Lemma prev_month_valid p : valid_month p -> valid_month (prev_month p).
Proof.
  destruct p as [y m]. unfold valid_month, prev_month. simpl.
  destruct (Z.eqb_spec m 1); simpl; lia.
Qed.

Lemma month_key_next p : valid_month p -> month_key (next_month p) = month_key p + 1.
Proof.
  destruct p as [y m]. unfold valid_month, next_month, month_key. simpl.
  destruct (Z.eqb_spec m 12); simpl; lia.
Qed.

Lemma month_key_prev p : valid_month p -> month_key (prev_month p) = month_key p - 1.
Proof.
  destruct p as [y m]. unfold valid_month, prev_month, month_key. simpl.
  destruct (Z.eqb_spec m 1); simpl; lia.
Qed.

Lemma month_f_mono a b :
  valid_month a -> valid_month b -> month_key a <= month_key b -> le (f a) (f b).
Proof.
  intros Va Vb K.
  destruct (Z.eq_dec (month_key a) (month_key b)) as [E | N].
  - assert (a = b) as ->; [|apply le_refl].
    destruct a, b. unfold month_key, valid_month in *. simpl in *. f_equal; lia.
  - destruct (month_f_fields a Va) as (da & _ & ->).
    destruct (month_f_fields b Vb) as (db & _ & ->).
    destruct a, b. unfold month_key, valid_month in *. simpl in *. order_lia.
Qed.

Lemma month_after_next t :
  valid t = true -> le t (f (next_month (year t, month t))).
Proof.
  intros V. apply valid_spec in V as ((Vm & Vd) & _).
  assert (Vp : valid_month (year t, month t)) by exact Vm.
  destruct (month_f_fields _ (next_month_valid _ Vp)) as (d & _ & ->).
  unfold next_month. destruct (Z.eqb_spec (month t) 12); simpl; order_lia.
Qed.

Lemma month_search_total fuel t :
  valid t = true -> (2 <= fuel)%nat ->
  exists r, search_from fuel occ next_month t (year t, month t) = Ok r /\ le t r.
Proof.
  intros V Hf. pose proof V as V'. apply valid_spec in V' as ((Vm & _) & _).
  eexists. split.
  - apply (search_from_two occ next_month f valid_month month_occ_f next_month_valid);
      [exact Vm | exact Hf | apply month_after_next; exact V].
  - simpl. destruct (leb t (f (year t, month t))) eqn:B.
    + apply le_lex, leb_le. exact B.
    + apply month_after_next; exact V.
Qed.

Lemma month_search_le fuel t r :
  valid t = true ->
  search_from fuel occ next_month t (year t, month t) = Ok r -> le t r.
Proof.
  intros V E. pose proof V as V'. apply valid_spec in V' as ((Vm & _) & _).
  apply (search_from_le occ next_month f valid_month month_occ_f next_month_valid)
    in E; [exact E | exact Vm | apply month_after_next; exact V].
Qed.

Lemma month_search_mono fuel1 fuel2 t1 t2 r1 r2 :
  valid t1 = true -> valid t2 = true -> le t1 t2 ->
  search_from fuel1 occ next_month t1 (year t1, month t1) = Ok r1 ->
  search_from fuel2 occ next_month t2 (year t2, month t2) = Ok r2 ->
  le r1 r2.
Proof.
  intros V1 V2 T E1 E2.
  pose proof V1 as V1'. apply valid_spec in V1' as ((Vm1 & _) & _).
  pose proof V2 as V2'. apply valid_spec in V2' as ((Vm2 & _) & _).
  apply (search_from_mono occ next_month f valid_month month_key
           month_occ_f next_month_valid month_key_next month_f_mono
           fuel1 fuel2 t1 t2 (year t1, month t1) (year t2, month t2) r1 r2);
    try assumption.
  - unfold month_key. simpl. order_lia.
  - apply month_after_next; assumption.
  - apply month_after_next; assumption.
Qed.

(** The manual-interval pattern of the monthly classes: this month's
    occurrence, or the previous month's when this month's is still ahead. *)
Lemma month_manual t :
  valid t = true ->
  exists r, le r t /\
    forall (B : Type) (k : DateTime -> result B),
      (occ (year t, month t) ≫= fun d =>
         (if ltb t d then
            let (y, m) := prev_month (year t, month t) in occ (y, m)
          else Ok d) ≫= k) = k r.
Proof.
  intros V. pose proof V as V'. apply valid_spec in V' as ((Vm & _) & _).
  assert (Vp : valid_month (year t, month t)) by exact Vm.
  rewrite (month_occ_f _ Vp). unfold mbind, result_bind.
  destruct (ltb t (f (year t, month t))) eqn:B.
  - pose proof (prev_month_valid _ Vp) as Vq.
    destruct (prev_month (year t, month t)) as [y m] eqn:Ep.
    exists (f (y, m)). split.
    + destruct (month_f_fields _ Vq) as (d & _ & ->). simpl.
      unfold prev_month in Ep. destruct (Z.eqb_spec (month t) 1); inversion Ep; subst;
        order_lia.
    + intros B' k. rewrite (month_occ_f _ Vq). reflexivity.
  - exists (f (year t, month t)). split; [|reflexivity].
    apply le_lex. apply ltb_nlt in B. exact B.
Qed.

End MonthSearch.

(** ** The occurrence of a month, class by class *)

Lemma MonthlyLastDay_in_month (self : MonthlyLastDay.t) y m :
  valid_time (MonthlyLastDay.hour self) (MonthlyLastDay.minute self)
             (MonthlyLastDay.second self) = true ->
  1 <= m <= 12 ->
  in_month_at y m (MonthlyLastDay.hour self) (MonthlyLastDay.minute self)
              (MonthlyLastDay.second self) (MonthlyLastDay._get_last_day self y m).
Proof.
  intros Ht Hm. unfold MonthlyLastDay._get_last_day.
  rewrite last_date_of_month_spec by assumption. simpl.
  rewrite replace_valid_time by assumption. simpl.
  exists (days_in_month y m). pose proof (days_in_month_bounds y m). split; [lia | reflexivity].
Qed.

Lemma first_of_next_month_day y m :
  1 <= m <= 12 ->
  (if m <? 12 then datetime y (m + 1) 1 0 0 0 else datetime (y + 1) 1 1 0 0 0)
  ≫= (fun first => Ok (day (subtract_days first 1)))
  = Ok (days_in_month y m).
Proof.
  intros Hm. pose proof (last_date_of_month_spec y m Hm) as E.
  unfold last_date_of_month in E.
  destruct (Z.ltb_spec m 12), (Z.eqb_spec m 12); try lia.
  - destruct (datetime y (m + 1) 1 0 0 0); simpl in *; inversion E as [E'];
      rewrite E'; reflexivity.
  - destruct (datetime (y + 1) 1 1 0 0 0); simpl in *; inversion E as [E'];
      rewrite E'; reflexivity.
Qed.

Lemma MonthlyOnDay_in_month (self : MonthlyOnDay.t) y m :
  valid_time (MonthlyOnDay.hour self) (MonthlyOnDay.minute self)
             (MonthlyOnDay.second self) = true ->
  1 <= MonthlyOnDay.day self ->
  1 <= m <= 12 ->
  in_month_at y m (MonthlyOnDay.hour self) (MonthlyOnDay.minute self)
              (MonthlyOnDay.second self) (MonthlyOnDay._get_run_date self y m).
Proof.
  intros Ht Hd Hm. unfold MonthlyOnDay._get_run_date.
  pose proof (first_of_next_month_day y m Hm) as E.
  destruct (if m <? 12 then datetime y (m + 1) 1 0 0 0 else datetime (y + 1) 1 1 0 0 0)
    as [first| |]; simpl in E; try discriminate.
  inversion E as [E']. simpl. rewrite E'.
  pose proof (days_in_month_bounds y m).
  exists (Z.min (MonthlyOnDay.day self) (days_in_month y m)). split; [lia|].
  apply datetime_valid; [|assumption]. apply valid_date_spec. lia.
Qed.

(** The shared shape of the three ordinal scans: the [n]-th hit counted
    from the first day, or from the last day, of a month. *)
Lemma nth_in_month hit n_max fuel n y m h mi s :
  forward_check hit n_max = true -> backward_check hit n_max = true ->
  valid_time h mi s = true -> (28 <= fuel)%nat ->
  1 <= n <= n_max \/ - n_max <= n <= -1 ->
  1 <= m <= 12 ->
  in_month_at y m h mi s
    ((if 0 <? n then
        datetime y m 1 0 0 0 ≫= fun dt => scan_forward fuel hit n dt 0
      else
        last_date_of_month y m ≫= fun dt => scan_backward fuel hit n dt (-1))
     ≫= fun dt => replace dt h mi s).
Proof.
  intros CF CB Ht Hf Hn Hm. pose proof (days_in_month_bounds y m) as Hb.
  destruct (Z.ltb_spec 0 n).
  - rewrite datetime_valid; [|apply valid_date_spec; lia | reflexivity]. simpl.
    destruct (forward_check_sound hit n_max fuel n (mkDateTime y m 1 0 0 0 0) CF)
      as (k & Hk & E); [split; simpl; lia | exact Hf | lia |].
    rewrite E. simpl. rewrite add_days_in_month by (try split; simpl; lia). simpl.
    rewrite replace_valid_time by assumption. simpl.
    exists (1 + k). split; [lia | reflexivity].
  - rewrite last_date_of_month_spec by assumption. simpl.
    destruct (backward_check_sound hit n_max fuel n
                (mkDateTime y m (days_in_month y m) 0 0 0 0) CB)
      as (k & Hk & E); [split; simpl; lia | simpl; lia | exact Hf | lia |].
    rewrite E. simpl. rewrite add_days_in_month by (try split; simpl; lia). simpl.
    rewrite replace_valid_time by assumption. simpl.
    exists (days_in_month y m + - k). split; [lia | reflexivity].
Qed.

Lemma bind_assoc {A B C} (r : result A) (k1 : A -> result B) (k2 : B -> result C) :
  (r ≫= k1) ≫= k2 = r ≫= (fun a => k1 a ≫= k2).
Proof. destruct r; reflexivity. Qed.

Lemma if_bind {A B} (c : bool) (r1 r2 : result A) (k : A -> result B) :
  (if c then r1 else r2) ≫= k = if c then r1 ≫= k else r2 ≫= k.
Proof. destruct c; reflexivity. Qed.

Lemma MonthlyWeekdayOccurrence_in_month (self : MonthlyWeekdayOccurrence.t) fuel y m :
  valid_time (MonthlyWeekdayOccurrence.hour self) (MonthlyWeekdayOccurrence.minute self)
             (MonthlyWeekdayOccurrence.second self) = true ->
  0 <= MonthlyWeekdayOccurrence.weekday self <= 6 ->
  1 <= MonthlyWeekdayOccurrence.n self <= 4 \/ -4 <= MonthlyWeekdayOccurrence.n self <= -1 ->
  (28 <= fuel)%nat -> 1 <= m <= 12 ->
  in_month_at y m (MonthlyWeekdayOccurrence.hour self) (MonthlyWeekdayOccurrence.minute self)
              (MonthlyWeekdayOccurrence.second self)
              (MonthlyWeekdayOccurrence._get_nth_weekday fuel self y m).
Proof.
  intros Ht Hw Hn Hf Hm.
  pose proof (nth_in_month (is_weekday (MonthlyWeekdayOccurrence.weekday self)) 4 fuel
                (MonthlyWeekdayOccurrence.n self) y m _ _ _
                (weekday_forward_check _ Hw) (weekday_backward_check _ Hw) Ht Hf Hn Hm) as H.
  unfold MonthlyWeekdayOccurrence._get_nth_weekday.
  rewrite if_bind, !bind_assoc in H. exact H.
Qed.

Lemma BusinessDayOfMonth_in_month (self : BusinessDayOfMonth.t) fuel y m :
  valid_time (BusinessDayOfMonth.hour self) (BusinessDayOfMonth.minute self)
             (BusinessDayOfMonth.second self) = true ->
  1 <= BusinessDayOfMonth.n self <= 20 \/ -20 <= BusinessDayOfMonth.n self <= -1 ->
  (28 <= fuel)%nat -> 1 <= m <= 12 ->
  in_month_at y m (BusinessDayOfMonth.hour self) (BusinessDayOfMonth.minute self)
              (BusinessDayOfMonth.second self)
              (BusinessDayOfMonth._get_nth_business_day fuel self y m).
Proof.
  intros Ht Hn Hf Hm.
  exact (nth_in_month is_business_day 20 fuel (BusinessDayOfMonth.n self) y m _ _ _
           business_forward_check business_backward_check Ht Hf Hn Hm).
Qed.

Lemma YearlyWeekdayOccurrence_in_month (self : YearlyWeekdayOccurrence.t) fuel y :
  valid_time (YearlyWeekdayOccurrence.hour self) (YearlyWeekdayOccurrence.minute self)
             (YearlyWeekdayOccurrence.second self) = true ->
  0 <= YearlyWeekdayOccurrence.weekday self <= 6 ->
  1 <= YearlyWeekdayOccurrence.n self <= 4 \/ -4 <= YearlyWeekdayOccurrence.n self <= -1 ->
  1 <= YearlyWeekdayOccurrence.month self <= 12 ->
  (28 <= fuel)%nat ->
  in_month_at y (YearlyWeekdayOccurrence.month self)
              (YearlyWeekdayOccurrence.hour self) (YearlyWeekdayOccurrence.minute self)
              (YearlyWeekdayOccurrence.second self)
              (YearlyWeekdayOccurrence._get_nth_weekday fuel self y).
Proof.
  intros Ht Hw Hn Hm Hf.
  pose proof (nth_in_month (is_weekday (YearlyWeekdayOccurrence.weekday self)) 4 fuel
                (YearlyWeekdayOccurrence.n self) y (YearlyWeekdayOccurrence.month self) _ _ _
                (weekday_forward_check _ Hw) (weekday_backward_check _ Hw) Ht Hf Hn Hm) as H.
  unfold YearlyWeekdayOccurrence._get_nth_weekday.
  rewrite if_bind, !bind_assoc in H. exact H.
Qed.

(** The walk back over a weekend takes at most two steps. *)
Lemma skip_weekend_spec fuel dt :
  valid_day dt -> (3 <= fuel)%nat ->
  exists k, 0 <= k <= 2 /\
    MonthlyLastDayExceptWeekend.skip_weekend fuel dt = Ok (add_days dt (- k)).
Proof.
  intros V Hf. destruct fuel as [|[|[|fuel]]]; try lia.
  pose proof (day_of_week_range dt) as R.
  pose proof (day_of_week_add_days dt (-1) V) as D1.
  pose proof (day_of_week_add_days dt (-2) V) as D2.
  pose proof (add_days_add dt (-1) (-1) V) as A. change (-1 + -1) with (-2) in A.
  cbn [MonthlyLastDayExceptWeekend.skip_weekend]. unfold subtract_days.
  destruct (Z.ltb_spec 4 (day_of_week dt)) as [L0|];
    [|exists 0; split; [lia | reflexivity]].
  change (- (1)) with (-1).
  destruct (Z.ltb_spec 4 (day_of_week (add_days dt (-1)))) as [L1|];
    [|exists 1; split; [lia | reflexivity]].
  rewrite A.
  destruct (Z.ltb_spec 4 (day_of_week (add_days dt (-2)))) as [L2|];
    [|exists 2; split; [lia | reflexivity]].
  exfalso. rewrite D1 in L1. rewrite D2 in L2.
  assert (C : day_of_week dt = 5 \/ day_of_week dt = 6) by lia.
  destruct C as [C | C]; rewrite C in L1, L2; Z.div_mod_to_equations; lia.
Qed.

Lemma MonthlyLastDayExceptWeekend_in_month (self : MonthlyLastDayExceptWeekend.t) fuel y m :
  valid_time (MonthlyLastDayExceptWeekend.hour self)
             (MonthlyLastDayExceptWeekend.minute self)
             (MonthlyLastDayExceptWeekend.second self) = true ->
  (3 <= fuel)%nat -> 1 <= m <= 12 ->
  in_month_at y m (MonthlyLastDayExceptWeekend.hour self)
              (MonthlyLastDayExceptWeekend.minute self)
              (MonthlyLastDayExceptWeekend.second self)
              (MonthlyLastDayExceptWeekend._get_last_day fuel self y m).
Proof.
  intros Ht Hf Hm. pose proof (days_in_month_bounds y m) as Hb.
  unfold MonthlyLastDayExceptWeekend._get_last_day.
  rewrite last_date_of_month_spec by assumption. simpl.
  destruct (skip_weekend_spec fuel (mkDateTime y m (days_in_month y m) 0 0 0 0))
    as (k & Hk & E); [split; simpl; lia | exact Hf |].
  rewrite E. simpl. rewrite add_days_in_month by (try split; simpl; lia). simpl.
  rewrite replace_valid_time by assumption. simpl.
  exists (days_in_month y m + - k). split; [lia | reflexivity].
Qed.

(** ** Reading the well-formedness flags *)

Lemma ordinal_within_spec n b :
  ordinal_within n b = true <-> (1 <= n <= b \/ - b <= n <= -1).
Proof.
  unfold ordinal_within. rewrite orb_true_iff, !andb_true_iff, !Z.leb_le. tauto.
Qed.

Lemma weekday_in_range_spec w : weekday_in_range w = true <-> 0 <= w <= 6.
Proof. unfold weekday_in_range. rewrite andb_true_iff, !Z.leb_le. tauto. Qed.

Ltac wf_split H :=
  simpl in H;
  repeat match type of H with
         | _ && _ = true => let H' := fresh "W" in apply andb_true_iff in H as [H H']
         end;
  repeat match goal with
         | W : ordinal_within _ _ = true |- _ => apply ordinal_within_spec in W
         | W : weekday_in_range _ = true |- _ => apply weekday_in_range_spec in W
         | W : (_ <=? _) = true |- _ => apply Z.leb_le in W
         end.

(** ** The classes that search month by month *)

Lemma MonthlyLastDay_locate fuel self t :
  well_formed (TMonthlyLastDay self) = true -> valid t = true -> (28 <= fuel)%nat ->
  exists r, MonthlyLastDay.locate_next fuel self t = Ok r /\ le t r.
Proof.
  intros W V F.
  exact (month_search_total _ _ _ _ (fun y m => MonthlyLastDay_in_month self y m W) fuel t V ltac:(lia)).
Qed.

Lemma MonthlyLastDay_mono fuel self t1 t2 r1 r2 :
  well_formed (TMonthlyLastDay self) = true ->
  valid t1 = true -> valid t2 = true -> le t1 t2 ->
  MonthlyLastDay.locate_next fuel self t1 = Ok r1 ->
  MonthlyLastDay.locate_next fuel self t2 = Ok r2 -> le r1 r2.
Proof.
  intros W. exact (month_search_mono _ _ _ _ (fun y m => MonthlyLastDay_in_month self y m W) _ _ _ _ _ _).
Qed.

Lemma MonthlyLastDay_manual self t :
  well_formed (TMonthlyLastDay self) = true -> valid t = true ->
  exists iv, MonthlyLastDay.infer_manual_data_interval self t = Ok iv /\ le (start iv) t.
Proof.
  intros W V.
  destruct (month_manual (fun p => MonthlyLastDay._get_last_day self p.1 p.2) _ _ _
              (fun y m => MonthlyLastDay_in_month self y m W) t V) as (r & L & E).
  exists (mkDataInterval r (add_hours r 1)).
  split; [exact (E _ (fun d => Ok (mkDataInterval d (add_hours d 1)))) | exact L].
Qed.

Lemma MonthlyOnDay_in_month' self :
  well_formed (TMonthlyOnDay self) = true ->
  forall y m, 1 <= m <= 12 ->
  in_month_at y m (MonthlyOnDay.hour self) (MonthlyOnDay.minute self)
              (MonthlyOnDay.second self) (MonthlyOnDay._get_run_date self y m).
Proof. intros W. wf_split W. intros y m. apply MonthlyOnDay_in_month; assumption. Qed.

Lemma MonthlyOnDay_locate fuel self t :
  well_formed (TMonthlyOnDay self) = true -> valid t = true -> (28 <= fuel)%nat ->
  exists r, MonthlyOnDay.locate_next fuel self t = Ok r /\ le t r.
Proof.
  intros W V F.
  exact (month_search_total _ _ _ _ (MonthlyOnDay_in_month' self W) fuel t V ltac:(lia)).
Qed.

Lemma MonthlyOnDay_mono fuel self t1 t2 r1 r2 :
  well_formed (TMonthlyOnDay self) = true ->
  valid t1 = true -> valid t2 = true -> le t1 t2 ->
  MonthlyOnDay.locate_next fuel self t1 = Ok r1 ->
  MonthlyOnDay.locate_next fuel self t2 = Ok r2 -> le r1 r2.
Proof.
  intros W. exact (month_search_mono _ _ _ _ (MonthlyOnDay_in_month' self W) _ _ _ _ _ _).
Qed.

Lemma MonthlyOnDay_manual self t :
  well_formed (TMonthlyOnDay self) = true -> valid t = true ->
  exists iv, MonthlyOnDay.infer_manual_data_interval self t = Ok iv /\ le (start iv) t.
Proof.
  intros W V.
  destruct (month_manual (fun p => MonthlyOnDay._get_run_date self p.1 p.2) _ _ _
              (MonthlyOnDay_in_month' self W) t V) as (r & L & E).
  exists (mkDataInterval r (add_hours r 1)).
  split; [exact (E _ (fun d => Ok (mkDataInterval d (add_hours d 1)))) | exact L].
Qed.

Lemma MonthlyWeekdayOccurrence_in_month' fuel self :
  well_formed (TMonthlyWeekdayOccurrence self) = true -> (28 <= fuel)%nat ->
  forall y m, 1 <= m <= 12 ->
  in_month_at y m (MonthlyWeekdayOccurrence.hour self) (MonthlyWeekdayOccurrence.minute self)
              (MonthlyWeekdayOccurrence.second self)
              (MonthlyWeekdayOccurrence._get_nth_weekday fuel self y m).
Proof.
  intros W F. wf_split W. intros y m.
  apply MonthlyWeekdayOccurrence_in_month; assumption.
Qed.

Lemma MonthlyWeekdayOccurrence_locate fuel self t :
  well_formed (TMonthlyWeekdayOccurrence self) = true -> valid t = true ->
  (28 <= fuel)%nat ->
  exists r, MonthlyWeekdayOccurrence.locate_next fuel self t = Ok r /\ le t r.
Proof.
  intros W V F.
  exact (month_search_total _ _ _ _ (MonthlyWeekdayOccurrence_in_month' fuel self W F)
           fuel t V ltac:(lia)).
Qed.

Lemma MonthlyWeekdayOccurrence_mono fuel self t1 t2 r1 r2 :
  well_formed (TMonthlyWeekdayOccurrence self) = true -> (28 <= fuel)%nat ->
  valid t1 = true -> valid t2 = true -> le t1 t2 ->
  MonthlyWeekdayOccurrence.locate_next fuel self t1 = Ok r1 ->
  MonthlyWeekdayOccurrence.locate_next fuel self t2 = Ok r2 -> le r1 r2.
Proof.
  intros W F.
  exact (month_search_mono _ _ _ _ (MonthlyWeekdayOccurrence_in_month' fuel self W F)
           _ _ _ _ _ _).
Qed.

Lemma MonthlyWeekdayOccurrence_manual fuel self t :
  well_formed (TMonthlyWeekdayOccurrence self) = true -> (28 <= fuel)%nat ->
  valid t = true ->
  exists iv, MonthlyWeekdayOccurrence.infer_manual_data_interval fuel self t = Ok iv
             /\ le (start iv) t.
Proof.
  intros W F V.
  destruct (month_manual (fun p => MonthlyWeekdayOccurrence._get_nth_weekday fuel self p.1 p.2)
              _ _ _ (MonthlyWeekdayOccurrence_in_month' fuel self W F) t V)
    as (r & L & E).
  exists (mkDataInterval r (add_hours r 1)).
  split; [exact (E _ (fun d => Ok (mkDataInterval d (add_hours d 1)))) | exact L].
Qed.

Lemma BusinessDayOfMonth_in_month' fuel self :
  well_formed (TBusinessDayOfMonth self) = true -> (28 <= fuel)%nat ->
  forall y m, 1 <= m <= 12 ->
  in_month_at y m (BusinessDayOfMonth.hour self) (BusinessDayOfMonth.minute self)
              (BusinessDayOfMonth.second self)
              (BusinessDayOfMonth._get_nth_business_day fuel self y m).
Proof.
  intros W F. wf_split W. intros y m. apply BusinessDayOfMonth_in_month; assumption.
Qed.

Lemma BusinessDayOfMonth_locate fuel self t :
  well_formed (TBusinessDayOfMonth self) = true -> valid t = true -> (28 <= fuel)%nat ->
  exists r, BusinessDayOfMonth.locate_next fuel self t = Ok r /\ le t r.
Proof.
  intros W V F.
  exact (month_search_total _ _ _ _ (BusinessDayOfMonth_in_month' fuel self W F)
           fuel t V ltac:(lia)).
Qed.

Lemma BusinessDayOfMonth_mono fuel self t1 t2 r1 r2 :
  well_formed (TBusinessDayOfMonth self) = true -> (28 <= fuel)%nat ->
  valid t1 = true -> valid t2 = true -> le t1 t2 ->
  BusinessDayOfMonth.locate_next fuel self t1 = Ok r1 ->
  BusinessDayOfMonth.locate_next fuel self t2 = Ok r2 -> le r1 r2.
Proof.
  intros W F.
  exact (month_search_mono _ _ _ _ (BusinessDayOfMonth_in_month' fuel self W F)
           _ _ _ _ _ _).
Qed.

Lemma BusinessDayOfMonth_manual fuel self t :
  well_formed (TBusinessDayOfMonth self) = true -> (28 <= fuel)%nat -> valid t = true ->
  exists iv, BusinessDayOfMonth.infer_manual_data_interval fuel self t = Ok iv
             /\ le (start iv) t.
Proof.
  intros W F V.
  destruct (month_manual (fun p => BusinessDayOfMonth._get_nth_business_day fuel self p.1 p.2)
              _ _ _ (BusinessDayOfMonth_in_month' fuel self W F) t V)
    as (r & L & E).
  exists (mkDataInterval r (add_hours r 1)).
  split; [exact (E _ (fun d => Ok (mkDataInterval d (add_hours d 1)))) | exact L].
Qed.

Lemma MonthlyLastDayExceptWeekend_in_month' fuel self :
  well_formed (TMonthlyLastDayExceptWeekend self) = true -> (28 <= fuel)%nat ->
  forall y m, 1 <= m <= 12 ->
  in_month_at y m (MonthlyLastDayExceptWeekend.hour self)
              (MonthlyLastDayExceptWeekend.minute self)
              (MonthlyLastDayExceptWeekend.second self)
              (MonthlyLastDayExceptWeekend._get_last_day fuel self y m).
Proof.
  intros W F y m. apply MonthlyLastDayExceptWeekend_in_month; [exact W | lia].
Qed.

Lemma MonthlyLastDayExceptWeekend_locate fuel self t :
  well_formed (TMonthlyLastDayExceptWeekend self) = true -> valid t = true ->
  (28 <= fuel)%nat ->
  exists r, MonthlyLastDayExceptWeekend.locate_next fuel self t = Ok r /\ le t r.
Proof.
  intros W V F.
  exact (month_search_total _ _ _ _ (MonthlyLastDayExceptWeekend_in_month' fuel self W F)
           fuel t V ltac:(lia)).
Qed.

Lemma MonthlyLastDayExceptWeekend_mono fuel self t1 t2 r1 r2 :
  well_formed (TMonthlyLastDayExceptWeekend self) = true -> (28 <= fuel)%nat ->
  valid t1 = true -> valid t2 = true -> le t1 t2 ->
  MonthlyLastDayExceptWeekend.locate_next fuel self t1 = Ok r1 ->
  MonthlyLastDayExceptWeekend.locate_next fuel self t2 = Ok r2 -> le r1 r2.
Proof.
  intros W F.
  exact (month_search_mono _ _ _ _ (MonthlyLastDayExceptWeekend_in_month' fuel self W F)
           _ _ _ _ _ _).
Qed.

Lemma MonthlyLastDayExceptWeekend_manual fuel self t :
  well_formed (TMonthlyLastDayExceptWeekend self) = true -> (28 <= fuel)%nat ->
  valid t = true ->
  exists iv, MonthlyLastDayExceptWeekend.infer_manual_data_interval fuel self t = Ok iv
             /\ le (start iv) t.
Proof.
  intros W F V.
  destruct (month_manual (fun p => MonthlyLastDayExceptWeekend._get_last_day fuel self p.1 p.2)
              _ _ _ (MonthlyLastDayExceptWeekend_in_month' fuel self W F) t V)
    as (r & L & E).
  exists (mkDataInterval r (add_hours r 1)).
  split; [exact (E _ (fun d => Ok (mkDataInterval d (add_hours d 1)))) | exact L].
Qed.

(** ** The classes that search quarter by quarter *)

Lemma quarter_first_month m :
  1 <= m <= 12 ->
  (if month_in m 1 2 3 then 1 else if month_in m 4 5 6 then 4
   else if month_in m 7 8 9 then 7 else 10) = 3 * ((m - 1) / 3) + 1.
Proof.
  intros Hm.
  destruct (month_cases m Hm) as
    [->|[->|[->|[->|[->|[->|[->|[->|[->|[->|[->| ->]]]]]]]]]]]; reflexivity.
Qed.

Lemma quarter_last_month m :
  1 <= m <= 12 ->
  (if month_in m 1 2 3 then 3 else if month_in m 4 5 6 then 6
   else if month_in m 7 8 9 then 9 else 12) = 3 * ((m - 1) / 3) + 3.
Proof.
  intros Hm.
  destruct (month_cases m Hm) as
    [->|[->|[->|[->|[->|[->|[->|[->|[->|[->|[->| ->]]]]]]]]]]]; reflexivity.
Qed.

Lemma next_quarter_spec y m :
  1 <= m <= 12 ->
  next_quarter (y, m) =
  if (m - 1) / 3 <? 3 then (y, 3 * ((m - 1) / 3 + 1) + 1) else (y + 1, 1).
Proof.
  intros Hm.
  destruct (month_cases m Hm) as
    [->|[->|[->|[->|[->|[->|[->|[->|[->|[->|[->| ->]]]]]]]]]]]; reflexivity.
Qed.

Lemma quarter_range m : 1 <= m <= 12 -> 0 <= (m - 1) / 3 <= 3.
Proof. intros Hm. Z.div_mod_to_equations. lia. Qed.

Lemma quarter_of_first q : 0 <= q <= 3 -> (3 * q + 1 - 1) / 3 = q.
Proof. intros Hq. Z.div_mod_to_equations. lia. Qed.

Section QuarterSearch.

Variables (occ : Z * Z -> result DateTime) (c h mi s : Z) (dfun : Z -> Z -> Z).
Hypothesis c_range : 1 <= c <= 3.
Hypothesis occ_quarter :
  forall y m, 1 <= m <= 12 ->
  occ (y, m) = Ok (mkDateTime y (3 * ((m - 1) / 3) + c) (dfun y ((m - 1) / 3)) h mi s 0).

Let f (p : Z * Z) : DateTime :=
  mkDateTime p.1 (3 * ((p.2 - 1) / 3) + c) (dfun p.1 ((p.2 - 1) / 3)) h mi s 0.

Lemma quarter_occ_f p : valid_month p -> occ p = Ok (f p).
Proof. destruct p as [y m]. intros V. apply occ_quarter. exact V. Qed.

Lemma next_quarter_valid p : valid_month p -> valid_month (next_quarter p).
Proof.
  destruct p as [y m]. intros V. unfold valid_month in V. simpl in V.
  rewrite next_quarter_spec by assumption. pose proof (quarter_range m V).
  unfold valid_month. destruct (Z.ltb_spec ((m - 1) / 3) 3); simpl; lia.
Qed.

Lemma quarter_key_next p :
  valid_month p -> quarter_key (next_quarter p) = quarter_key p + 1.
Proof.
  destruct p as [y m]. intros V. unfold valid_month in V. simpl in V.
  rewrite next_quarter_spec by assumption. pose proof (quarter_range m V).
  unfold quarter_key. destruct (Z.ltb_spec ((m - 1) / 3) 3); cbn [fst snd].
  - rewrite (quarter_of_first ((m - 1) / 3 + 1)) by lia. lia.
  - change ((1 - 1) / 3) with 0. lia.
Qed.

Lemma quarter_f_mono a b :
  valid_month a -> valid_month b -> quarter_key a <= quarter_key b -> le (f a) (f b).
Proof.
  destruct a as [ya ma], b as [yb mb]. unfold valid_month, quarter_key, f. simpl.
  intros Va Vb K. pose proof (quarter_range ma Va). pose proof (quarter_range mb Vb).
  destruct (Z.eq_dec ya yb) as [-> | Ny].
  - destruct (Z.eq_dec ((ma - 1) / 3) ((mb - 1) / 3)) as [-> | Nq];
      [apply le_refl | order_lia].
  - order_lia.
Qed.

Lemma quarter_after_next t :
  valid t = true -> le t (f (next_quarter (year t, month t))).
Proof.
  intros V. apply valid_spec in V as ((Vm & Vd) & _).
  rewrite next_quarter_spec by assumption. pose proof (quarter_range _ Vm) as R.
  unfold f. destruct (Z.ltb_spec ((month t - 1) / 3) 3); cbn [fst snd].
  - rewrite (quarter_of_first ((month t - 1) / 3 + 1)) by lia.
    assert (month t <= 3 * ((month t - 1) / 3) + 3) by (Z.div_mod_to_equations; lia).
    order_lia.
  - order_lia.
Qed.

Lemma quarter_search_total fuel t :
  valid t = true -> (2 <= fuel)%nat ->
  exists r, search_from fuel occ next_quarter t (year t, month t) = Ok r /\ le t r.
Proof.
  intros V Hf. pose proof V as V'. apply valid_spec in V' as ((Vm & _) & _).
  eexists. split.
  - apply (search_from_two occ next_quarter f valid_month quarter_occ_f next_quarter_valid);
      [exact Vm | exact Hf | apply quarter_after_next; exact V].
  - simpl. destruct (leb t (f (year t, month t))) eqn:B.
    + apply le_lex, leb_le. exact B.
    + apply quarter_after_next; exact V.
Qed.

Lemma quarter_search_mono fuel1 fuel2 t1 t2 r1 r2 :
  valid t1 = true -> valid t2 = true -> le t1 t2 ->
  search_from fuel1 occ next_quarter t1 (year t1, month t1) = Ok r1 ->
  search_from fuel2 occ next_quarter t2 (year t2, month t2) = Ok r2 ->
  le r1 r2.
Proof.
  intros V1 V2 T E1 E2.
  pose proof V1 as V1'. apply valid_spec in V1' as ((Vm1 & _) & _).
  pose proof V2 as V2'. apply valid_spec in V2' as ((Vm2 & _) & _).
  apply (search_from_mono occ next_quarter f valid_month quarter_key
           quarter_occ_f next_quarter_valid quarter_key_next quarter_f_mono
           fuel1 fuel2 t1 t2 (year t1, month t1) (year t2, month t2) r1 r2);
    try assumption.
  - unfold quarter_key. simpl.
    pose proof (quarter_range _ Vm1). pose proof (quarter_range _ Vm2).
    destruct (Z.eq_dec (year t1) (year t2)) as [Ey | Ny].
    + assert (month t1 <= month t2) by order_lia.
      rewrite Ey. apply Z.add_le_mono_l. apply Z.div_le_mono; lia.
    + assert (year t1 < year t2) by order_lia. lia.
  - apply quarter_after_next; assumption.
  - apply quarter_after_next; assumption.
Qed.

(** The manual-interval pattern of the quarterly classes. *)
Lemma quarter_manual (prev_quarter : Z * Z -> Z * Z) t :
  (forall p, valid_month p -> valid_month (prev_quarter p)) ->
  valid t = true ->
  exists r, forall (B : Type) (k : DateTime -> result B),
    (occ (year t, month t) ≫= fun d =>
       (if ltb t d then
          let (y, m) := prev_quarter (year t, month t) in occ (y, m)
        else Ok d) ≫= k) = k r.
Proof.
  intros Hp V. apply valid_spec in V as ((Vm & _) & _).
  assert (Vp : valid_month (year t, month t)) by exact Vm.
  rewrite (quarter_occ_f _ Vp). unfold mbind, result_bind.
  destruct (ltb t (f (year t, month t))).
  - pose proof (Hp _ Vp) as Vq.
    destruct (prev_quarter (year t, month t)) as [y m].
    exists (f (y, m)). intros B k. rewrite (quarter_occ_f _ Vq). reflexivity.
  - exists (f (year t, month t)). reflexivity.
Qed.

End QuarterSearch.

Lemma QuarterlyFirstDay_occ self :
  well_formed (TQuarterlyFirstDay self) = true ->
  forall y m, 1 <= m <= 12 ->
  QuarterlyFirstDay._get_first_day_of_quarter self y m =
  Ok (mkDateTime y (3 * ((m - 1) / 3) + 1) 1 (QuarterlyFirstDay.hour self)
                 (QuarterlyFirstDay.minute self) (QuarterlyFirstDay.second self) 0).
Proof.
  intros W y m Hm. unfold QuarterlyFirstDay._get_first_day_of_quarter.
  rewrite quarter_first_month by assumption. pose proof (quarter_range m Hm).
  apply datetime_valid; [|exact W]. apply valid_date_spec.
  pose proof (days_in_month_bounds y (3 * ((m - 1) / 3) + 1)). lia.
Qed.

Lemma QuarterlyFirstDay_locate fuel self t :
  well_formed (TQuarterlyFirstDay self) = true -> valid t = true -> (28 <= fuel)%nat ->
  exists r, QuarterlyFirstDay.locate_next fuel self t = Ok r /\ le t r.
Proof.
  intros W V F.
  exact (quarter_search_total _ 1 _ _ _ (fun _ _ => 1) ltac:(lia)
           (QuarterlyFirstDay_occ self W)
           fuel t V ltac:(lia)).
Qed.

Lemma QuarterlyFirstDay_mono fuel self t1 t2 r1 r2 :
  well_formed (TQuarterlyFirstDay self) = true ->
  valid t1 = true -> valid t2 = true -> le t1 t2 ->
  QuarterlyFirstDay.locate_next fuel self t1 = Ok r1 ->
  QuarterlyFirstDay.locate_next fuel self t2 = Ok r2 -> le r1 r2.
Proof.
  intros W.
  exact (quarter_search_mono _ 1 _ _ _ (fun _ _ => 1) ltac:(lia)
           (QuarterlyFirstDay_occ self W)
           _ _ _ _ _ _).
Qed.

Lemma QuarterlyFirstDay_prev_valid p :
  valid_month p -> valid_month (QuarterlyFirstDay.prev_quarter p).
Proof.
  destruct p as [y m]. unfold valid_month, QuarterlyFirstDay.prev_quarter. simpl.
  repeat match goal with |- context [if ?b then _ else _] => destruct b end; simpl; lia.
Qed.

Lemma QuarterlyFirstDay_manual self t :
  well_formed (TQuarterlyFirstDay self) = true -> valid t = true ->
  exists iv, QuarterlyFirstDay.infer_manual_data_interval self t = Ok iv.
Proof.
  intros W V.
  destruct (quarter_manual
              (fun p => QuarterlyFirstDay._get_first_day_of_quarter self p.1 p.2)
              1 _ _ _ (fun _ _ => 1) (QuarterlyFirstDay_occ self W)
              QuarterlyFirstDay.prev_quarter t QuarterlyFirstDay_prev_valid V) as (r & E).
  exists (mkDataInterval r (add_hours r 1)).
  exact (E _ (fun d => Ok (mkDataInterval d (add_hours d 1)))).
Qed.

Lemma QuarterlyLastDay_occ self :
  well_formed (TQuarterlyLastDay self) = true ->
  forall y m, 1 <= m <= 12 ->
  QuarterlyLastDay._get_last_day_of_quarter self y m =
  Ok (mkDateTime y (3 * ((m - 1) / 3) + 3)
                 (days_in_month y (3 * ((m - 1) / 3) + 3))
                 (QuarterlyLastDay.hour self)
                 (QuarterlyLastDay.minute self) (QuarterlyLastDay.second self) 0).
Proof.
  intros W y m Hm. unfold QuarterlyLastDay._get_last_day_of_quarter.
  rewrite quarter_last_month by assumption. pose proof (quarter_range m Hm).
  rewrite last_date_of_month_spec by lia. simpl.
  apply replace_valid_time. exact W.
Qed.

Lemma QuarterlyLastDay_locate fuel self t :
  well_formed (TQuarterlyLastDay self) = true -> valid t = true -> (28 <= fuel)%nat ->
  exists r, QuarterlyLastDay.locate_next fuel self t = Ok r /\ le t r.
Proof.
  intros W V F.
  exact (quarter_search_total _ 3 _ _ _ (fun y q => days_in_month y (3 * q + 3))
           ltac:(lia) (QuarterlyLastDay_occ self W) fuel t V ltac:(lia)).
Qed.

Lemma QuarterlyLastDay_mono fuel self t1 t2 r1 r2 :
  well_formed (TQuarterlyLastDay self) = true ->
  valid t1 = true -> valid t2 = true -> le t1 t2 ->
  QuarterlyLastDay.locate_next fuel self t1 = Ok r1 ->
  QuarterlyLastDay.locate_next fuel self t2 = Ok r2 -> le r1 r2.
Proof.
  intros W.
  exact (quarter_search_mono _ 3 _ _ _ (fun y q => days_in_month y (3 * q + 3))
           ltac:(lia) (QuarterlyLastDay_occ self W) _ _ _ _ _ _).
Qed.

Lemma QuarterlyLastDay_prev_valid p :
  valid_month p -> valid_month (QuarterlyLastDay.prev_quarter p).
Proof.
  destruct p as [y m]. unfold valid_month, QuarterlyLastDay.prev_quarter. simpl.
  repeat match goal with |- context [if ?b then _ else _] => destruct b end; simpl; lia.
Qed.

Lemma QuarterlyLastDay_manual self t :
  well_formed (TQuarterlyLastDay self) = true -> valid t = true ->
  exists iv, QuarterlyLastDay.infer_manual_data_interval self t = Ok iv.
Proof.
  intros W V.
  destruct (quarter_manual
              (fun p => QuarterlyLastDay._get_last_day_of_quarter self p.1 p.2)
              3 _ _ _ (fun y q => days_in_month y (3 * q + 3)) (QuarterlyLastDay_occ self W)
              QuarterlyLastDay.prev_quarter t QuarterlyLastDay_prev_valid V) as (r & E).
  exists (mkDataInterval r (add_hours r 1)).
  exact (E _ (fun d => Ok (mkDataInterval d (add_hours d 1)))).
Qed.

(** ** The classes that search year by year *)

Section YearSearch.

Variables (occ : Z -> result DateTime) (mo h mi s : Z).
Hypothesis occ_in_month : forall y, in_month_at y mo h mi s (occ y).

Let f (y : Z) : DateTime := value_of (occ y).

Lemma year_occ_f y : True -> occ y = Ok (f y).
Proof. intros _. destruct (occ_in_month y) as (d & _ & E). unfold f. rewrite E. reflexivity. Qed.

Lemma year_f_fields y : exists d, f y = mkDateTime y mo d h mi s 0.
Proof. destruct (occ_in_month y) as (d & _ & E). exists d. unfold f. rewrite E. reflexivity. Qed.

Lemma year_f_mono a b : True -> True -> a <= b -> le (f a) (f b).
Proof.
  intros _ _ K. destruct (Z.eq_dec a b) as [-> | N]; [apply le_refl|].
  destruct (year_f_fields a) as (da & ->). destruct (year_f_fields b) as (db & ->).
  order_lia.
Qed.

Lemma year_after_next t : le t (f (Z.succ (year t))).
Proof. destruct (year_f_fields (Z.succ (year t))) as (d & ->). order_lia. Qed.

Lemma year_search_total fuel t :
  (2 <= fuel)%nat ->
  exists r, search_from fuel occ Z.succ t (year t) = Ok r /\ le t r.
Proof.
  intros Hf. eexists. split.
  - apply (search_from_two occ Z.succ f (fun _ => True) year_occ_f (fun _ _ => I));
      [exact I | exact Hf | apply year_after_next].
  - simpl. destruct (leb t (f (year t))) eqn:B.
    + apply le_lex, leb_le. exact B.
    + apply year_after_next.
Qed.

Lemma year_search_mono fuel1 fuel2 t1 t2 r1 r2 :
  le t1 t2 ->
  search_from fuel1 occ Z.succ t1 (year t1) = Ok r1 ->
  search_from fuel2 occ Z.succ t2 (year t2) = Ok r2 ->
  le r1 r2.
Proof.
  intros T E1 E2.
  apply (search_from_mono occ Z.succ f (fun _ => True) (fun y => y)
           year_occ_f (fun _ _ => I) (fun y _ => eq_refl) year_f_mono
           fuel1 fuel2 t1 t2 (year t1) (year t2) r1 r2); try assumption; try exact I.
  - order_lia.
  - apply year_after_next.
  - apply year_after_next.
Qed.

Lemma year_manual t :
  exists r, le r t /\
    forall (B : Type) (k : DateTime -> result B),
      (occ (year t) ≫= fun d =>
         (if ltb t d then occ (year t - 1) else Ok d) ≫= k) = k r.
Proof.
  rewrite (year_occ_f (year t) I). unfold mbind, result_bind.
  destruct (ltb t (f (year t))) eqn:B.
  - exists (f (year t - 1)). split.
    + destruct (year_f_fields (year t - 1)) as (d & ->). order_lia.
    + intros B' k. rewrite (year_occ_f _ I). reflexivity.
  - exists (f (year t)). split; [|reflexivity].
    apply le_lex. apply ltb_nlt in B. exact B.
Qed.

End YearSearch.

Lemma YearlyFirstDay_in_month self :
  well_formed (TYearlyFirstDay self) = true ->
  forall y, in_month_at y 1 (YearlyFirstDay.hour self) (YearlyFirstDay.minute self)
                        (YearlyFirstDay.second self)
                        (YearlyFirstDay._get_first_day_of_year self y).
Proof.
  intros W y. exists 1. split; [pose proof (days_in_month_bounds y 1); lia|].
  apply datetime_valid; [reflexivity | exact W].
Qed.

Lemma YearlyFirstDay_locate fuel self t :
  well_formed (TYearlyFirstDay self) = true -> (28 <= fuel)%nat ->
  exists r, YearlyFirstDay.locate_next fuel self t = Ok r /\ le t r.
Proof.
  intros W F.
  exact (year_search_total _ _ _ _ _ (YearlyFirstDay_in_month self W) fuel t ltac:(lia)).
Qed.

Lemma YearlyFirstDay_mono fuel self t1 t2 r1 r2 :
  well_formed (TYearlyFirstDay self) = true -> le t1 t2 ->
  YearlyFirstDay.locate_next fuel self t1 = Ok r1 ->
  YearlyFirstDay.locate_next fuel self t2 = Ok r2 -> le r1 r2.
Proof.
  intros W. exact (year_search_mono _ _ _ _ _ (YearlyFirstDay_in_month self W) _ _ _ _ _ _).
Qed.

Lemma YearlyFirstDay_manual self t :
  well_formed (TYearlyFirstDay self) = true ->
  exists iv, YearlyFirstDay.infer_manual_data_interval self t = Ok iv /\ le (start iv) t.
Proof.
  intros W.
  destruct (year_manual (YearlyFirstDay._get_first_day_of_year self) _ _ _ _
              (YearlyFirstDay_in_month self W) t) as (r & L & E).
  exists (mkDataInterval r (add_hours r 1)).
  split; [exact (E _ (fun d => Ok (mkDataInterval d (add_hours d 1)))) | exact L].
Qed.

Lemma YearlyWeekdayOccurrence_in_month' fuel self :
  well_formed (TYearlyWeekdayOccurrence self) = true -> (28 <= fuel)%nat ->
  forall y, in_month_at y (YearlyWeekdayOccurrence.month self)
              (YearlyWeekdayOccurrence.hour self) (YearlyWeekdayOccurrence.minute self)
              (YearlyWeekdayOccurrence.second self)
              (YearlyWeekdayOccurrence._get_nth_weekday fuel self y).
Proof.
  intros W F. wf_split W. intros y.
  apply YearlyWeekdayOccurrence_in_month; try assumption. lia.
Qed.

Lemma YearlyWeekdayOccurrence_locate fuel self t :
  well_formed (TYearlyWeekdayOccurrence self) = true -> (28 <= fuel)%nat ->
  exists r, YearlyWeekdayOccurrence.locate_next fuel self t = Ok r /\ le t r.
Proof.
  intros W F.
  exact (year_search_total _ _ _ _ _ (YearlyWeekdayOccurrence_in_month' fuel self W F)
           fuel t ltac:(lia)).
Qed.

Lemma YearlyWeekdayOccurrence_mono fuel self t1 t2 r1 r2 :
  well_formed (TYearlyWeekdayOccurrence self) = true -> (28 <= fuel)%nat -> le t1 t2 ->
  YearlyWeekdayOccurrence.locate_next fuel self t1 = Ok r1 ->
  YearlyWeekdayOccurrence.locate_next fuel self t2 = Ok r2 -> le r1 r2.
Proof.
  intros W F.
  exact (year_search_mono _ _ _ _ _ (YearlyWeekdayOccurrence_in_month' fuel self W F)
           _ _ _ _ _ _).
Qed.

Lemma YearlyWeekdayOccurrence_manual fuel self t :
  well_formed (TYearlyWeekdayOccurrence self) = true -> (28 <= fuel)%nat ->
  exists iv, YearlyWeekdayOccurrence.infer_manual_data_interval fuel self t = Ok iv
             /\ le (start iv) t.
Proof.
  intros W F.
  destruct (year_manual (YearlyWeekdayOccurrence._get_nth_weekday fuel self) _ _ _ _
              (YearlyWeekdayOccurrence_in_month' fuel self W F) t) as (r & L & E).
  exists (mkDataInterval r (add_hours r 1)).
  split; [exact (E _ (fun d => Ok (mkDataInterval d (add_hours d 1)))) | exact L].
Qed.


(** ** Comparisons as comparisons of stamps *)

Lemma ltb_stamp a b :
  valid a = true -> valid b = true -> ltb a b = (stamp a <? stamp b).
Proof.
  intros Va Vb. destruct (Z.ltb_spec (stamp a) (stamp b)) as [L | L].
  - apply ltb_lt, stamp_lt; assumption.
  - apply ltb_nlt. rewrite (stamp_lt a b Va Vb). lia.
Qed.

Lemma leb_stamp a b :
  valid a = true -> valid b = true -> leb a b = (stamp a <=? stamp b).
Proof.
  intros Va Vb. destruct (Z.leb_spec (stamp a) (stamp b)) as [L | L].
  - apply leb_le. rewrite (stamp_lt b a Vb Va). lia.
  - apply leb_gt, stamp_lt; assumption.
Qed.

Lemma le_stamp a b :
  valid a = true -> valid b = true -> (le a b <-> stamp a <= stamp b).
Proof. intros Va Vb. rewrite le_lex. apply stamp_le; assumption. Qed.

Lemma lt_stamp a b :
  valid a = true -> valid b = true -> (lt a b <-> stamp a < stamp b).
Proof. intros Va Vb. rewrite lt_lex. apply stamp_lt; assumption. Qed.

Lemma replace_spec t h mi s :
  valid t = true -> valid_time h mi s = true ->
  exists r, replace t h mi s = Ok r /\ valid r = true /\
    stamp r = (toordinal t * 86400 + h * 3600 + mi * 60 + s) * 1000000.
Proof.
  intros V Ht. rewrite replace_valid_time by assumption.
  eexists. split; [reflexivity|]. split.
  - apply valid_spec in V as (D & _ & _). apply valid_spec.
    apply valid_time_spec in Ht. unfold valid_day in *. simpl. lia.
  - unfold stamp, toordinal. simpl. lia.
Qed.

Lemma stamp_time_of_day t :
  valid t = true ->
  exists x, stamp t = toordinal t * 86400000000 + x /\ 0 <= x < 86400000000 /\
            x = (hour t * 3600 + minute t * 60 + second t) * 1000000 + microsecond t.
Proof.
  intros V. apply valid_spec in V as (_ & T & U). eexists. split; [|split; [|reflexivity]].
  - unfold stamp. lia.
  - lia.
Qed.

(** ** WeeklyOnDay *)

Lemma WeeklyOnDay_locate self t :
  well_formed (TWeeklyOnDay self) = true ->
  exists r, WeeklyOnDay._get_next_weekday self t = Ok r.
Proof.
  intros W. unfold WeeklyOnDay._get_next_weekday.
  rewrite replace_valid_time by exact W. eexists. reflexivity.
Qed.

(** ** EveryNDays *)

Lemma EveryNDays_locate_stamp self t :
  well_formed (TEveryNDays self) = true -> valid t = true ->
  exists r, EveryNDays.locate_next self t = Ok r /\ valid r = true /\
    let c := (EveryNDays.hour self * 3600 + EveryNDays.minute self * 60
              + EveryNDays.second self) * 1000000 in
    stamp r = toordinal t * 86400000000 + c
              + (if toordinal t * 86400000000 + c <? stamp t then 86400000000 else 0).
Proof.
  intros W V. wf_split W. unfold EveryNDays.locate_next.
  destruct (replace_spec t _ _ _ V W) as (a & -> & Va & Sa). rewrite bind_Ok.
  rewrite (ltb_stamp a t Va V).
  replace (toordinal t * 86400000000 +
           (EveryNDays.hour self * 3600 + EveryNDays.minute self * 60
            + EveryNDays.second self) * 1000000) with (stamp a) by lia.
  destruct (stamp a <? stamp t).
  - eexists. split; [reflexivity|]. split; [apply add_days_valid; exact Va|].
    rewrite stamp_add_days; [lia|]. apply valid_spec in Va. tauto.
  - eexists. split; [reflexivity|]. split; [exact Va | lia].
Qed.

Lemma EveryNDays_locate self t :
  well_formed (TEveryNDays self) = true -> valid t = true ->
  exists r, EveryNDays.locate_next self t = Ok r /\ le t r.
Proof.
  intros W V. destruct (EveryNDays_locate_stamp self t W V) as (r & E & Vr & S).
  exists r. split; [exact E|]. apply le_stamp; [assumption..|].
  simpl in S. rewrite S.
  destruct (Z.ltb_spec (toordinal t * 86400000000 +
    (EveryNDays.hour self * 3600 + EveryNDays.minute self * 60 + EveryNDays.second self)
    * 1000000) (stamp t)); [|lia].
  destruct (stamp_time_of_day t V) as (x & -> & Hx & _). wf_split W.
  apply valid_time_spec in W. lia.
Qed.

Lemma toordinal_le_of_le a b :
  valid a = true -> valid b = true -> le a b -> toordinal a <= toordinal b.
Proof.
  intros Va Vb L. apply (le_stamp a b Va Vb) in L.
  destruct (stamp_time_of_day a Va) as (x & Ea & Hx & _).
  destruct (stamp_time_of_day b Vb) as (y & Eb & Hy & _). lia.
Qed.

Lemma EveryNDays_mono self t1 t2 r1 r2 :
  well_formed (TEveryNDays self) = true ->
  valid t1 = true -> valid t2 = true -> le t1 t2 ->
  EveryNDays.locate_next self t1 = Ok r1 ->
  EveryNDays.locate_next self t2 = Ok r2 -> le r1 r2.
Proof.
  intros W V1 V2 T E1 E2.
  destruct (EveryNDays_locate_stamp self t1 W V1) as (r1' & E1' & Vr1 & S1).
  destruct (EveryNDays_locate_stamp self t2 W V2) as (r2' & E2' & Vr2 & S2).
  rewrite E1 in E1'. rewrite E2 in E2'. inversion E1'. inversion E2'. subst r1' r2'.
  apply le_stamp; [assumption..|]. simpl in S1, S2. rewrite S1, S2.
  pose proof (toordinal_le_of_le t1 t2 V1 V2 T) as O.
  apply (le_stamp t1 t2 V1 V2) in T.
  destruct (stamp_time_of_day t1 V1) as (x & Ea & Hx & _).
  destruct (stamp_time_of_day t2 V2) as (y & Eb & Hy & _).
  repeat match goal with |- context [?a <? ?b] => destruct (Z.ltb_spec a b) end; lia.
Qed.

Lemma EveryNDays_manual fuel self t :
  well_formed (TEveryNDays self) = true -> valid t = true -> (28 <= fuel)%nat ->
  exists iv, EveryNDays.infer_manual_data_interval fuel self t = Ok iv /\ le (start iv) t.
Proof.
  intros W V F. pose proof W as W'. wf_split W'.
  unfold EveryNDays.infer_manual_data_interval.
  destruct (replace_spec t _ _ _ V W') as (a & -> & Va & Sa). rewrite bind_Ok.
  destruct fuel as [|[|fuel]]; try lia. cbn [EveryNDays.step_back].
  rewrite (ltb_stamp t a V Va).
  destruct (Z.ltb_spec (stamp t) (stamp a)) as [L | L].
  - assert (Vb : valid (subtract_days a (EveryNDays.interval_days self)) = true)
      by (apply add_days_valid; exact Va).
    rewrite (ltb_stamp t _ V Vb).
    assert (Sb : stamp (subtract_days a (EveryNDays.interval_days self)) <= stamp t).
    { unfold subtract_days. rewrite stamp_add_days by (apply valid_spec in Va; tauto).
      destruct (stamp_time_of_day t V) as (x & Et & Hx & _).
      apply valid_time_spec in W'. nia. }
    destruct (Z.ltb_spec (stamp t) (stamp (subtract_days a (EveryNDays.interval_days self))));
      [lia|].
    rewrite bind_Ok. eexists. split; [reflexivity|]. cbn [start].
    apply le_stamp; assumption.
  - rewrite bind_Ok. eexists. split; [reflexivity|]. cbn [start].
    apply le_stamp; assumption.
Qed.

(** ** SemiMonthly *)

Lemma SemiMonthly_pair self y m :
  well_formed (TSemiMonthly self) = true -> 1 <= m <= 12 ->
  SemiMonthly.fifteenth_and_last self y m =
  Ok (mkDateTime y m 15 (SemiMonthly.hour self) (SemiMonthly.minute self)
                 (SemiMonthly.second self) 0,
      mkDateTime y m (days_in_month y m) (SemiMonthly.hour self)
                 (SemiMonthly.minute self) (SemiMonthly.second self) 0).
Proof.
  intros W Hm. unfold SemiMonthly.fifteenth_and_last.
  pose proof (days_in_month_bounds y m).
  rewrite datetime_valid; [|apply valid_date_spec; lia | exact W]. rewrite bind_Ok.
  rewrite last_date_of_month_spec by assumption. rewrite bind_Ok. cbn [day].
  rewrite datetime_valid; [|apply valid_date_spec; lia | exact W]. reflexivity.
Qed.

Lemma SemiMonthly_spec self t :
  well_formed (TSemiMonthly self) = true -> valid t = true ->
  let at_day y m d := mkDateTime y m d (SemiMonthly.hour self) (SemiMonthly.minute self)
                                 (SemiMonthly.second self) 0 in
  SemiMonthly._get_next_run_date self t =
  Ok (if leb t (at_day (year t) (month t) 15) then at_day (year t) (month t) 15
      else if leb t (at_day (year t) (month t) (days_in_month (year t) (month t)))
      then at_day (year t) (month t) (days_in_month (year t) (month t))
      else at_day (next_month (year t, month t)).1 (next_month (year t, month t)).2 15).
Proof.
  intros W V at_day. pose proof V as V'. apply valid_spec in V' as ((Vm & _) & _).
  unfold SemiMonthly._get_next_run_date.
  rewrite SemiMonthly_pair by assumption. rewrite bind_Ok. cbn [List.filter].
  fold (at_day (year t) (month t) 15).
  fold (at_day (year t) (month t) (days_in_month (year t) (month t))).
  pose proof (days_in_month_bounds (year t) (month t)) as Hb.
  assert (M : forall y m, ltb (at_day y m (days_in_month y m)) (at_day y m 15) = false).
  { intros y m. pose proof (days_in_month_bounds y m). unfold at_day. order_lia. }
  destruct (leb t (at_day (year t) (month t) 15)).
  - destruct (leb t (at_day (year t) (month t) (days_in_month (year t) (month t))));
      cbn [foldl]; [|reflexivity].
    unfold min. rewrite M. reflexivity.
  - destruct (leb t (at_day (year t) (month t) (days_in_month (year t) (month t))));
      [reflexivity|].
    pose proof (next_month_valid (year t, month t) Vm) as Vn.
    destruct (next_month (year t, month t)) as [y' m'] eqn:En.
    rewrite SemiMonthly_pair by assumption. rewrite bind_Ok. cbn [fst snd].
    unfold min. fold (at_day y' m' 15). fold (at_day y' m' (days_in_month y' m')).
    rewrite M. reflexivity.
Qed.

Lemma SemiMonthly_locate self t :
  well_formed (TSemiMonthly self) = true -> valid t = true ->
  exists r, SemiMonthly._get_next_run_date self t = Ok r /\ le t r.
Proof.
  intros W V. rewrite (SemiMonthly_spec self t W V). eexists. split; [reflexivity|].
  apply valid_spec in V as ((Vm & _) & _). cbv zeta.
  set (F := mkDateTime (year t) (month t) 15 _ _ _ 0).
  set (L := mkDateTime (year t) (month t) (days_in_month (year t) (month t)) _ _ _ 0).
  destruct (leb t F) eqn:B1; [apply le_lex, leb_le; exact B1|].
  destruct (leb t L) eqn:B2; [apply le_lex, leb_le; exact B2|].
  unfold next_month. destruct (Z.eqb_spec (month t) 12); simpl; order_lia.
Qed.

Lemma SemiMonthly_mono self t1 t2 r1 r2 :
  well_formed (TSemiMonthly self) = true ->
  valid t1 = true -> valid t2 = true -> le t1 t2 ->
  SemiMonthly._get_next_run_date self t1 = Ok r1 ->
  SemiMonthly._get_next_run_date self t2 = Ok r2 -> le r1 r2.
Proof.
  intros W V1 V2 T E1 E2.
  rewrite (SemiMonthly_spec self t1 W V1) in E1.
  rewrite (SemiMonthly_spec self t2 W V2) in E2.
  cbv zeta in E1, E2. inversion E1 as [R1]. inversion E2 as [R2]. clear E1 E2.
  subst r1 r2.
  pose proof (days_in_month_bounds (year t1) (month t1)).
  pose proof (days_in_month_bounds (year t2) (month t2)).
  apply valid_spec in V1 as ((Vm1 & _) & _). apply valid_spec in V2 as ((Vm2 & _) & _).
  assert (Hd : year t1 = year t2 -> month t1 = month t2 ->
               days_in_month (year t1) (month t1) = days_in_month (year t2) (month t2))
    by (intros -> ->; reflexivity).
  set (F1 := mkDateTime (year t1) (month t1) 15 _ _ _ 0).
  set (L1 := mkDateTime (year t1) (month t1) (days_in_month (year t1) (month t1)) _ _ _ 0).
  set (F2 := mkDateTime (year t2) (month t2) 15 _ _ _ 0).
  set (L2 := mkDateTime (year t2) (month t2) (days_in_month (year t2) (month t2)) _ _ _ 0).
  unfold next_month.
  destruct (leb t1 F1) eqn:A1; [|destruct (leb t1 L1) eqn:A2];
    (destruct (leb t2 F2) eqn:B1; [|destruct (leb t2 L2) eqn:B2]);
    destruct (Z.eqb_spec (month t1) 12); destruct (Z.eqb_spec (month t2) 12);
    cbn [fst snd]; subst F1 L1 F2 L2; order_lia.
Qed.

(** ** MonthlyMultipleDays *)

Section MultipleDays.

Variable self : MonthlyMultipleDays.t.
Hypothesis W : well_formed (TMonthlyMultipleDays self) = true.

Let at_day (p : Z * Z) (d : Z) : DateTime :=
  mkDateTime p.1 p.2 d (MonthlyMultipleDays.hour self) (MonthlyMultipleDays.minute self)
             (MonthlyMultipleDays.second self) 0.

Let days_of (p : Z * Z) : list Z :=
  MonthlyMultipleDays.valid_days_of self (days_in_month p.1 p.2).

Lemma multiple_time :
  valid_time (MonthlyMultipleDays.hour self) (MonthlyMultipleDays.minute self)
             (MonthlyMultipleDays.second self) = true.
Proof. simpl in W. apply andb_true_iff in W. tauto. Qed.

Lemma days_of_In p d : In d (days_of p) -> 1 <= d <= days_in_month p.1 p.2.
Proof.
  unfold days_of, MonthlyMultipleDays.valid_days_of. rewrite filter_In.
  rewrite andb_true_iff, !Z.leb_le. tauto.
Qed.

Lemma days_of_nonempty p : exists d rest, days_of p = d :: rest.
Proof.
  simpl in W. apply andb_true_iff in W as [_ E].
  apply existsb_exists in E as (d & Hin & Hd).
  rewrite andb_true_iff, !Z.leb_le in Hd.
  assert (Hf : In d (days_of p)).
  { unfold days_of, MonthlyMultipleDays.valid_days_of. apply filter_In.
    split; [exact Hin|]. pose proof (days_in_month_bounds p.1 p.2).
    rewrite andb_true_iff, !Z.leb_le. lia. }
  destruct (days_of p) as [|d0 rest]; [destruct Hf|]. eauto.
Qed.

Lemma at_day_datetime p d :
  valid_month p -> 1 <= d <= days_in_month p.1 p.2 ->
  datetime p.1 p.2 d (MonthlyMultipleDays.hour self) (MonthlyMultipleDays.minute self)
           (MonthlyMultipleDays.second self) = Ok (at_day p d).
Proof.
  intros Vp Hd. apply datetime_valid; [|exact multiple_time].
  apply valid_date_spec. unfold valid_month in Vp. lia.
Qed.

Lemma first_candidate_spec t p l :
  valid_month p -> (forall d, In d l -> 1 <= d <= days_in_month p.1 p.2) ->
  exists o, MonthlyMultipleDays.first_candidate self t p.1 p.2 l = Ok o /\
    match o with
    | Some c => le t c /\ exists d, In d l /\ c = at_day p d
    | None => forall d, In d l -> lt (at_day p d) t
    end.
Proof.
  intros Vp. induction l as [|d l IH]; intros Hl.
  - exists None. split; [reflexivity|]. intros d [].
  - cbn [MonthlyMultipleDays.first_candidate].
    rewrite at_day_datetime by (try apply Hl; try left; auto). rewrite bind_Ok.
    destruct (leb t (at_day p d)) eqn:B.
    + exists (Some (at_day p d)). split; [reflexivity|]. split.
      * apply le_lex, leb_le. exact B.
      * exists d. split; [left|]; reflexivity.
    + destruct IH as (o & E & Ho); [intros d' Hd'; apply Hl; right; exact Hd'|].
      exists o. split; [exact E|]. destruct o as [c|].
      * destruct Ho as (L & d' & Hd' & ->). split; [exact L|].
        exists d'. split; [right; exact Hd' | reflexivity].
      * intros d' [<- | Hd']; [|apply Ho; exact Hd'].
        apply lt_lex. apply leb_gt in B. exact B.
Qed.

Lemma first_candidate_mono t1 t2 p l c1 c2 :
  valid_month p -> (forall d, In d l -> 1 <= d <= days_in_month p.1 p.2) ->
  le t1 t2 ->
  MonthlyMultipleDays.first_candidate self t1 p.1 p.2 l = Ok (Some c1) ->
  MonthlyMultipleDays.first_candidate self t2 p.1 p.2 l = Ok (Some c2) ->
  le c1 c2.
Proof.
  intros Vp. induction l as [|d l IH]; intros Hl T; [discriminate|].
  cbn [MonthlyMultipleDays.first_candidate].
  rewrite at_day_datetime by (try apply Hl; try left; auto). rewrite !bind_Ok.
  assert (Hl' : forall d', In d' l -> 1 <= d' <= days_in_month p.1 p.2)
    by (intros d' Hd'; apply Hl; right; exact Hd').
  destruct (leb t1 (at_day p d)) eqn:B1; destruct (leb t2 (at_day p d)) eqn:B2.
  - intros E1 E2. inversion E1. inversion E2. apply le_refl.
  - intros E1 E2. inversion E1. subst c1.
    destruct (first_candidate_spec t2 p l Vp Hl') as (o & E & Ho).
    rewrite E2 in E. inversion E. subst o. destruct Ho as (L & _).
    apply leb_gt, lt_lex in B2. eapply le_trans; [apply lt_le; exact B2 | exact L].
  - intros _ _. exfalso. apply leb_gt, lt_lex in B1. apply leb_le, le_lex in B2.
    apply (proj1 (lt_not_le _ _) B1). eapply le_trans; eassumption.
  - apply IH; assumption.
Qed.

Lemma first_candidate_head t p d l c :
  valid_month p -> (forall d', In d' (d :: l) -> 1 <= d' <= days_in_month p.1 p.2) ->
  MonthlyMultipleDays.first_candidate self t p.1 p.2 (d :: l) = Ok (Some c) ->
  le (at_day p d) c.
Proof.
  intros Vp Hl. cbn [MonthlyMultipleDays.first_candidate].
  rewrite at_day_datetime by (try apply Hl; try left; auto). rewrite bind_Ok.
  destruct (leb t (at_day p d)) eqn:B.
  - intros E. inversion E. apply le_refl.
  - intros E.
    destruct (first_candidate_spec t p l Vp) as (o & E' & Ho);
      [intros d' Hd'; apply Hl; right; exact Hd'|].
    rewrite E in E'. inversion E'. subst o. destruct Ho as (L & _).
    apply leb_gt, lt_lex in B. eapply le_trans; [apply lt_le; exact B | exact L].
Qed.

Lemma following_months_spec fuel p :
  valid_month p -> (1 <= fuel)%nat ->
  exists d rest, days_of (next_month p) = d :: rest /\
    MonthlyMultipleDays.following_months fuel self p.1 p.2 = Ok (at_day (next_month p) d).
Proof.
  intros Vp Hf. destruct fuel as [|fuel]; [lia|].
  destruct (days_of_nonempty (next_month p)) as (d & rest & E).
  exists d, rest. split; [exact E|].
  cbn [MonthlyMultipleDays.following_months].
  pose proof (next_month_valid p Vp) as Vn.
  replace (p.1, p.2) with p by (destruct p; reflexivity).
  destruct (next_month p) as [y' m'] eqn:En.
  rewrite last_date_of_month_spec by exact Vn. rewrite bind_Ok. cbn [day].
  change (MonthlyMultipleDays.valid_days_of self (days_in_month y' m'))
    with (days_of (y', m')). rewrite E.
  apply (at_day_datetime (y', m') d Vn). apply days_of_In. rewrite E. left. reflexivity.
Qed.

(** The result of the search, case by case. *)
Lemma multiple_spec fuel t :
  valid t = true -> (1 <= fuel)%nat ->
  let p := (year t, month t) in
  exists r, MonthlyMultipleDays._get_next_run_date fuel self t = Ok r /\
    ((MonthlyMultipleDays.first_candidate self t p.1 p.2 (days_of p) = Ok (Some r)
      /\ le t r /\ exists d, r = at_day p d)
     \/ (MonthlyMultipleDays.first_candidate self t p.1 p.2 (days_of p) = Ok None
         /\ (forall d, In d (days_of p) -> lt (at_day p d) t)
         /\ exists d rest, days_of (next_month p) = d :: rest
                           /\ r = at_day (next_month p) d)).
Proof.
  intros V Hf p. pose proof V as V'. apply valid_spec in V' as ((Vm & _) & _).
  assert (Vp : valid_month p) by exact Vm.
  unfold MonthlyMultipleDays._get_next_run_date.
  rewrite last_date_of_month_spec by exact Vm. rewrite bind_Ok. cbn [day].
  change (MonthlyMultipleDays.valid_days_of self
            (days_in_month (year t) (month t))) with (days_of p).
  destruct (first_candidate_spec t p (days_of p) Vp (days_of_In p)) as (o & E & Ho).
  change (year t) with p.1. change (month t) with p.2.
  rewrite E, bind_Ok. destruct o as [c|].
  - exists c. split; [reflexivity|]. left. destruct Ho as (L & d & _ & ->).
    split; [reflexivity|]. split; [exact L|]. exists d. reflexivity.
  - destruct (following_months_spec fuel p Vp Hf) as (d & rest & Ed & Ef).
    exists (at_day (next_month p) d). split; [exact Ef|]. right.
    split; [reflexivity|]. split; [exact Ho|]. exists d, rest. auto.
Qed.

Lemma at_day_key_lt a b da db :
  valid_month a -> valid_month b -> month_key a < month_key b ->
  lt (at_day a da) (at_day b db).
Proof.
  destruct a, b. unfold valid_month, month_key, at_day. simpl. intros. order_lia.
Qed.

Lemma at_day_next_after t d :
  valid t = true -> lt t (at_day (next_month (year t, month t)) d).
Proof.
  intros V. apply valid_spec in V as ((Vm & _) & _).
  unfold next_month, at_day. destruct (Z.eqb_spec (month t) 12); simpl; order_lia.
Qed.

Lemma multiple_locate fuel t :
  valid t = true -> (1 <= fuel)%nat ->
  exists r, MonthlyMultipleDays._get_next_run_date fuel self t = Ok r /\ le t r.
Proof.
  intros V Hf. destruct (multiple_spec fuel t V Hf) as (r & E & C).
  exists r. split; [exact E|].
  destruct C as [(_ & L & _) | (_ & _ & d & rest & _ & ->)]; [exact L|].
  apply lt_le, at_day_next_after. exact V.
Qed.

Lemma multiple_mono fuel t1 t2 r1 r2 :
  valid t1 = true -> valid t2 = true -> (1 <= fuel)%nat -> le t1 t2 ->
  MonthlyMultipleDays._get_next_run_date fuel self t1 = Ok r1 ->
  MonthlyMultipleDays._get_next_run_date fuel self t2 = Ok r2 -> le r1 r2.
Proof.
  intros V1 V2 Hf T E1 E2.
  destruct (multiple_spec fuel t1 V1 Hf) as (r1' & E1' & C1).
  destruct (multiple_spec fuel t2 V2 Hf) as (r2' & E2' & C2).
  rewrite E1 in E1'. rewrite E2 in E2'. inversion E1'. inversion E2'. subst r1' r2'.
  clear E1' E2'.
  pose proof V1 as V1'. apply valid_spec in V1' as ((Vm1 & _) & _).
  pose proof V2 as V2'. apply valid_spec in V2' as ((Vm2 & _) & _).
  set (p1 := (year t1, month t1)) in *. set (p2 := (year t2, month t2)) in *.
  assert (Vp1 : valid_month p1) by exact Vm1.
  assert (Vp2 : valid_month p2) by exact Vm2.
  assert (K : month_key p1 <= month_key p2).
  { unfold month_key, p1, p2. simpl. order_lia. }
  assert (Keq : month_key p1 = month_key p2 -> p1 = p2).
  { unfold month_key, p1, p2. simpl. intros. f_equal; lia. }
  pose proof (month_key_next p1 Vp1) as Kn1.
  pose proof (month_key_next p2 Vp2) as Kn2.
  pose proof (next_month_valid p1 Vp1) as Vn1.
  pose proof (next_month_valid p2 Vp2) as Vn2.
  destruct C1 as [(F1 & L1 & d1 & R1) | (F1 & N1 & d1 & rest1 & D1 & R1)];
    destruct C2 as [(F2 & L2 & d2 & R2) | (F2 & N2 & d2 & rest2 & D2 & R2)].
  - destruct (Z.eq_dec (month_key p1) (month_key p2)) as [Ek | Nk].
    + rewrite <- (Keq Ek) in F2.
      exact (first_candidate_mono t1 t2 p1 _ r1 r2 Vp1 (days_of_In p1) T F1 F2).
    + subst r1 r2. apply lt_le, at_day_key_lt; try assumption. lia.
  - subst r1 r2. apply lt_le, at_day_key_lt; try assumption. lia.
  - destruct (Z.eq_dec (month_key p1) (month_key p2)) as [Ek | Nk].
    + exfalso. rewrite <- (Keq Ek) in *. subst r2.
      destruct (first_candidate_spec t2 p1 (days_of p1) Vp1 (days_of_In p1)) as (o & E & Ho).
      rewrite F2 in E. inversion E. subst o. destruct Ho as (L & d & Hd & Ed).
      specialize (N1 d Hd). rewrite <- Ed in N1.
      apply (proj1 (lt_not_le _ _) N1). eapply le_trans; eassumption.
    + destruct (Z.eq_dec (month_key (next_month p1)) (month_key p2)) as [Ek | Nk'].
      * assert (En : next_month p1 = p2).
        { destruct (next_month p1), p2. unfold month_key, valid_month in *. simpl in *.
          f_equal; lia. }
        rewrite En in *. subst r1. rewrite D1 in F2.
        apply (first_candidate_head t2 p2 d1 rest1 r2 Vp2); [|exact F2].
        intros d' Hd'. apply days_of_In. rewrite D1. exact Hd'.
      * subst r1 r2. apply lt_le, at_day_key_lt; try assumption. lia.
  - subst r1 r2.
    destruct (Z.eq_dec (month_key p1) (month_key p2)) as [Ek | Nk].
    + rewrite <- (Keq Ek) in *. rewrite D1 in D2. inversion D2. apply le_refl.
    + apply lt_le, at_day_key_lt; try assumption. lia.
Qed.

Lemma multiple_manual fuel t :
  valid t = true -> (1 <= fuel)%nat ->
  exists iv, MonthlyMultipleDays.infer_manual_data_interval fuel self t = Ok iv.
Proof.
  intros V Hf. destruct (multiple_locate fuel t V Hf) as (r & E & _).
  unfold MonthlyMultipleDays.infer_manual_data_interval. rewrite E, bind_Ok. eauto.
Qed.

End MultipleDays.

(** ** BiweeklyOnDay *)

Lemma datetime_Ok_valid y m d h mi s r :
  datetime y m d h mi s = Ok r -> valid r = true.
Proof.
  intros E. apply datetime_Ok in E as (Vd & Vt & ->).
  unfold valid. simpl. rewrite Vd, Vt. reflexivity.
Qed.

Lemma parse_Ok_valid s a : parse s = Ok a -> valid a = true.
Proof.
  unfold parse. intros E.
  repeat match type of E with
         | match ?x with _ => _ end = _ => destruct x; try discriminate
         | (if ?x then _ else _) = _ => destruct x; try discriminate
         end.
  eapply datetime_Ok_valid. exact E.
Qed.

Lemma biweekly_stamp_ge F A : A <= biweekly_stamp F A.
Proof.
  unfold biweekly_stamp. destruct (Z.ltb_spec A F); [lia|].
  Z.div_mod_to_equations. lia.
Qed.

Lemma biweekly_stamp_mono F A1 A2 :
  A1 <= A2 -> biweekly_stamp F A1 <= biweekly_stamp F A2.
Proof.
  intros H. unfold biweekly_stamp.
  destruct (Z.ltb_spec A1 F), (Z.ltb_spec A2 F); try lia.
  - Z.div_mod_to_equations. lia.
  - Z.div_mod_to_equations. lia.
Qed.

Lemma add_spec dt d h mi s :
  valid dt = true ->
  valid (add dt d h mi s) = true /\
  stamp (add dt d h mi s) = stamp dt + d * 86400000000 + (h * 3600 + mi * 60 + s) * 1000000.
Proof.
  intros V. unfold add.
  pose proof (add_days_valid dt d V) as Vd.
  destruct (add_seconds_spec (add_days dt d) (h * 3600 + mi * 60 + s) Vd) as (Vs & Ss).
  split; [exact Vs|]. rewrite Ss, stamp_add_days; [lia|].
  apply valid_spec in V. tauto.
Qed.

Lemma add_weeks_spec dt w :
  valid dt = true ->
  valid (add_weeks dt w) = true /\ stamp (add_weeks dt w) = stamp dt + w * 7 * 86400000000.
Proof.
  intros V. unfold add_weeks. split; [apply add_days_valid; exact V|].
  rewrite stamp_add_days; [lia|]. apply valid_spec in V. tauto.
Qed.

Lemma BiweeklyOnDay_stamp self :
  well_formed (TBiweeklyOnDay self) = true ->
  exists first, valid first = true /\
    forall t, valid t = true ->
    exists r, BiweeklyOnDay._get_next_biweekly self t = Ok r /\ valid r = true /\
              stamp r = biweekly_stamp (stamp first) (stamp t).
Proof.
  intros W. wf_split W. unfold parses in W0.
  destruct (parse (BiweeklyOnDay.anchor_date self)) as [anchor| |] eqn:Ep; try discriminate.
  pose proof (parse_Ok_valid _ _ Ep) as Va.
  set (k := (BiweeklyOnDay.weekday self - day_of_week anchor + 7) mod 7).
  destruct (replace_spec (add_days anchor k) _ _ _ (add_days_valid anchor k Va) W)
    as (first & Ef & Vf & _).
  exists first. split; [exact Vf|]. intros t Vt.
  unfold BiweeklyOnDay._get_next_biweekly. rewrite Ep, bind_Ok. fold k.
  rewrite Ef, bind_Ok. unfold biweekly_stamp.
  rewrite (ltb_stamp t first Vt Vf).
  destruct (Z.ltb_spec (stamp t) (stamp first)) as [L | L].
  - exists first. auto.
  - destruct (add_spec first 13 23 59 59 Vf) as (V13 & S13).
    rewrite (leb_stamp t _ Vt V13), S13. unfold diff_days.
    set (cycles := (stamp t - stamp first) / 86400000000 / 14
                   + (if stamp t <=? _ then 0 else 1)).
    destruct (add_weeks_spec first (cycles * 2) Vf) as (Vn & Sn).
    rewrite (leb_stamp _ t Vn Vt), Sn.
    destruct (add_weeks_spec (add_weeks first (cycles * 2)) 2 Vn) as (Vn2 & Sn2).
    eexists. split; [reflexivity|].
    destruct (Z.leb_spec (stamp first + cycles * 2 * 7 * 86400000000) (stamp t)) as [C | C].
    + split; [exact Vn2|]. rewrite Sn2, Sn. subst cycles.
      destruct (Z.leb_spec (stamp t)
                  (stamp first + 13 * 86400000000 + (23 * 3600 + 59 * 60 + 59) * 1000000));
        Z.div_mod_to_equations; lia.
    + split; [exact Vn|]. rewrite Sn. subst cycles.
      destruct (Z.leb_spec (stamp t)
                  (stamp first + 13 * 86400000000 + (23 * 3600 + 59 * 60 + 59) * 1000000));
        Z.div_mod_to_equations; lia.
Qed.

Lemma BiweeklyOnDay_locate self t :
  well_formed (TBiweeklyOnDay self) = true -> valid t = true ->
  exists r, BiweeklyOnDay._get_next_biweekly self t = Ok r /\ le t r.
Proof.
  intros W V. destruct (BiweeklyOnDay_stamp self W) as (first & Vf & H).
  destruct (H t V) as (r & E & Vr & S). exists r. split; [exact E|].
  apply le_stamp; [assumption..|]. rewrite S. apply biweekly_stamp_ge.
Qed.

Lemma BiweeklyOnDay_mono self t1 t2 r1 r2 :
  well_formed (TBiweeklyOnDay self) = true ->
  valid t1 = true -> valid t2 = true -> le t1 t2 ->
  BiweeklyOnDay._get_next_biweekly self t1 = Ok r1 ->
  BiweeklyOnDay._get_next_biweekly self t2 = Ok r2 -> le r1 r2.
Proof.
  intros W V1 V2 T E1 E2. destruct (BiweeklyOnDay_stamp self W) as (first & Vf & H).
  destruct (H t1 V1) as (r1' & E1' & Vr1 & S1).
  destruct (H t2 V2) as (r2' & E2' & Vr2 & S2).
  rewrite E1 in E1'. rewrite E2 in E2'. inversion E1'. inversion E2'. subst r1' r2'.
  apply le_stamp; [assumption..|]. rewrite S1, S2.
  apply biweekly_stamp_mono. apply le_stamp; assumption.
Qed.

(** ** EveryNInterval *)

Lemma midnight_valid t : valid t = true -> valid (midnight t) = true.
Proof.
  rewrite !valid_spec. unfold valid_day, midnight. simpl. intros (D & _ & _).
  repeat split; try lia; apply D.
Qed.

Lemma stamp_midnight t : stamp (midnight t) = toordinal t * 86400000000.
Proof. unfold stamp, midnight, toordinal. simpl. lia. Qed.

Lemma minutes_since_midnight t :
  valid t = true -> diff_total_minutes t (midnight t) = hour t * 60 + minute t.
Proof.
  intros V. unfold diff_total_minutes. rewrite stamp_midnight.
  destruct (stamp_time_of_day t V) as (x & -> & Hx & Ex).
  apply valid_spec in V as (_ & T & U).
  rewrite Z.quot_div_nonneg by lia.
  replace (toordinal t * 86400000000 + x - toordinal t * 86400000000) with x by lia.
  subst x. Z.div_mod_to_equations. lia.
Qed.

Lemma add_minutes_spec dt n :
  valid dt = true ->
  valid (add_minutes dt n) = true /\ stamp (add_minutes dt n) = stamp dt + n * 60000000.
Proof.
  intros V. unfold add_minutes. destruct (add_seconds_spec dt (60 * n) V) as (V' & S).
  split; [exact V' | lia].
Qed.

Lemma grid_point_spec total t k :
  valid t = true ->
  valid (grid_point total t k) = true /\
  stamp (grid_point total t k) = toordinal t * 86400000000 + k * total * 60000000.
Proof.
  intros V. unfold grid_point.
  destruct (add_minutes_spec (midnight t) (k * total) (midnight_valid t V)) as (V' & S).
  split; [exact V'|]. rewrite S, stamp_midnight. lia.
Qed.

Lemma grid_floor_spec total t :
  valid t = true ->
  EveryNInterval.grid_floor total t =
  Ok (grid_point total t ((hour t * 60 + minute t) / total)).
Proof.
  intros V. unfold EveryNInterval.grid_floor.
  change (replace t 0 0 0) with (Ok (midnight t)). rewrite bind_Ok.
  rewrite minutes_since_midnight by assumption. reflexivity.
Qed.

Lemma grid_point_step total t k :
  valid t = true -> add_minutes (grid_point total t k) total = grid_point total t (k + 1).
Proof.
  intros V. destruct (grid_point_spec total t k V) as (Vk & Sk).
  destruct (grid_point_spec total t (k + 1) V) as (Vk1 & Sk1).
  destruct (add_minutes_spec _ total Vk) as (Va & Sa).
  apply stamp_inj; [assumption..|]. rewrite Sa, Sk, Sk1. lia.
Qed.

(** The search returns the first grid point at or after its argument. *)
Lemma EveryNInterval_first total t :
  0 < total -> valid t = true ->
  exists g, EveryNInterval.locate_next total t = Ok g /\ valid g = true /\
            first_grid_point_from total t g.
Proof.
  intros Ht V. unfold EveryNInterval.locate_next.
  rewrite grid_floor_spec by assumption. rewrite bind_Ok.
  set (q := (hour t * 60 + minute t) / total).
  destruct (grid_point_spec total t q V) as (Vq & Sq).
  destruct (grid_point_spec total t (q + 1) V) as (Vq1 & Sq1).
  destruct (grid_point_spec total t (q - 1) V) as (Vq0 & Sq0).
  destruct (stamp_time_of_day t V) as (x & St & Hx & Ex).
  pose proof V as V'. apply valid_spec in V' as (_ & T & U).
  assert (Hq : q * total <= hour t * 60 + minute t < q * total + total).
  { subst q. Z.div_mod_to_equations. nia. }
  rewrite grid_point_step by assumption.
  rewrite (ltb_stamp _ t Vq V).
  destruct (Z.ltb_spec (stamp (grid_point total t q)) (stamp t)) as [L | L].
  - exists (grid_point total t (q + 1)). split; [reflexivity|]. split; [exact Vq1|].
    exists (q + 1). split; [reflexivity|]. split.
    + apply le_stamp; [assumption..|]. rewrite Sq1. nia.
    + replace (q + 1 - 1) with q by lia. apply lt_stamp; assumption.
  - exists (grid_point total t q). split; [reflexivity|]. split; [exact Vq|].
    exists q. split; [reflexivity|]. split.
    + apply le_stamp; assumption.
    + apply lt_stamp; [assumption..|]. rewrite Sq0. nia.
Qed.

Lemma EveryNInterval_locate total t :
  0 < total -> valid t = true ->
  exists g, EveryNInterval.locate_next total t = Ok g /\ le t g.
Proof.
  intros Ht V. destruct (EveryNInterval_first total t Ht V) as (g & E & _ & k & _ & L & _).
  eauto.
Qed.

(** Without the sign condition the search still returns. *)
Lemma EveryNInterval_total total t :
  valid t = true ->
  exists g, EveryNInterval.locate_next total t = Ok g /\ valid g = true.
Proof.
  intros V. unfold EveryNInterval.locate_next.
  rewrite grid_floor_spec by assumption. rewrite bind_Ok.
  set (q := (hour t * 60 + minute t) / total).
  destruct (grid_point_spec total t q V) as (Vq & _).
  destruct (grid_point_spec total t (q + 1) V) as (Vq1 & _).
  rewrite grid_point_step by assumption.
  destruct (ltb _ t); eauto.
Qed.

Lemma EveryNInterval_mono total t1 t2 g1 g2 :
  0 < total -> 1440 mod total = 0 ->
  valid t1 = true -> valid t2 = true -> le t1 t2 ->
  EveryNInterval.locate_next total t1 = Ok g1 ->
  EveryNInterval.locate_next total t2 = Ok g2 -> le g1 g2.
Proof.
  intros Ht Hp V1 V2 T E1 E2.
  destruct (EveryNInterval_first total t1 Ht V1) as (g1' & E1' & Vg1 & k1 & G1 & L1 & P1).
  destruct (EveryNInterval_first total t2 Ht V2) as (g2' & E2' & Vg2 & k2 & G2 & L2 & P2).
  assert (Q1 : g1' = g1) by congruence. assert (Q2 : g2' = g2) by congruence.
  rewrite Q1 in *. rewrite Q2 in *. clear E1' E2' Q1 Q2.
  destruct (grid_point_spec total t1 k1 V1) as (_ & S1).
  destruct (grid_point_spec total t1 (k1 - 1) V1) as (V10 & S10).
  destruct (grid_point_spec total t2 k2 V2) as (_ & S2).
  rewrite <- G1 in S1. rewrite <- G2 in S2.
  apply (le_stamp t1 t2 V1 V2) in T. apply (le_stamp t2 g2 V2 Vg2) in L2.
  apply (lt_stamp _ t1 V10 V1) in P1. rewrite S10 in P1.
  apply le_stamp; [assumption..|]. rewrite S1, S2 in *.
  assert (Hj : 1440 = total * (1440 / total)) by (Z.div_mod_to_equations; lia).
  set (j := 1440 / total) in *.
  set (T60 := total * 60000000).
  assert (HT : 0 < T60) by (unfold T60; lia).
  assert (A1 : toordinal t1 * 86400000000 + k1 * total * 60000000
               = T60 * (toordinal t1 * j + k1)).
  { unfold T60. replace 86400000000 with (1440 * 60000000) by lia. rewrite Hj at 1. ring. }
  assert (A2 : toordinal t2 * 86400000000 + k2 * total * 60000000
               = T60 * (toordinal t2 * j + k2)).
  { unfold T60. replace 86400000000 with (1440 * 60000000) by lia. rewrite Hj at 1. ring. }
  assert (A0 : toordinal t1 * 86400000000 + (k1 - 1) * total * 60000000
               = T60 * (toordinal t1 * j + k1 - 1)).
  { unfold T60. replace 86400000000 with (1440 * 60000000) by lia. rewrite Hj at 1. ring. }
  rewrite A1, A2 in *. rewrite A0 in P1.
  apply Z.mul_le_mono_nonneg_l; [lia|].
  assert (T60 * (toordinal t1 * j + k1 - 1) < T60 * (toordinal t2 * j + k2)) by lia.
  apply Z.mul_lt_mono_pos_l in H; lia.
Qed.

Lemma EveryNInterval_manual self t :
  well_formed (TEveryNInterval self) = true -> valid t = true ->
  exists iv, EveryNInterval.infer_manual_data_interval self t = Ok iv.
Proof.
  intros W V. unfold EveryNInterval.infer_manual_data_interval.
  simpl in W. apply negb_true_iff in W. rewrite W.
  rewrite grid_floor_spec by assumption. rewrite bind_Ok. eauto.
Qed.

(** ** The baseline *)

Lemma max_valid a b : valid a = true -> valid b = true -> valid (max a b) = true.
Proof. intros Va Vb. unfold max. destruct (ltb a b); assumption. Qed.

Lemma max_ge_r a b : le b (max a b).
Proof.
  unfold max. destruct (ltb a b) eqn:B; [apply le_refl|].
  apply le_lex. apply ltb_nlt in B. exact B.
Qed.

Lemma max_ge_l a b : le a (max a b).
Proof.
  unfold max. destruct (ltb a b) eqn:B; [|apply le_refl].
  apply lt_le, lt_lex, ltb_lt. exact B.
Qed.

Lemma resolve_after_valid now last restriction :
  valid now = true -> valid_last last = true -> valid_restriction restriction = true ->
  valid (resolve_after now last restriction) = true.
Proof.
  intros Vn Vl Vr. unfold resolve_after.
  apply andb_true_iff in Vr as [Ve _].
  assert (Vb : valid (default now (earliest restriction)) = true)
    by (destruct (earliest restriction); simpl in *; assumption).
  destruct last as [iv|].
  - simpl in Vl. apply andb_true_iff in Vl as [_ Vend].
    destruct (negb (catchup restriction) && ltb (end_ iv) now); assumption.
  - destruct (catchup restriction); [assumption | apply max_valid; assumption].
Qed.

(** With catch-up disabled the search never starts before the clock. *)
Lemma resolve_after_catchup now last restriction :
  catchup restriction = false -> le now (resolve_after now last restriction).
Proof.
  intros C. unfold resolve_after. rewrite C. simpl. destruct last as [iv|].
  - destruct (ltb (end_ iv) now) eqn:B; [apply le_refl|].
    apply le_lex. apply ltb_nlt in B. exact B.
  - apply max_ge_r.
Qed.

(** ** Every variant at once *)

Lemma search_from_occ {St : Type} fuel (occ : St -> result DateTime) step after s r :
  search_from fuel occ step after s = Ok r -> exists s', occ s' = Ok r /\ le after r.
Proof.
  revert s. induction fuel as [|fuel IH]; intros s; simpl; [discriminate|].
  destruct (occ s) as [d| |] eqn:E; simpl; try discriminate.
  destruct (leb after d) eqn:B.
  - intros H. inversion H. subst d. exists s. split; [exact E|].
    apply le_lex, leb_le. exact B.
  - apply IH.
Qed.

(** No-skip for every well-formed variant but WeeklyOnDay. *)
Lemma locate_next_total fuel tt t :
  well_formed tt = true -> (28 <= fuel)%nat -> valid t = true ->
  exists r, locate_next fuel tt t = Ok r.
Proof.
  intros W F V. destruct tt as [r|r|r|r|r|r|r|r|r|r|r|r|r|r|r]; cbn [locate_next].
  - destruct (MonthlyLastDay_locate fuel r t W V F) as (x & E & _); eauto.
  - destruct (MonthlyOnDay_locate fuel r t W V F) as (x & E & _); eauto.
  - destruct (multiple_locate r W fuel t V ltac:(lia)) as (x & E & _); eauto.
  - destruct (QuarterlyFirstDay_locate fuel r t W V F) as (x & E & _); eauto.
  - destruct (QuarterlyLastDay_locate fuel r t W V F) as (x & E & _); eauto.
  - destruct (YearlyFirstDay_locate fuel r t W F) as (x & E & _); eauto.
  - destruct (YearlyWeekdayOccurrence_locate fuel r t W F) as (x & E & _); eauto.
  - apply WeeklyOnDay_locate; assumption.
  - destruct (BiweeklyOnDay_locate r t W V) as (x & E & _); eauto.
  - destruct (SemiMonthly_locate r t W V) as (x & E & _); eauto.
  - destruct (MonthlyWeekdayOccurrence_locate fuel r t W V F) as (x & E & _); eauto.
  - destruct (EveryNDays_locate r t W V) as (x & E & _); eauto.
  - destruct (BusinessDayOfMonth_locate fuel r t W V F) as (x & E & _); eauto.
  - destruct (MonthlyLastDayExceptWeekend_locate fuel r t W V F) as (x & E & _); eauto.
  - simpl in W. apply negb_true_iff in W. rewrite W.
    destruct (EveryNInterval_total (EveryNInterval.total_minutes r) t V) as (g & E & _).
    eauto.
Qed.

Lemma locate_next_no_skip fuel tt t r :
  well_formed tt = true -> (28 <= fuel)%nat -> valid t = true ->
  match tt with
  | TWeeklyOnDay _ => False
  | TEveryNInterval x => 0 < EveryNInterval.total_minutes x
  | _ => True
  end ->
  locate_next fuel tt t = Ok r -> le t r.
Proof.
  intros W F V Hv E.
  assert (H : exists x, locate_next fuel tt t = Ok x /\ le t x).
  { destruct tt as [c|c|c|c|c|c|c|c|c|c|c|c|c|c|c]; cbn [locate_next] in *.
    - apply MonthlyLastDay_locate; assumption.
    - apply MonthlyOnDay_locate; assumption.
    - apply multiple_locate; [assumption.. | lia].
    - apply QuarterlyFirstDay_locate; assumption.
    - apply QuarterlyLastDay_locate; assumption.
    - apply YearlyFirstDay_locate; assumption.
    - apply YearlyWeekdayOccurrence_locate; assumption.
    - destruct Hv.
    - apply BiweeklyOnDay_locate; assumption.
    - apply SemiMonthly_locate; assumption.
    - apply MonthlyWeekdayOccurrence_locate; assumption.
    - apply EveryNDays_locate; assumption.
    - apply BusinessDayOfMonth_locate; assumption.
    - apply MonthlyLastDayExceptWeekend_locate; assumption.
    - simpl in W. apply negb_true_iff in W. rewrite W.
      apply EveryNInterval_locate; assumption. }
  destruct H as (x & E' & L). rewrite E in E'. inversion E'. subst x. exact L.
Qed.

Lemma infer_manual_total fuel tt t :
  well_formed tt = true -> (28 <= fuel)%nat -> valid t = true ->
  exists iv, infer_manual_data_interval fuel tt t = Ok iv.
Proof.
  intros W F V.
  destruct tt as [r|r|r|r|r|r|r|r|r|r|r|r|r|r|r]; cbn [infer_manual_data_interval].
  - destruct (MonthlyLastDay_manual r t W V) as (x & E & _); eauto.
  - destruct (MonthlyOnDay_manual r t W V) as (x & E & _); eauto.
  - apply multiple_manual; [assumption.. | lia].
  - apply QuarterlyFirstDay_manual; assumption.
  - apply QuarterlyLastDay_manual; assumption.
  - destruct (YearlyFirstDay_manual r t W) as (x & E & _); eauto.
  - destruct (YearlyWeekdayOccurrence_manual fuel r t W F) as (x & E & _); eauto.
  - destruct (WeeklyOnDay_locate r t W) as (x & E).
    unfold WeeklyOnDay.infer_manual_data_interval. rewrite E, bind_Ok. eauto.
  - destruct (BiweeklyOnDay_locate r t W V) as (x & E & _).
    unfold BiweeklyOnDay.infer_manual_data_interval. rewrite E, bind_Ok. eauto.
  - destruct (SemiMonthly_locate r t W V) as (x & E & _).
    unfold SemiMonthly.infer_manual_data_interval. rewrite E, bind_Ok. eauto.
  - destruct (MonthlyWeekdayOccurrence_manual fuel r t W F V) as (x & E & _); eauto.
  - destruct (EveryNDays_manual fuel r t W V F) as (x & E & _); eauto.
  - destruct (BusinessDayOfMonth_manual fuel r t W F V) as (x & E & _); eauto.
  - destruct (MonthlyLastDayExceptWeekend_manual fuel r t W F V) as (x & E & _); eauto.
  - apply EveryNInterval_manual; assumption.
Qed.

Ltac unfold_next_dagrun_info :=
  try unfold MonthlyLastDay.next_dagrun_info; try unfold MonthlyOnDay.next_dagrun_info;
  try unfold MonthlyMultipleDays.next_dagrun_info;
  try unfold QuarterlyFirstDay.next_dagrun_info;
  try unfold QuarterlyLastDay.next_dagrun_info; try unfold YearlyFirstDay.next_dagrun_info;
  try unfold YearlyWeekdayOccurrence.next_dagrun_info;
  try unfold WeeklyOnDay.next_dagrun_info; try unfold BiweeklyOnDay.next_dagrun_info;
  try unfold SemiMonthly.next_dagrun_info;
  try unfold MonthlyWeekdayOccurrence.next_dagrun_info;
  try unfold EveryNDays.next_dagrun_info; try unfold BusinessDayOfMonth.next_dagrun_info;
  try unfold MonthlyLastDayExceptWeekend.next_dagrun_info.

(** [next_dagrun_info] is the clock read, the baseline, the search and the
    decision, in that order. *)
Lemma next_dagrun_info_raise fuel tt clock last restriction e :
  is_EveryNInterval tt = false -> clock_read tt clock = Raise e ->
  next_dagrun_info fuel tt clock last restriction = Raise e.
Proof.
  intros N. unfold clock_read.
  destruct tt; try discriminate; cbn [reads_pendulum_now next_dagrun_info];
    try discriminate;
    unfold_next_dagrun_info;
    intros ->; reflexivity.
Qed.

Lemma next_dagrun_info_Ok fuel tt clock last restriction now start :
  is_EveryNInterval tt = false -> clock_read tt clock = Ok now ->
  locate_next fuel tt (resolve_after now last restriction) = Ok start ->
  exists o, next_dagrun_info fuel tt clock last restriction = Ok o.
Proof.
  intros N. unfold clock_read.
  destruct tt; try discriminate; cbn [reads_pendulum_now next_dagrun_info locate_next];
    intros C L;
    unfold_next_dagrun_info;
    try (inversion C; subst now); try rewrite C; try rewrite bind_Ok;
    cbv zeta; rewrite L, bind_Ok; try destruct (past_latest restriction start); eauto.
Qed.

Lemma next_dagrun_info_inv fuel tt clock last restriction info :
  is_EveryNInterval tt = false ->
  next_dagrun_info fuel tt clock last restriction = Ok (Some info) ->
  exists now, clock_read tt clock = Ok now /\
    locate_next fuel tt (resolve_after now last restriction) = Ok (start_of info).
Proof.
  intros N. unfold clock_read.
  destruct tt; try discriminate; cbn [reads_pendulum_now next_dagrun_info locate_next];
    unfold_next_dagrun_info;
    cbv zeta; intros E;
    try match type of E with
        | datetime_now _ ≫= _ = _ => apply bind_Ok_inv in E as (now & C & E)
        end;
    apply bind_Ok_inv in E as (st & L & E);
    try (destruct (past_latest restriction st); try discriminate);
    inversion E; subst info; eexists; (split; [first [exact C | reflexivity] | exact L]).
Qed.

(** * The claims *)

(** ** Termination *)

Lemma clock_read_valid tt clock now :
  valid_clock clock = true -> clock_read tt clock = Ok now -> valid now = true.
Proof.
  unfold valid_clock, clock_read. intros V E. apply andb_true_iff in V as [Vp Vd].
  destruct (reads_pendulum_now tt).
  - inversion E. subst now. exact Vp.
  - rewrite E in Vd. exact Vd.
Qed.

Lemma clock_read_not_OutOfFuel tt clock :
  valid_clock clock = true -> clock_read tt clock <> OutOfFuel.
Proof.
  unfold valid_clock, clock_read. intros V. apply andb_true_iff in V as [_ Vd].
  destruct (reads_pendulum_now tt); [discriminate|].
  destruct (datetime_now clock); discriminate.
Qed.

Lemma EveryNInterval_next_total self clock last restriction :
  well_formed (TEveryNInterval self) = true ->
  valid_clock clock = true -> valid_restriction restriction = true ->
  exists o, EveryNInterval.next_dagrun_info self clock last restriction = Ok o.
Proof.
  intros W Vc Vr. unfold EveryNInterval.next_dagrun_info. cbv zeta.
  simpl in W. apply negb_true_iff in W. rewrite W.
  apply andb_true_iff in Vc as [Vn _].
  pose proof (resolve_after_valid (pendulum_now clock) None restriction Vn eq_refl Vr) as Vb.
  unfold resolve_after in Vb.
  destruct (EveryNInterval_total (EveryNInterval.total_minutes self) _ Vb) as (g & E & _).
  rewrite E, bind_Ok. destruct (past_latest restriction _); eauto.
Qed.



Lemma following_months_empty fuel (self : MonthlyMultipleDays.t) y m :
  MonthlyMultipleDays.days self = [] -> 1 <= m <= 12 ->
  MonthlyMultipleDays.following_months fuel self y m = OutOfFuel.
Proof.
  intros E. revert y m. induction fuel as [|fuel IH]; intros y m Hm; [reflexivity|].
  cbn [MonthlyMultipleDays.following_months].
  pose proof (next_month_valid (y, m) Hm) as Vn.
  destruct (next_month (y, m)) as [y' m'].
  rewrite last_date_of_month_spec by exact Vn. rewrite bind_Ok.
  unfold MonthlyMultipleDays.valid_days_of. rewrite E. cbn [List.filter].
  apply IH. exact Vn.
Qed.


(** ** Monotonicity *)

(** Two searches that both return are ordered as their starting instants. *)
Lemma locate_next_mono (tt : Timetable) (fuel : nat) (t1 t2 r1 r2 : DateTime) :
  well_formed tt = true -> monotone_variant tt = true -> (28 <= fuel)%nat ->
  valid t1 = true -> valid t2 = true -> le t1 t2 ->
  locate_next fuel tt t1 = Ok r1 -> locate_next fuel tt t2 = Ok r2 ->
  le r1 r2.
Proof.
  intros W M F V1 V2 T.
  destruct tt as [c|c|c|c|c|c|c|c|c|c|c|c|c|c|c]; cbn [locate_next]; try discriminate.
  - apply MonthlyLastDay_mono; assumption.
  - apply MonthlyOnDay_mono; assumption.
  - apply multiple_mono; [assumption.. | lia | assumption].
  - apply QuarterlyFirstDay_mono; assumption.
  - apply QuarterlyLastDay_mono; assumption.
  - apply YearlyFirstDay_mono; assumption.
  - apply YearlyWeekdayOccurrence_mono; assumption.
  - apply BiweeklyOnDay_mono; assumption.
  - apply SemiMonthly_mono; assumption.
  - apply MonthlyWeekdayOccurrence_mono; assumption.
  - apply EveryNDays_mono; assumption.
  - apply BusinessDayOfMonth_mono; assumption.
  - apply MonthlyLastDayExceptWeekend_mono; assumption.
  - simpl in M. unfold grid_periodic in M.
    apply andb_true_iff in M as [Hp Hd]. apply Z.ltb_lt in Hp. apply Z.eqb_eq in Hd.
    destruct (Z.eqb_spec (EveryNInterval.total_minutes c) 0); [lia|].
    apply EveryNInterval_mono; assumption.
Qed.

(** C6 (amended).  For every native variant other than WeeklyOnDay with a
    well-formed configuration whose zone is the zone of the instants
    searched from (UTC), and for EveryNInterval when its positive interval
    divides the day, the searches from two instants [t1 <= t2] both return,
    and the occurrence located from [t2] is not before the one located from
    [t1]. *)
Theorem search_is_monotone (tt : Timetable) (fuel : nat) (t1 t2 : DateTime) :
  in_utc tt = true ->
  well_formed tt = true -> monotone_variant tt = true -> (28 <= fuel)%nat ->
  valid t1 = true -> valid t2 = true -> le t1 t2 ->
  exists r1 r2,
    locate_next fuel tt t1 = Ok r1 /\ locate_next fuel tt t2 = Ok r2 /\ le r1 r2.
Proof.
  intros _ W M F V1 V2 T.
  destruct (locate_next_total fuel tt t1 W F V1) as (r1 & E1).
  destruct (locate_next_total fuel tt t2 W F V2) as (r2 & E2).
  exists r1, r2. split; [exact E1|]. split; [exact E2|].
  exact (locate_next_mono tt fuel t1 t2 r1 r2 W M F V1 V2 T E1 E2).
Qed.

Lemma search_is_monotone_witness :
  exists r1 r2,
    locate_next 28 (TMonthlyLastDay (MonthlyLastDay.mk "UTC" 18 30 0))
                (mkDateTime 2024 2 10 0 0 0 0) = Ok r1 /\
    locate_next 28 (TMonthlyLastDay (MonthlyLastDay.mk "UTC" 18 30 0))
                (mkDateTime 2024 3 1 0 0 0 0) = Ok r2 /\
    le r1 r2.
Proof.
  apply (search_is_monotone (TMonthlyLastDay (MonthlyLastDay.mk "UTC" 18 30 0)) 28
           (mkDateTime 2024 2 10 0 0 0 0) (mkDateTime 2024 3 1 0 0 0 0)).
  - reflexivity.
  - reflexivity.
  - reflexivity.
  - lia.
  - reflexivity.
  - reflexivity.
  - reflexivity.
Defined.

(** C6, as stated, fails by design for EveryNInterval: the grid is anchored
    at each midnight, so with a 7-hour interval the search from 22:00
    overshoots into the next day (04:00) while the search from the next
    midnight restarts the grid (00:00). *)
Lemma every_n_interval_not_monotone :
  let tt := TEveryNInterval (EveryNInterval.mk 0 7 "UTC") in
  le (mkDateTime 2024 1 1 22 0 0 0) (mkDateTime 2024 1 2 0 0 0 0) /\
  locate_next 28 tt (mkDateTime 2024 1 1 22 0 0 0) = Ok (mkDateTime 2024 1 2 4 0 0 0) /\
  locate_next 28 tt (mkDateTime 2024 1 2 0 0 0 0) = Ok (mkDateTime 2024 1 2 0 0 0 0) /\
  lt (mkDateTime 2024 1 2 0 0 0 0) (mkDateTime 2024 1 2 4 0 0 0).
Proof. repeat split. Qed.

(** ** Weekend avoidance *)

Lemma replace_day_of_week dt h mi s r :
  replace dt h mi s = Ok r -> day_of_week r = day_of_week dt.
Proof. intros E. apply replace_Ok in E as (_ & ->). apply day_of_week_date; reflexivity. Qed.

Lemma business_day_is_weekday fuel self y m r :
  BusinessDayOfMonth._get_nth_business_day fuel self y m = Ok r ->
  0 <= day_of_week r <= 4.
Proof.
  unfold BusinessDayOfMonth._get_nth_business_day. intros E.
  apply bind_Ok_inv in E as (dt & S & R).
  apply replace_day_of_week in R. pose proof (day_of_week_range r).
  assert (H5 : (day_of_week dt <? 5) = true).
  { destruct (0 <? BusinessDayOfMonth.n self);
      apply bind_Ok_inv in S as (d0 & _ & S).
    - exact (scan_forward_hit _ _ _ _ _ _ S).
    - exact (scan_backward_hit _ _ _ _ _ _ S). }
  apply Z.ltb_lt in H5. lia.
Qed.

Lemma skip_weekend_is_weekday fuel dt r :
  MonthlyLastDayExceptWeekend.skip_weekend fuel dt = Ok r -> day_of_week r <= 4.
Proof.
  revert dt. induction fuel as [|fuel IH]; intros dt; simpl; [discriminate|].
  destruct (Z.ltb_spec 4 (day_of_week dt)); [apply IH|].
  intros E. inversion E. subst r. lia.
Qed.

Lemma last_day_except_weekend_is_weekday fuel self y m r :
  MonthlyLastDayExceptWeekend._get_last_day fuel self y m = Ok r ->
  0 <= day_of_week r <= 4.
Proof.
  unfold MonthlyLastDayExceptWeekend._get_last_day. intros E.
  apply bind_Ok_inv in E as (d0 & _ & E). apply bind_Ok_inv in E as (dt & S & R).
  apply replace_day_of_week in R. apply skip_weekend_is_weekday in S.
  pose proof (day_of_week_range r). lia.
Qed.

(** The start of a manual interval of the month-searching classes is an
    occurrence of some month. *)
Lemma month_manual_occ (occ : Z * Z -> result DateTime) t iv :
  (occ (year t, month t) ≫= fun d =>
     (if ltb t d then let (y, m) := prev_month (year t, month t) in occ (y, m)
      else Ok d) ≫= fun d' => Ok (mkDataInterval d' (add_hours d' 1))) = Ok iv ->
  exists p, occ p = Ok (start iv).
Proof.
  intros E. apply bind_Ok_inv in E as (d & O & E). apply bind_Ok_inv in E as (d' & O' & E).
  inversion E. subst iv. cbn [start].
  destruct (ltb t d).
  - destruct (prev_month (year t, month t)) as [y m]. exists (y, m). exact O'.
  - inversion O'. subst d'. exists (year t, month t). exact O.
Qed.

(** C8.  Every occurrence BusinessDayOfMonth and MonthlyLastDayExceptWeekend
    produce, through the search, the manual-interval call or the next-run
    call and for any configuration, falls on a Monday-to-Friday day
    (weekday 0..4); and with a well-formed configuration both produce an
    occurrence on every instant. *)
Theorem weekend_avoidance (tt : Timetable) (fuel : nat) :
  avoids_weekend tt = true ->
  (forall t r, locate_next fuel tt t = Ok r -> 0 <= day_of_week r <= 4) /\
  (forall t iv, infer_manual_data_interval fuel tt t = Ok iv ->
                0 <= day_of_week (start iv) <= 4) /\
  (forall clock last restriction info,
     next_dagrun_info fuel tt clock last restriction = Ok (Some info) ->
     0 <= day_of_week (start_of info) <= 4) /\
  (well_formed tt = true -> (28 <= fuel)%nat -> forall t, valid t = true ->
     is_Ok (locate_next fuel tt t) /\ is_Ok (infer_manual_data_interval fuel tt t)).
Proof.
  intros A.
  assert (L : forall t r, locate_next fuel tt t = Ok r -> 0 <= day_of_week r <= 4).
  { destruct tt; try discriminate; cbn [locate_next]; intros t r0 E.
    - unfold BusinessDayOfMonth.locate_next in E.
      apply search_from_occ in E as (p & O & _). exact (business_day_is_weekday _ _ _ _ _ O).
    - unfold MonthlyLastDayExceptWeekend.locate_next in E.
      apply search_from_occ in E as (p & O & _).
      exact (last_day_except_weekend_is_weekday _ _ _ _ _ O). }
  split; [exact L|]. split; [|split].
  - destruct tt; try discriminate; cbn [infer_manual_data_interval]; intros t iv E.
    + apply (month_manual_occ
               (fun p => BusinessDayOfMonth._get_nth_business_day fuel r p.1 p.2)) in E
        as (p & O).
      exact (business_day_is_weekday _ _ _ _ _ O).
    + apply (month_manual_occ
               (fun p => MonthlyLastDayExceptWeekend._get_last_day fuel r p.1 p.2)) in E
        as (p & O).
      exact (last_day_except_weekend_is_weekday _ _ _ _ _ O).
  - intros clock last restriction info E.
    apply next_dagrun_info_inv in E as (now & _ & E);
      [|destruct tt; try discriminate; reflexivity].
    exact (L _ _ E).
  - intros W F t V. split.
    + apply locate_next_total; assumption.
    + apply infer_manual_total; assumption.
Qed.

Lemma weekend_avoidance_witness :
  0 <= day_of_week (mkDateTime 2024 3 29 17 0 0 0) <= 4.
Proof.
  apply (proj1 (weekend_avoidance
                  (TBusinessDayOfMonth (BusinessDayOfMonth.mk (-1) "UTC" 17 0 0)) 28
                  eq_refl)
           (mkDateTime 2024 3 1 0 0 0 0)).
  reflexivity.
Defined.

(** ** The resumed start of EveryNInterval *)

(** The next-run call of EveryNInterval, whatever the last interval. *)
Lemma EveryNInterval_next_run (self : EveryNInterval.t) (clock : Clock)
    (last : option DataInterval) (restriction : TimeRestriction) :
  0 < EveryNInterval.total_minutes self ->
  valid_clock clock = true -> valid_restriction restriction = true ->
  let total := EveryNInterval.total_minutes self in
  let baseline := resolve_after (pendulum_now clock) None restriction in
  exists g, first_grid_point_from total baseline g /\
    let next_start := match last with Some iv => max (end_ iv) g | None => g end in
    EveryNInterval.next_dagrun_info self clock last restriction =
      Ok (if past_latest restriction next_start then None
          else Some (interval next_start (add_minutes next_start total))).
Proof.
  intros Ht Vc Vr total baseline.
  apply andb_true_iff in Vc as [Vn _].
  pose proof (resolve_after_valid (pendulum_now clock) None restriction Vn eq_refl Vr) as Vb.
  fold baseline in Vb.
  destruct (EveryNInterval_first total baseline Ht Vb) as (g & E & Vg & G).
  exists g. split; [exact G|]. cbv zeta.
  unfold EveryNInterval.next_dagrun_info. cbv zeta. fold total.
  destruct (Z.eqb_spec total 0); [lia|].
  change (if catchup restriction
          then default (pendulum_now clock) (earliest restriction)
          else max (default (pendulum_now clock) (earliest restriction))
                   (pendulum_now clock)) with baseline.
  rewrite E, bind_Ok. destruct last as [iv|].
  - unfold max. destruct (past_latest restriction _); reflexivity.
  - destruct (past_latest restriction _); reflexivity.
Qed.



(** The resumed start 02:17 of the example is on no point of the 90-minute
    grid anchored at midnight. *)
Example resumed_start_is_off_grid :
  forall k, grid_point 90 (mkDateTime 2024 1 1 1 0 0 0) k <> mkDateTime 2024 1 1 2 17 0 0.
Proof.
  intros k E.
  destruct (grid_point_spec 90 (mkDateTime 2024 1 1 1 0 0 0) k eq_refl) as (_ & S).
  rewrite E in S.
  remember (stamp (mkDateTime 2024 1 1 2 17 0 0)) as a eqn:Ea. vm_compute in Ea.
  remember (toordinal (mkDateTime 2024 1 1 1 0 0 0)) as b eqn:Eb. vm_compute in Eb.
  lia.
Qed.

(** ** Configuration errors *)

Lemma search_from_OutOfFuel {St : Type} fuel (occ : St -> result DateTime) step after s :
  (forall x, occ x = OutOfFuel) -> search_from fuel occ step after s = OutOfFuel.
Proof. intros H. destruct fuel; simpl; [reflexivity|]. rewrite H. reflexivity. Qed.

Lemma last_of_month_ordinal y m :
  1 <= y -> 1 <= m <= 12 ->
  365 * (y - 1) < toordinal (mkDateTime y m (days_in_month y m) 0 0 0 0) <= 366 * y.
Proof.
  intros Hy Hm. pose proof (days_in_month_bounds y m) as B.
  pose proof (ymd2ord_in_year y m (days_in_month y m) Hm ltac:(lia)) as O.
  pose proof (days_before_year_le 1 (y - 1) ltac:(lia)) as L.
  replace (1 + (y - 1)) with y in L by lia. change (days_before_year 1) with 0 in L.
  assert (U : days_before_year (y + 1) <= 366 * y).
  { unfold days_before_year. replace (y + 1 - 1) with y by lia.
    Z.div_mod_to_equations. lia. }
  unfold toordinal. cbn [year month day]. lia.
Qed.

(** With an ordinal [n = 0] the backward scan counts down from -1 and its
    exit test [n == count] never holds.  From the last day of a month of
    year [y] it steps back through every day of the calendar; the step back
    from 0001-01-01 raises OverflowError.  That takes more than
    [365 * (y - 1)] and at most [366 * y] iterations. *)
Lemma zero_ordinal_scan fuel hit y m :
  1 <= y -> 1 <= m <= 12 ->
  (366 * y <= Z.of_nat fuel ->
     last_date_of_month y m ≫= (fun dt => scan_backward fuel hit 0 dt (-1))
     = Raise OverflowError) /\
  (Z.of_nat fuel <= 365 * (y - 1) ->
     last_date_of_month y m ≫= (fun dt => scan_backward fuel hit 0 dt (-1))
     = OutOfFuel).
Proof.
  intros Hy Hm. pose proof (last_of_month_ordinal y m Hy Hm) as O.
  pose proof (days_in_month_bounds y m) as B.
  assert (V : valid_day (mkDateTime y m (days_in_month y m) 0 0 0 0))
    by (unfold valid_day; cbn; lia).
  rewrite last_date_of_month_spec by exact Hm. rewrite bind_Ok. split; intros F.
  - apply scan_backward_overflows; [lia | exact V | lia | lia].
  - apply scan_backward_still_running; [lia | exact V | lia].
Qed.

Lemma zero_ordinal_occurrence tt fuel y m :
  zero_ordinal tt = true -> 1 <= y -> 1 <= m <= 12 ->
  (366 * y <= Z.of_nat fuel -> period_occurrence fuel tt (y, m) = Raise OverflowError) /\
  (Z.of_nat fuel <= 365 * (y - 1) -> period_occurrence fuel tt (y, m) = OutOfFuel).
Proof.
  intros Hz Hy Hm.
  destruct tt as [c|c|c|c|c|c|c|c|c|c|c|c|c|c|c]; try discriminate;
    cbn [zero_ordinal] in Hz; cbn [period_occurrence fst snd].
  - apply andb_true_iff in Hz as [Hz M2]. apply andb_true_iff in Hz as [Hz M1].
    apply Z.eqb_eq in Hz. apply Z.leb_le in M1, M2.
    destruct (zero_ordinal_scan fuel (fun w => w =? YearlyWeekdayOccurrence.weekday c)
                y (YearlyWeekdayOccurrence.month c) Hy ltac:(lia)) as [R O].
    unfold YearlyWeekdayOccurrence._get_nth_weekday. rewrite Hz.
    change (0 <? 0) with false. cbv iota. rewrite <- bind_assoc.
    split; intros F; [rewrite (R F) | rewrite (O F)]; reflexivity.
  - apply Z.eqb_eq in Hz.
    destruct (zero_ordinal_scan fuel (fun w => w =? MonthlyWeekdayOccurrence.weekday c)
                y m Hy Hm) as [R O].
    unfold MonthlyWeekdayOccurrence._get_nth_weekday. rewrite Hz.
    change (0 <? 0) with false. cbv iota. rewrite <- bind_assoc.
    split; intros F; [rewrite (R F) | rewrite (O F)]; reflexivity.
  - apply Z.eqb_eq in Hz.
    destruct (zero_ordinal_scan fuel (fun w => w <? 5) y m Hy Hm) as [R O].
    unfold BusinessDayOfMonth._get_nth_business_day. rewrite Hz.
    change (0 <? 0) with false. cbv iota.
    split; intros F; [rewrite (R F) | rewrite (O F)]; reflexivity.
Qed.

(** Both evaluation calls start with the occurrence of the period of the
    instant they are given, so they end as that occurrence does. *)
Lemma zero_ordinal_evaluation tt fuel t (r : forall A, result A) :
  zero_ordinal tt = true -> valid t = true ->
  (forall A B (k : A -> result B), r A ≫= k = r B) ->
  (1 <= fuel)%nat ->
  period_occurrence fuel tt (year t, month t) = r DateTime ->
  infer_manual_data_interval fuel tt t = r DataInterval /\
  locate_next fuel tt t = r DateTime.
Proof.
  intros Hz V K F O.
  destruct tt as [c|c|c|c|c|c|c|c|c|c|c|c|c|c|c]; try discriminate;
    cbn [period_occurrence fst snd] in O;
    cbn [infer_manual_data_interval locate_next].
  - split.
    + unfold YearlyWeekdayOccurrence.infer_manual_data_interval. cbv zeta.
      rewrite O. apply K.
    + unfold YearlyWeekdayOccurrence.locate_next.
      destruct fuel as [|fuel]; [lia|]. cbn [search_from].
      rewrite O. apply K.
  - split.
    + unfold MonthlyWeekdayOccurrence.infer_manual_data_interval. cbv zeta.
      rewrite O. apply K.
    + unfold MonthlyWeekdayOccurrence.locate_next.
      destruct fuel as [|fuel]; [lia|]. cbn [search_from fst snd].
      rewrite O. apply K.
  - split.
    + unfold BusinessDayOfMonth.infer_manual_data_interval. cbv zeta.
      rewrite O. apply K.
    + unfold BusinessDayOfMonth.locate_next.
      destruct fuel as [|fuel]; [lia|]. cbn [search_from fst snd].
      rewrite O. apply K.
Qed.

Lemma zero_ordinal_raises tt fuel t :
  zero_ordinal tt = true -> valid t = true -> 1 <= year t ->
  (366 * year t <= Z.of_nat fuel ->
     infer_manual_data_interval fuel tt t = Raise OverflowError /\
     locate_next fuel tt t = Raise OverflowError) /\
  ((1 <= fuel)%nat -> Z.of_nat fuel <= 365 * (year t - 1) ->
     infer_manual_data_interval fuel tt t = OutOfFuel /\
     locate_next fuel tt t = OutOfFuel).
Proof.
  intros Hz V Hy. pose proof V as V'. apply valid_spec in V' as ((Vm & _) & _).
  destruct (zero_ordinal_occurrence tt fuel (year t) (month t) Hz Hy Vm) as [R O].
  split.
  - intros F.
    apply (zero_ordinal_evaluation tt fuel t (fun A => Raise OverflowError) Hz V);
      [reflexivity | lia | exact (R F)].
  - intros F1 F.
    apply (zero_ordinal_evaluation tt fuel t (fun A => OutOfFuel) Hz V);
      [reflexivity | exact F1 | exact (O F)].
Qed.



(** ** The manual interval *)

(** What the month-, quarter- and year-searching classes do: the manual
    interval of a well-formed MonthlyLastDay starts at or before the
    reference instant; the spec's scenario is the instance below. *)
Example monthly_last_day_manual_scenario :
  infer_manual_data_interval 28 (TMonthlyLastDay (MonthlyLastDay.mk "UTC" 18 30 0))
    (mkDateTime 2024 2 10 0 0 0 0)
  = Ok (mkDataInterval (mkDateTime 2024 1 31 18 30 0 0) (mkDateTime 2024 1 31 19 30 0 0)).
Proof. reflexivity. Qed.

(** C1.  The manual-interval call of WeeklyOnDay, BiweeklyOnDay, SemiMonthly
    and MonthlyMultipleDays hands its reference instant to the forward
    search: on Tuesday 2024-01-02 each returns an interval that starts
    after the reference instant (the following Monday, resp. the 15th), not
    the latest occurrence at or before it (Monday 2024-01-01, resp. the
    1st). *)
Theorem manual_interval_starts_after_reference :
  let reference := mkDateTime 2024 1 2 0 0 0 0 in
  let weekly := TWeeklyOnDay (WeeklyOnDay.mk 0 "UTC" 0 0 0) in
  let biweekly := TBiweeklyOnDay (BiweeklyOnDay.mk 0 "UTC" 0 0 0 "2024-01-01") in
  let semi := TSemiMonthly (SemiMonthly.mk "UTC" 0 0 0) in
  let multiple :=
    TMonthlyMultipleDays (MonthlyMultipleDays.__init__ (Some [1; 15]) 0 0 "UTC" 0) in
  infer_manual_data_interval 28 weekly reference
    = Ok (mkDataInterval (mkDateTime 2024 1 8 0 0 0 0) (mkDateTime 2024 1 8 1 0 0 0)) /\
  infer_manual_data_interval 28 biweekly reference
    = Ok (mkDataInterval (mkDateTime 2024 1 15 0 0 0 0) (mkDateTime 2024 1 15 1 0 0 0)) /\
  infer_manual_data_interval 28 semi reference
    = Ok (mkDataInterval (mkDateTime 2024 1 15 0 0 0 0) (mkDateTime 2024 1 15 1 0 0 0)) /\
  infer_manual_data_interval 28 multiple reference
    = Ok (mkDataInterval (mkDateTime 2024 1 15 0 0 0 0) (mkDateTime 2024 1 15 1 0 0 0)) /\
  lt reference (mkDateTime 2024 1 8 0 0 0 0) /\
  locate_next 28 weekly (mkDateTime 2024 1 1 0 0 0 0)
    = Ok (mkDateTime 2024 1 8 0 0 0 0) /\
  locate_next 28 multiple (mkDateTime 2024 1 1 0 0 0 0)
    = Ok (mkDateTime 2024 1 1 0 0 0 0).
Proof. repeat split. Qed.

(** ** The upper bound *)

(** C2.  WeeklyOnDay.next_dagrun_info never answers "no further run": it
    has no test of [restriction.latest].  In the spec's scenario (latest
    2024-01-01, baseline 2024-01-03, rule Monday) it returns the run of
    Monday 2024-01-08, past the bound, when its clock read yields an
    instant, and raises AttributeError when [datetime.now] is evaluated
    against pendulum's API.  The same holds for the six other classes that
    read the clock with [datetime.now]. *)
Theorem weekly_next_run_ignores_latest :
  (forall fuel tt clock last restriction,
     reads_pendulum_now tt = true \/
     next_dagrun_info fuel tt clock last restriction <> Ok None) /\
  let tt := TWeeklyOnDay (WeeklyOnDay.mk 0 "UTC" 0 0 0) in
  let now := mkDateTime 2024 1 3 12 0 0 0 in
  let restriction :=
    mkTimeRestriction (Some (mkDateTime 2024 1 3 0 0 0 0))
                      (Some (mkDateTime 2024 1 1 0 0 0 0)) true in
  next_dagrun_info 28 tt (working_clock now) None restriction
    = Ok (Some (interval (mkDateTime 2024 1 8 0 0 0 0) (mkDateTime 2024 1 8 1 0 0 0))) /\
  past_latest restriction (mkDateTime 2024 1 8 0 0 0 0) = true /\
  next_dagrun_info 28 tt (pendulum_clock now) None restriction = Raise AttributeError.
Proof.
  split; [|repeat split].
  intros fuel tt clock last restriction.
  destruct tt; cbn [reads_pendulum_now]; try (left; reflexivity); right;
    cbn [next_dagrun_info]; unfold_next_dagrun_info; intros E;
    apply bind_Ok_inv in E as (now & _ & E); cbv zeta in E;
    apply bind_Ok_inv in E as (st & _ & E); discriminate.
Qed.

(** ** No-skip *)

(** C3.  WeeklyOnDay._get_next_weekday compares hour and minute
    independently: for the rule "Monday 08:30" searched from Monday
    2024-01-01 09:15 (hour passed, minute 15 < 30) it keeps the same day and
    returns 08:30, an occurrence before the instant searched from.  The
    manual-interval call and, when the clock read yields an instant, the
    next-run call return that occurrence. *)
Theorem weekly_search_returns_past_occurrence :
  let self := WeeklyOnDay.mk 0 "UTC" 8 30 0 in
  let t := mkDateTime 2024 1 1 9 15 0 0 in
  let past := mkDateTime 2024 1 1 8 30 0 0 in
  WeeklyOnDay._get_next_weekday self t = Ok past /\
  locate_next 28 (TWeeklyOnDay self) t = Ok past /\
  lt past t /\
  infer_manual_data_interval 28 (TWeeklyOnDay self) t
    = Ok (mkDataInterval past (mkDateTime 2024 1 1 9 30 0 0)) /\
  next_dagrun_info 28 (TWeeklyOnDay self) (working_clock t) None
                   (mkTimeRestriction None None true)
    = Ok (Some (interval past (mkDateTime 2024 1 1 9 30 0 0))).
Proof. repeat split. Qed.

(** ** Catch-up *)

(** For every variant but WeeklyOnDay, well-formed and with a positive
    interval, a run produced with catch-up disabled starts at or after the
    instant the clock read returned. *)
Lemma catchup_suppression_others fuel tt clock last restriction info now :
  well_formed tt = true -> (28 <= fuel)%nat ->
  valid_clock clock = true -> valid_last last = true ->
  valid_restriction restriction = true ->
  match tt with
  | TWeeklyOnDay _ => False
  | TEveryNInterval x => 0 < EveryNInterval.total_minutes x
  | _ => True
  end ->
  catchup restriction = false ->
  clock_read tt clock = Ok now ->
  next_dagrun_info fuel tt clock last restriction = Ok (Some info) ->
  le now (start_of info).
Proof.
  intros W F Vc Vl Vr Hv C R E.
  pose proof (clock_read_valid tt clock now Vc R) as Vn.
  destruct (is_EveryNInterval tt) eqn:N.
  - destruct tt as [| | | | | | | | | | | | | |x]; try discriminate.
    cbn [next_dagrun_info] in E. inversion R. subst now.
    destruct (EveryNInterval_next_run x clock last restriction Hv Vc Vr)
      as (g & (k & _ & Lg & _) & H).
    cbv zeta in H. rewrite H in E. clear H.
    destruct (past_latest restriction _); [discriminate|].
    assert (S : start_of info = match last with Some iv => max (end_ iv) g | None => g end)
      by (inversion E; reflexivity).
    rewrite S.
    eapply le_trans; [apply (resolve_after_catchup _ None restriction C)|].
    eapply le_trans; [exact Lg|].
    destruct last as [iv|]; [apply max_ge_r | apply le_refl].
  - apply next_dagrun_info_inv in E as (now' & R' & L); [|exact N].
    rewrite R in R'. inversion R'. subst now'.
    eapply le_trans; [apply (resolve_after_catchup now last restriction C)|].
    apply (locate_next_no_skip fuel tt _ _ W F); try assumption.
    apply resolve_after_valid; assumption.
Qed.

(** C7.  With catch-up disabled, the clock at Monday 2024-01-01 09:15 and a
    last interval that ended in 2020, WeeklyOnDay "Monday 08:30" returns
    the run of 08:30 of the same day, before the current time, when its
    clock read yields an instant (the defect of [_get_next_weekday] shown
    for C3); evaluated against pendulum's API the call raises
    AttributeError and returns no interval at all. *)
Theorem weekly_catchup_returns_elapsed_run :
  let tt := TWeeklyOnDay (WeeklyOnDay.mk 0 "UTC" 8 30 0) in
  let now := mkDateTime 2024 1 1 9 15 0 0 in
  let last :=
    Some (mkDataInterval (mkDateTime 2020 1 6 8 30 0 0) (mkDateTime 2020 1 6 9 30 0 0)) in
  let restriction := mkTimeRestriction (Some (mkDateTime 2020 1 1 0 0 0 0)) None false in
  next_dagrun_info 28 tt (working_clock now) last restriction
    = Ok (Some (interval (mkDateTime 2024 1 1 8 30 0 0) (mkDateTime 2024 1 1 9 30 0 0))) /\
  lt (mkDateTime 2024 1 1 8 30 0 0) now /\
  next_dagrun_info 28 tt (pendulum_clock now) last restriction = Raise AttributeError.
Proof. repeat split. Qed.

(** ** Round trip *)

Lemma insert_sorted_head x l :
  (forall y, In y l -> x < y) -> MonthlyMultipleDays.insert_sorted x l = x :: l.
Proof.
  destruct l as [|y l]; [reflexivity|]. intros H. simpl.
  destruct (Z.ltb_spec x y); [reflexivity|]. specialize (H y (or_introl eq_refl)). lia.
Qed.

(** Every class that defines the pair returns its own state from
    [deserialize(serialize(self))]. *)
Lemma round_trip_identity tt :
  is_YearlyWeekdayOccurrence tt = false -> constructed tt = true ->
  round_trip tt = Ok tt.
Proof.
  intros N C. destruct tt as [r|r|r|r|r|r|r|r|r|r|r|r|r|r|r]; try discriminate;
    destruct r; simpl in C; cbn [round_trip]; try reflexivity.
  - apply bool_decide_eq_true in C. unfold MonthlyMultipleDays.deserialize.
    vm_compute get_list. rewrite bind_Ok. vm_compute get_str. rewrite bind_Ok.
    vm_compute get_int. rewrite !bind_Ok.
    unfold MonthlyMultipleDays.__init__. simpl. rewrite C. reflexivity.
  - unfold BiweeklyOnDay.deserialize. vm_compute get_int. rewrite bind_Ok.
    vm_compute get_str. rewrite !bind_Ok. unfold BiweeklyOnDay.__init__.
    rewrite C. reflexivity.
  - unfold MonthlyWeekdayOccurrence.deserialize. vm_compute get_int. rewrite !bind_Ok.
    vm_compute get_str. rewrite !bind_Ok. unfold MonthlyWeekdayOccurrence.__init__.
    rewrite C. reflexivity.
Qed.

(** C9.  YearlyWeekdayOccurrence defines neither [serialize] nor
    [deserialize]: the inherited [serialize] drops every field and the
    inherited [deserialize] calls the constructor without its required
    arguments, so the round trip of every instance raises TypeError instead
    of yielding an equivalent rule. *)
Theorem yearly_weekday_occurrence_round_trip_fails :
  (forall r, YearlyWeekdayOccurrence.serialize r = ∅) /\
  (forall r, round_trip (TYearlyWeekdayOccurrence r) = Raise TypeError) /\
  round_trip (TYearlyWeekdayOccurrence (YearlyWeekdayOccurrence.mk 11 0 1 "UTC" 9 0 0))
    <> Ok (TYearlyWeekdayOccurrence (YearlyWeekdayOccurrence.mk 11 0 1 "UTC" 9 0 0)).
Proof. repeat split. discriminate. Qed.

(** * Further properties of the code *)

(** ** Serialization *)

Lemma insert_sorted_In x l y :
  In y (MonthlyMultipleDays.insert_sorted x l) <-> y = x \/ In y l.
Proof.
  induction l as [|z l IH]; simpl.
  - intuition.
  - destruct (Z.ltb_spec x z); [simpl; intuition|].
    destruct (Z.eqb_spec x z); simpl; [subst; intuition|].
    rewrite IH. intuition.
Qed.

Lemma strictly_increasing_cons x l :
  strictly_increasing (x :: l) = true <->
  (forall y, In y l -> x < y) /\ strictly_increasing l = true.
Proof.
  revert x. induction l as [|z l IH]; intros x.
  - simpl. intuition.
  - change (strictly_increasing (x :: z :: l))
      with ((x <? z) && strictly_increasing (z :: l)).
    rewrite andb_true_iff, Z.ltb_lt. split.
    + intros [L S]. split; [|exact S]. intros y [->|I]; [exact L|].
      apply IH in S as [S _]. specialize (S y I). lia.
    + intros [A S]. split; [apply A; left; reflexivity | exact S].
Qed.

Lemma insert_sorted_increasing x l :
  strictly_increasing l = true ->
  strictly_increasing (MonthlyMultipleDays.insert_sorted x l) = true.
Proof.
  induction l as [|z l IH]; intros S; [reflexivity|].
  simpl MonthlyMultipleDays.insert_sorted.
  destruct (Z.ltb_spec x z).
  - change ((x <? z) && strictly_increasing (z :: l) = true).
    rewrite S. apply andb_true_iff. split; [apply Z.ltb_lt; lia | reflexivity].
  - destruct (Z.eqb_spec x z); [exact S|].
    apply strictly_increasing_cons in S as [A S].
    apply strictly_increasing_cons. split; [|apply IH; exact S].
    intros y I. apply insert_sorted_In in I as [->|I]; [lia | apply A; exact I].
Qed.

Lemma sorted_set_increasing l :
  strictly_increasing (MonthlyMultipleDays.sorted_set l) = true.
Proof.
  induction l as [|x l IH]; [reflexivity|]. simpl. apply insert_sorted_increasing. exact IH.
Qed.

Lemma sorted_set_In l y : In y (MonthlyMultipleDays.sorted_set l) <-> In y l.
Proof.
  induction l as [|x l IH]; [reflexivity|]. simpl. rewrite insert_sorted_In, IH.
  intuition.
Qed.

Lemma sorted_set_fixed l :
  strictly_increasing l = true -> MonthlyMultipleDays.sorted_set l = l.
Proof.
  induction l as [|x l IH]; intros S; [reflexivity|].
  apply strictly_increasing_cons in S as [A S]. simpl. rewrite (IH S).
  apply insert_sorted_head. exact A.
Qed.

(** X1.  For each of the fourteen classes that define [serialize] and
    [deserialize], and every instance as its constructor builds it,
    [deserialize(serialize(self))] returns an instance with the same
    state. *)
Theorem serialized_rule_is_restored (tt : Timetable) :
  is_YearlyWeekdayOccurrence tt = false -> constructed tt = true ->
  round_trip tt = Ok tt.
Proof. apply round_trip_identity. Qed.

Lemma serialized_rule_is_restored_witness :
  round_trip (TMonthlyMultipleDays
                (MonthlyMultipleDays.__init__ (Some [15; 1; 15]) 9 30 "UTC" 0))
  = Ok (TMonthlyMultipleDays (MonthlyMultipleDays.mk [1; 15] "UTC" 9 30 0)).
Proof.
  apply (serialized_rule_is_restored
           (TMonthlyMultipleDays (MonthlyMultipleDays.mk [1; 15] "UTC" 9 30 0))).
  - reflexivity.
  - reflexivity.
Defined.

(** X2.  The constructor of MonthlyMultipleDays stores [sorted(set(days))]:
    the stored days are strictly increasing, are exactly the members of the
    list given ([[1]] when none is given), and storing them again changes
    nothing, so a rule built by the constructor survives the serialization
    round trip unchanged. *)
Theorem multiple_days_are_normalised (days : option (list Z)) (hour minute : Z)
    (tz : string) (second : Z) :
  let r := MonthlyMultipleDays.__init__ days hour minute tz second in
  strictly_increasing (MonthlyMultipleDays.days r) = true /\
  (forall d, In d (MonthlyMultipleDays.days r) <-> In d (default [1] days)) /\
  MonthlyMultipleDays.deserialize (MonthlyMultipleDays.serialize r) = Ok r.
Proof.
  cbv zeta. unfold MonthlyMultipleDays.__init__. cbn [MonthlyMultipleDays.days].
  split; [apply sorted_set_increasing|]. split; [intros d; apply sorted_set_In|].
  unfold MonthlyMultipleDays.deserialize.
  vm_compute get_list. rewrite bind_Ok. vm_compute get_str. rewrite bind_Ok.
  vm_compute get_int. rewrite !bind_Ok.
  unfold MonthlyMultipleDays.__init__. simpl.
  rewrite sorted_set_fixed by apply sorted_set_increasing. reflexivity.
Qed.

(** ** The period searches *)

Lemma search_from_closed {St : Type} fuel (occ : St -> result DateTime) step after s a b :
  (2 <= fuel)%nat -> occ s = Ok a -> occ (step s) = Ok b -> le after b ->
  search_from fuel occ step after s = Ok (if leb after a then a else b).
Proof.
  intros F A B L. destruct fuel as [|[|fuel]]; try lia.
  cbn [search_from]. rewrite A, bind_Ok. destruct (leb after a); [reflexivity|].
  rewrite B, bind_Ok. unfold le in L. rewrite L. reflexivity.
Qed.

(** The occurrences of the month before, the month of and the month after
    an instant. *)
Lemma month_three (occ : Z * Z -> result DateTime) h mi s t :
  (forall y m, 1 <= m <= 12 -> in_month_at y m h mi s (occ (y, m))) ->
  valid t = true ->
  exists c a b,
    occ (prev_month (year t, month t)) = Ok c /\ occ (year t, month t) = Ok a /\
    occ (next_month (year t, month t)) = Ok b /\
    lt c a /\ lt a b /\ lt c t /\ lt t b.
Proof.
  intros H V. apply valid_spec in V as ((Vm & Vd) & _).
  pose proof (prev_month_valid (year t, month t) Vm) as Vp.
  pose proof (next_month_valid (year t, month t) Vm) as Vn.
  destruct (H (year t) (month t) Vm) as (da & Ha & Ea).
  unfold prev_month, next_month in *.
  destruct (Z.eqb_spec (month t) 1) as [M1|M1]; destruct (Z.eqb_spec (month t) 12) as [M12|M12];
    try lia.
  - destruct (H (year t - 1) 12 ltac:(lia)) as (dc & Hc & Ec).
    destruct (H (year t) (month t + 1) ltac:(lia)) as (db & Hb & Eb).
    exists (mkDateTime (year t - 1) 12 dc h mi s 0), (mkDateTime (year t) (month t) da h mi s 0),
      (mkDateTime (year t) (month t + 1) db h mi s 0).
    repeat split; try assumption; order_lia.
  - destruct (H (year t) (month t - 1) ltac:(lia)) as (dc & Hc & Ec).
    destruct (H (year t + 1) 1 ltac:(lia)) as (db & Hb & Eb).
    exists (mkDateTime (year t) (month t - 1) dc h mi s 0), (mkDateTime (year t) (month t) da h mi s 0),
      (mkDateTime (year t + 1) 1 db h mi s 0).
    repeat split; try assumption; order_lia.
  - destruct (H (year t) (month t - 1) ltac:(lia)) as (dc & Hc & Ec).
    destruct (H (year t) (month t + 1) ltac:(lia)) as (db & Hb & Eb).
    exists (mkDateTime (year t) (month t - 1) dc h mi s 0), (mkDateTime (year t) (month t) da h mi s 0),
      (mkDateTime (year t) (month t + 1) db h mi s 0).
    repeat split; try assumption; order_lia.
Qed.

Lemma year_three (occ : Z -> result DateTime) mo h mi s t :
  (forall y, in_month_at y mo h mi s (occ y)) ->
  exists c a b,
    occ (year t - 1) = Ok c /\ occ (year t) = Ok a /\ occ (year t + 1) = Ok b /\
    lt c a /\ lt a b /\ lt c t /\ lt t b.
Proof.
  intros H.
  destruct (H (year t - 1)) as (dc & Hc & Ec).
  destruct (H (year t)) as (da & Ha & Ea).
  destruct (H (year t + 1)) as (db & Hb & Eb).
  exists (mkDateTime (year t - 1) mo dc h mi s 0), (mkDateTime (year t) mo da h mi s 0),
    (mkDateTime (year t + 1) mo db h mi s 0).
  repeat split; try assumption; order_lia.
Qed.

Lemma quarter_three (occ : Z * Z -> result DateTime) (c0 h mi s : Z) (dfun : Z -> Z -> Z)
    (prev_quarter : Z * Z -> Z * Z) t :
  1 <= c0 <= 3 ->
  (forall y m, 1 <= m <= 12 ->
     occ (y, m) = Ok (mkDateTime y (3 * ((m - 1) / 3) + c0) (dfun y ((m - 1) / 3)) h mi s 0)) ->
  (forall y m, 1 <= m <= 12 ->
     1 <= (prev_quarter (y, m)).2 <= 12 /\
     quarter_key (prev_quarter (y, m)) = quarter_key (y, m) - 1) ->
  valid t = true ->
  exists c a b,
    occ (prev_quarter (year t, month t)) = Ok c /\ occ (year t, month t) = Ok a /\
    occ (next_quarter (year t, month t)) = Ok b /\
    lt c a /\ lt a b /\ lt c t /\ lt t b.
Proof.
  intros C H P V. apply valid_spec in V as ((Vm & Vd) & _).
  destruct (P (year t) (month t) Vm) as (Pv & Pk).
  pose proof (next_quarter_valid (year t, month t) Vm) as Nv.
  pose proof (quarter_key_next (year t, month t) Vm) as Nk.
  destruct (prev_quarter (year t, month t)) as [yp mp] eqn:Ep.
  destruct (next_quarter (year t, month t)) as [yn mn] eqn:En.
  unfold valid_month, quarter_key in *. cbn [fst snd] in *.
  rewrite (H yp mp Pv), (H (year t) (month t) Vm), (H yn mn Nv).
  do 3 eexists. split; [reflexivity|]. split; [reflexivity|]. split; [reflexivity|].
  pose proof (quarter_range (month t) Vm) as Q.
  pose proof (quarter_range mp Pv) as Qp.
  pose proof (quarter_range mn Nv) as Qn.
  assert (M : 3 * ((month t - 1) / 3) + 1 <= month t <= 3 * ((month t - 1) / 3) + 3).
  { pose proof (Z.div_mod (month t - 1) 3 ltac:(lia)).
    pose proof (Z.mod_pos_bound (month t - 1) 3 ltac:(lia)). lia. }
  set (q := (month t - 1) / 3) in *. set (qp := (mp - 1) / 3) in *.
  set (qn := (mn - 1) / 3) in *.
  assert (Kp : (yp = year t /\ qp = q - 1) \/ (yp = year t - 1 /\ qp = 3 /\ q = 0)) by lia.
  assert (Kn : (yn = year t /\ qn = q + 1) \/ (yn = year t + 1 /\ qn = 0 /\ q = 3)) by lia.
  repeat split; order_lia.
Qed.

Lemma QuarterlyFirstDay_prev_key y m :
  1 <= m <= 12 ->
  1 <= (QuarterlyFirstDay.prev_quarter (y, m)).2 <= 12 /\
  quarter_key (QuarterlyFirstDay.prev_quarter (y, m)) = quarter_key (y, m) - 1.
Proof.
  intros M. destruct (month_cases m M) as [E|[E|[E|[E|[E|[E|[E|[E|[E|[E|[E|E]]]]]]]]]]];
    subst m; unfold quarter_key; cbn;
    repeat match goal with
           | |- context [?a / 3] => let v := eval vm_compute in (a / 3) in change (a / 3) with v
           end; lia.
Qed.

Lemma QuarterlyLastDay_prev_key y m :
  1 <= m <= 12 ->
  1 <= (QuarterlyLastDay.prev_quarter (y, m)).2 <= 12 /\
  quarter_key (QuarterlyLastDay.prev_quarter (y, m)) = quarter_key (y, m) - 1.
Proof.
  intros M. destruct (month_cases m M) as [E|[E|[E|[E|[E|[E|[E|[E|[E|[E|[E|E]]]]]]]]]]];
    subst m; unfold quarter_key; cbn;
    repeat match goal with
           | |- context [?a / 3] => let v := eval vm_compute in (a / 3) in change (a / 3) with v
           end; lia.
Qed.

(** The three occurrences around an instant, for every period-searching
    class. *)
Lemma period_three fuel tt t :
  searches_by_period tt = true -> well_formed tt = true -> (28 <= fuel)%nat ->
  valid t = true ->
  let p := (year t, month t) in
  exists c a b,
    period_occurrence fuel tt (preceding_period tt p) = Ok c /\
    period_occurrence fuel tt p = Ok a /\
    period_occurrence fuel tt (following_period tt p) = Ok b /\
    lt c a /\ lt a b /\ lt c t /\ lt t b.
Proof.
  intros S W F V p. subst p.
  destruct tt as [r|r|r|r|r|r|r|r|r|r|r|r|r|r|r]; try discriminate;
    cbn [period_occurrence preceding_period following_period fst snd].
  - exact (month_three (fun p => MonthlyLastDay._get_last_day r p.1 p.2) _ _ _ t
             (fun y m => MonthlyLastDay_in_month r y m W) V).
  - exact (month_three (fun p => MonthlyOnDay._get_run_date r p.1 p.2) _ _ _ t
             (MonthlyOnDay_in_month' r W) V).
  - exact (quarter_three (fun p => QuarterlyFirstDay._get_first_day_of_quarter r p.1 p.2)
             1 _ _ _ (fun _ _ => 1) QuarterlyFirstDay.prev_quarter t ltac:(lia)
             (QuarterlyFirstDay_occ r W) QuarterlyFirstDay_prev_key V).
  - exact (quarter_three (fun p => QuarterlyLastDay._get_last_day_of_quarter r p.1 p.2)
             3 _ _ _ (fun y q => days_in_month y (3 * q + 3)) QuarterlyLastDay.prev_quarter t
             ltac:(lia) (QuarterlyLastDay_occ r W) QuarterlyLastDay_prev_key V).
  - exact (year_three (YearlyFirstDay._get_first_day_of_year r) _ _ _ _ t
             (YearlyFirstDay_in_month r W)).
  - exact (year_three (YearlyWeekdayOccurrence._get_nth_weekday fuel r) _ _ _ _ t
             (YearlyWeekdayOccurrence_in_month' fuel r W F)).
  - exact (month_three (fun p => MonthlyWeekdayOccurrence._get_nth_weekday fuel r p.1 p.2)
             _ _ _ t (MonthlyWeekdayOccurrence_in_month' fuel r W F) V).
  - exact (month_three (fun p => BusinessDayOfMonth._get_nth_business_day fuel r p.1 p.2)
             _ _ _ t (BusinessDayOfMonth_in_month' fuel r W F) V).
  - exact (month_three (fun p => MonthlyLastDayExceptWeekend._get_last_day fuel r p.1 p.2)
             _ _ _ t (MonthlyLastDayExceptWeekend_in_month' fuel r W F) V).
Qed.

(** X3.  For the nine classes that search by calendar period (month,
    quarter or year), well-formed and with the zone of the instant searched
    from (UTC), the [while True] search stops within two periods: it returns the occurrence of the period of [after] when that is
    not before [after], and the occurrence of the following period
    otherwise.  The following occurrence is strictly after [after], so the
    result is the first occurrence at or after [after]. *)
Theorem search_stops_within_two_periods (fuel : nat) (tt : Timetable) (t : DateTime) :
  in_utc tt = true ->
  searches_by_period tt = true -> well_formed tt = true -> (28 <= fuel)%nat ->
  valid t = true ->
  let p := (year t, month t) in
  exists a b,
    period_occurrence fuel tt p = Ok a /\
    period_occurrence fuel tt (following_period tt p) = Ok b /\
    lt a b /\ lt t b /\
    locate_next fuel tt t = Ok (if leb t a then a else b).
Proof.
  intros _ S W F V p.
  destruct (period_three fuel tt t S W F V) as (c & a & b & Ec & Ea & Eb & Lca & Lab & Lct & Ltb).
  fold p in Ec, Ea, Eb. exists a, b. repeat split; try assumption.
  assert (Lb : le t b) by (apply lt_le; exact Ltb).
  subst p.
  destruct tt as [r|r|r|r|r|r|r|r|r|r|r|r|r|r|r]; try discriminate;
    cbn [period_occurrence preceding_period following_period fst snd locate_next] in *;
    unfold MonthlyLastDay.locate_next, MonthlyOnDay.locate_next,
      QuarterlyFirstDay.locate_next, QuarterlyLastDay.locate_next,
      YearlyFirstDay.locate_next, YearlyWeekdayOccurrence.locate_next,
      MonthlyWeekdayOccurrence.locate_next, BusinessDayOfMonth.locate_next,
      MonthlyLastDayExceptWeekend.locate_next;
    apply search_from_closed; solve [lia | assumption].
Qed.

Lemma search_stops_within_two_periods_witness :
  exists a b,
    period_occurrence 28 (TQuarterlyLastDay (QuarterlyLastDay.mk "UTC" 6 0 0))
                      (2024, 5) = Ok a /\
    period_occurrence 28 (TQuarterlyLastDay (QuarterlyLastDay.mk "UTC" 6 0 0))
                      (following_period (TQuarterlyLastDay (QuarterlyLastDay.mk "UTC" 6 0 0))
                                        (2024, 5)) = Ok b /\
    lt a b /\ lt (mkDateTime 2024 5 20 0 0 0 0) b /\
    locate_next 28 (TQuarterlyLastDay (QuarterlyLastDay.mk "UTC" 6 0 0))
                (mkDateTime 2024 5 20 0 0 0 0)
    = Ok (if leb (mkDateTime 2024 5 20 0 0 0 0) a then a else b).
Proof.
  apply (search_stops_within_two_periods 28
           (TQuarterlyLastDay (QuarterlyLastDay.mk "UTC" 6 0 0))
           (mkDateTime 2024 5 20 0 0 0 0)).
  - reflexivity.
  - reflexivity.
  - reflexivity.
  - lia.
  - reflexivity.
Defined.

(** X4.  For the same nine classes, with the zone of [run_after] (UTC),
    the manual interval starts at the occurrence of the period of
    [run_after] when that is not after
    [run_after], and at the occurrence of the preceding period otherwise;
    it is one hour long.  Its start is at or before [run_after] and the
    occurrence that follows it is strictly after [run_after]: the start is
    the latest occurrence at or before the reference instant. *)
Theorem manual_interval_is_latest_occurrence (fuel : nat) (tt : Timetable) (t : DateTime) :
  in_utc tt = true ->
  searches_by_period tt = true -> well_formed tt = true -> (28 <= fuel)%nat ->
  valid t = true ->
  let p := (year t, month t) in
  exists c a b,
    period_occurrence fuel tt (preceding_period tt p) = Ok c /\
    period_occurrence fuel tt p = Ok a /\
    period_occurrence fuel tt (following_period tt p) = Ok b /\
    let start := if ltb t a then c else a in
    infer_manual_data_interval fuel tt t = Ok (mkDataInterval start (add_hours start 1)) /\
    le start t /\ lt t (if ltb t a then a else b).
Proof.
  intros _ S W F V p.
  destruct (period_three fuel tt t S W F V) as (c & a & b & Ec & Ea & Eb & Lca & Lab & Lct & Ltb).
  fold p in Ec, Ea, Eb. exists c, a, b. split; [exact Ec|]. split; [exact Ea|].
  split; [exact Eb|]. cbv zeta. split; [|split].
  - subst p.
    destruct tt as [r|r|r|r|r|r|r|r|r|r|r|r|r|r|r]; try discriminate;
      cbn [period_occurrence preceding_period following_period fst snd
           infer_manual_data_interval] in *;
      unfold MonthlyLastDay.infer_manual_data_interval,
        MonthlyOnDay.infer_manual_data_interval,
        QuarterlyFirstDay.infer_manual_data_interval,
        QuarterlyLastDay.infer_manual_data_interval,
        YearlyFirstDay.infer_manual_data_interval,
        YearlyWeekdayOccurrence.infer_manual_data_interval,
        MonthlyWeekdayOccurrence.infer_manual_data_interval,
        BusinessDayOfMonth.infer_manual_data_interval,
        MonthlyLastDayExceptWeekend.infer_manual_data_interval;
      cbv zeta; rewrite Ea, bind_Ok; destruct (ltb t a);
      rewrite ?bind_Ok; try reflexivity;
      try match goal with
          | |- context [prev_month ?p] => destruct (prev_month p)
          | |- context [QuarterlyFirstDay.prev_quarter ?p] =>
              destruct (QuarterlyFirstDay.prev_quarter p)
          | |- context [QuarterlyLastDay.prev_quarter ?p] =>
              destruct (QuarterlyLastDay.prev_quarter p)
          end;
      cbn [fst snd] in Ec; rewrite Ec, bind_Ok; reflexivity.
  - destruct (ltb t a) eqn:B; [apply lt_le; exact Lct|].
    apply le_lex. apply ltb_nlt in B. exact B.
  - destruct (ltb t a) eqn:B; [exact B | exact Ltb].
Qed.

Lemma manual_interval_is_latest_occurrence_witness :
  exists c a b,
    period_occurrence 28 (TMonthlyLastDay (MonthlyLastDay.mk "UTC" 18 30 0))
      (preceding_period (TMonthlyLastDay (MonthlyLastDay.mk "UTC" 18 30 0)) (2024, 2)) = Ok c /\
    period_occurrence 28 (TMonthlyLastDay (MonthlyLastDay.mk "UTC" 18 30 0)) (2024, 2) = Ok a /\
    period_occurrence 28 (TMonthlyLastDay (MonthlyLastDay.mk "UTC" 18 30 0))
      (following_period (TMonthlyLastDay (MonthlyLastDay.mk "UTC" 18 30 0)) (2024, 2)) = Ok b /\
    let start := if ltb (mkDateTime 2024 2 10 0 0 0 0) a then c else a in
    infer_manual_data_interval 28 (TMonthlyLastDay (MonthlyLastDay.mk "UTC" 18 30 0))
      (mkDateTime 2024 2 10 0 0 0 0) = Ok (mkDataInterval start (add_hours start 1)) /\
    le start (mkDateTime 2024 2 10 0 0 0 0) /\
    lt (mkDateTime 2024 2 10 0 0 0 0) (if ltb (mkDateTime 2024 2 10 0 0 0 0) a then a else b).
Proof.
  apply (manual_interval_is_latest_occurrence 28
           (TMonthlyLastDay (MonthlyLastDay.mk "UTC" 18 30 0))
           (mkDateTime 2024 2 10 0 0 0 0)).
  - reflexivity.
  - reflexivity.
  - reflexivity.
  - lia.
  - reflexivity.
Defined.

(** ** Properties of every variant *)

Lemma no_skip_variant_spec tt :
  no_skip_variant tt = true ->
  match tt with
  | TWeeklyOnDay _ => False
  | TEveryNInterval x => 0 < EveryNInterval.total_minutes x
  | _ => True
  end.
Proof. destruct tt; simpl; try discriminate; auto. apply Z.ltb_lt. Qed.

(** X5.  For every well-formed variant other than WeeklyOnDay (EveryNInterval
    with a positive interval) whose zone is the zone of the instant searched
    from (UTC), the search from a valid instant returns, and the occurrence
    it returns is at or after the instant searched from. *)
Theorem search_returns_no_past_occurrence (fuel : nat) (tt : Timetable) (t : DateTime) :
  in_utc tt = true ->
  no_skip_variant tt = true -> well_formed tt = true -> (28 <= fuel)%nat ->
  valid t = true ->
  exists r, locate_next fuel tt t = Ok r /\ le t r.
Proof.
  intros _ N W F V. destruct (locate_next_total fuel tt t W F V) as (r & E).
  exists r. split; [exact E|].
  exact (locate_next_no_skip fuel tt t r W F V (no_skip_variant_spec tt N) E).
Qed.

Lemma search_returns_no_past_occurrence_witness :
  exists r,
    locate_next 28 (TBiweeklyOnDay (BiweeklyOnDay.mk 0 "UTC" 8 30 0 "2024-01-01"))
                (mkDateTime 2024 1 1 9 15 0 0) = Ok r /\
    le (mkDateTime 2024 1 1 9 15 0 0) r.
Proof.
  apply (search_returns_no_past_occurrence 28
           (TBiweeklyOnDay (BiweeklyOnDay.mk 0 "UTC" 8 30 0 "2024-01-01"))
           (mkDateTime 2024 1 1 9 15 0 0)).
  - reflexivity.
  - reflexivity.
  - reflexivity.
  - lia.
  - reflexivity.
Defined.

Lemma not_past_latest restriction start l :
  past_latest restriction start = false -> latest restriction = Some l -> le start l.
Proof.
  unfold past_latest. intros P L. rewrite L in P.
  apply le_lex. apply ltb_nlt in P. exact P.
Qed.

(** X6.  The seven period- and day-list classes that read the clock with
    [pendulum.now] compose their next-run call as baseline, search and
    bound: for a well-formed rule whose zone is the zone of the instants it
    is given (UTC) the search from the baseline returns a start at or after
    it, and the call answers "no further run" exactly when
    that start is past [restriction.latest], and otherwise the one-hour
    interval from that start; a run it returns never starts after the
    bound. *)
Theorem next_run_is_search_then_bound (fuel : nat) (tt : Timetable) (clock : Clock)
    (last : option DataInterval) (restriction : TimeRestriction) :
  in_utc tt = true ->
  reads_pendulum_now tt = true -> is_EveryNInterval tt = false ->
  well_formed tt = true -> (28 <= fuel)%nat ->
  valid_clock clock = true -> valid_last last = true ->
  valid_restriction restriction = true ->
  let after := resolve_after (pendulum_now clock) last restriction in
  exists start,
    locate_next fuel tt after = Ok start /\ le after start /\
    next_dagrun_info fuel tt clock last restriction =
      Ok (if past_latest restriction start then None
          else Some (interval start (add_hours start 1))) /\
    (forall info l,
       next_dagrun_info fuel tt clock last restriction = Ok (Some info) ->
       latest restriction = Some l -> le (start_of info) l).
Proof.
  intros _ P N W F Vc Vl Vr after.
  assert (Va : valid after = true).
  { apply resolve_after_valid; try assumption.
    apply andb_true_iff in Vc as [Vn _]. exact Vn. }
  assert (S : no_skip_variant tt = true) by (destruct tt; try discriminate; reflexivity).
  destruct (locate_next_total fuel tt after W F Va) as (start & E).
  pose proof (locate_next_no_skip fuel tt after start W F Va (no_skip_variant_spec tt S) E) as L.
  exists start. split; [exact E|]. split; [exact L|].
  assert (R : next_dagrun_info fuel tt clock last restriction =
              Ok (if past_latest restriction start then None
                  else Some (interval start (add_hours start 1)))).
  { subst after.
    destruct tt; try discriminate; cbn [next_dagrun_info locate_next] in *;
      unfold_next_dagrun_info; cbv zeta; rewrite E, bind_Ok;
      destruct (past_latest restriction start); reflexivity. }
  split; [exact R|].
  intros info l I Hl. rewrite R in I.
  destruct (past_latest restriction start) eqn:B; [discriminate|].
  inversion I. subst info. unfold start_of. cbn.
  exact (not_past_latest restriction start l B Hl).
Qed.

Lemma next_run_is_search_then_bound_witness :
  exists start,
    locate_next 28 (TMonthlyLastDay (MonthlyLastDay.mk "UTC" 18 30 0))
      (resolve_after (mkDateTime 2024 2 10 0 0 0 0) None
         (mkTimeRestriction None (Some (mkDateTime 2024 2 20 0 0 0 0)) true)) = Ok start /\
    le (resolve_after (mkDateTime 2024 2 10 0 0 0 0) None
          (mkTimeRestriction None (Some (mkDateTime 2024 2 20 0 0 0 0)) true)) start /\
    next_dagrun_info 28 (TMonthlyLastDay (MonthlyLastDay.mk "UTC" 18 30 0))
      (pendulum_clock (mkDateTime 2024 2 10 0 0 0 0)) None
      (mkTimeRestriction None (Some (mkDateTime 2024 2 20 0 0 0 0)) true) =
      Ok (if past_latest (mkTimeRestriction None (Some (mkDateTime 2024 2 20 0 0 0 0)) true)
                         start
          then None else Some (interval start (add_hours start 1))) /\
    (forall info l,
       next_dagrun_info 28 (TMonthlyLastDay (MonthlyLastDay.mk "UTC" 18 30 0))
         (pendulum_clock (mkDateTime 2024 2 10 0 0 0 0)) None
         (mkTimeRestriction None (Some (mkDateTime 2024 2 20 0 0 0 0)) true)
       = Ok (Some info) ->
       latest (mkTimeRestriction None (Some (mkDateTime 2024 2 20 0 0 0 0)) true) = Some l ->
       le (start_of info) l).
Proof.
  apply (next_run_is_search_then_bound 28
           (TMonthlyLastDay (MonthlyLastDay.mk "UTC" 18 30 0))
           (pendulum_clock (mkDateTime 2024 2 10 0 0 0 0)) None
           (mkTimeRestriction None (Some (mkDateTime 2024 2 20 0 0 0 0)) true)).
  - reflexivity.
  - reflexivity.
  - reflexivity.
  - reflexivity.
  - lia.
  - reflexivity.
  - reflexivity.
  - reflexivity.
Defined.

Lemma resolve_after_last now iv restriction :
  le (end_ iv) (resolve_after now (Some iv) restriction).
Proof.
  unfold resolve_after. destruct (negb (catchup restriction) && ltb (end_ iv) now) eqn:B.
  - apply andb_true_iff in B as [_ B]. apply lt_le. exact B.
  - apply le_refl.
Qed.

Lemma resolve_after_earliest now e restriction :
  earliest restriction = Some e -> le e (resolve_after now None restriction).
Proof.
  unfold resolve_after. intros ->. simpl.
  destruct (catchup restriction); [apply le_refl | apply max_ge_l].
Qed.

(** X7.  Whenever the next-run call of a well-formed variant other than
    WeeklyOnDay, with the zone of the instants it is given (UTC), returns a
    run, its start is at or after the end of the last
    automated interval when there is one, at or after [restriction.earliest]
    when there is none, and at or after the instant the clock read returned
    when catch-up is disabled. *)
Theorem next_run_lower_bounds (fuel : nat) (tt : Timetable) (clock : Clock)
    (last : option DataInterval) (restriction : TimeRestriction) (info : DagRunInfo)
    (now : DateTime) :
  in_utc tt = true ->
  no_skip_variant tt = true -> well_formed tt = true -> (28 <= fuel)%nat ->
  valid_clock clock = true -> valid_last last = true ->
  valid_restriction restriction = true ->
  clock_read tt clock = Ok now ->
  next_dagrun_info fuel tt clock last restriction = Ok (Some info) ->
  (forall iv, last = Some iv -> le (end_ iv) (start_of info)) /\
  (forall e, last = None -> earliest restriction = Some e -> le e (start_of info)) /\
  (catchup restriction = false -> le now (start_of info)).
Proof.
  intros _ S W F Vc Vl Vr R E.
  pose proof (clock_read_valid tt clock now Vc R) as Vn.
  pose proof (no_skip_variant_spec tt S) as S'.
  assert (B : exists g, le (resolve_after now None restriction) g /\
                match last with
                | Some iv => le (end_ iv) (start_of info) /\ le g (start_of info)
                | None => start_of info = g
                end
                \/ le (resolve_after now last restriction) (start_of info)).
  { destruct (is_EveryNInterval tt) eqn:N.
    - destruct tt as [| | | | | | | | | | | | | |x]; try discriminate.
      cbn [next_dagrun_info] in E. inversion R. subst now.
      destruct (EveryNInterval_next_run x clock last restriction S' Vc Vr)
        as (g & (k & _ & Lg & _) & H).
      cbv zeta in H. rewrite H in E. clear H.
      destruct (past_latest restriction _); [discriminate|].
      assert (Q : start_of info = match last with Some iv => max (end_ iv) g | None => g end)
        by (inversion E; reflexivity).
      exists g. left. split; [exact Lg|]. rewrite Q. destruct last as [iv|]; [|reflexivity].
      split; [apply max_ge_l | apply max_ge_r].
    - apply next_dagrun_info_inv in E as (now' & R' & L); [|exact N].
      rewrite R in R'. inversion R'. subst now'.
      exists now. right.
      apply (locate_next_no_skip fuel tt _ _ W F); try assumption.
      apply resolve_after_valid; assumption. }
  destruct B as (g & [(Lg & M) | L]).
  - split; [|split].
    + intros iv ->. apply M.
    + intros e -> He. rewrite M.
      eapply le_trans; [apply (resolve_after_earliest now e restriction He) | exact Lg].
    + intros C. eapply le_trans; [apply (resolve_after_catchup now None restriction C)|].
      eapply le_trans; [exact Lg|]. destruct last; [apply M | rewrite M; apply le_refl].
  - split; [|split].
    + intros iv ->. eapply le_trans; [apply resolve_after_last | exact L].
    + intros e -> He. eapply le_trans; [apply resolve_after_earliest; exact He | exact L].
    + intros C. eapply le_trans; [apply resolve_after_catchup; exact C | exact L].
Qed.

Lemma next_run_lower_bounds_witness :
  (forall iv,
     Some (mkDataInterval (mkDateTime 2024 1 31 18 30 0 0) (mkDateTime 2024 1 31 19 30 0 0))
     = Some iv ->
     le (end_ iv)
        (start_of (interval (mkDateTime 2024 2 29 18 30 0 0) (mkDateTime 2024 2 29 19 30 0 0))))
  /\ (forall e,
        Some (mkDataInterval (mkDateTime 2024 1 31 18 30 0 0) (mkDateTime 2024 1 31 19 30 0 0))
        = None ->
        earliest (mkTimeRestriction (Some (mkDateTime 2020 1 1 0 0 0 0)) None false) = Some e ->
        le e (start_of (interval (mkDateTime 2024 2 29 18 30 0 0)
                                 (mkDateTime 2024 2 29 19 30 0 0))))
  /\ (catchup (mkTimeRestriction (Some (mkDateTime 2020 1 1 0 0 0 0)) None false) = false ->
      le (mkDateTime 2024 2 10 0 0 0 0)
         (start_of (interval (mkDateTime 2024 2 29 18 30 0 0)
                             (mkDateTime 2024 2 29 19 30 0 0)))).
Proof.
  apply (next_run_lower_bounds 28
           (TMonthlyLastDay (MonthlyLastDay.mk "UTC" 18 30 0))
           (pendulum_clock (mkDateTime 2024 2 10 0 0 0 0))
           (Some (mkDataInterval (mkDateTime 2024 1 31 18 30 0 0)
                                 (mkDateTime 2024 1 31 19 30 0 0)))
           (mkTimeRestriction (Some (mkDateTime 2020 1 1 0 0 0 0)) None false)
           (interval (mkDateTime 2024 2 29 18 30 0 0) (mkDateTime 2024 2 29 19 30 0 0))
           (mkDateTime 2024 2 10 0 0 0 0)).
  - reflexivity.
  - reflexivity.
  - reflexivity.
  - lia.
  - reflexivity.
  - reflexivity.
  - reflexivity.
  - reflexivity.
  - reflexivity.
Defined.

(** *** The time of day *)

Lemma add_days_time dt n : same_time (add_days dt n) dt.
Proof.
  unfold same_time. destruct n as [|p|p]; simpl; [tauto | |].
  - apply Pos.iter_invariant; [|tauto].
    intros x H. pose proof (next_day_time x). intuition congruence.
  - apply Pos.iter_invariant; [|tauto].
    intros x H. pose proof (prev_day_time x). intuition congruence.
Qed.

Ltac time_inv :=
  repeat match goal with
         | E : _ ≫= _ = Ok _ |- _ =>
             let x := fresh "x" in let E1 := fresh "E" in
             apply bind_Ok_inv in E as (x & E1 & E)
         | E : replace _ _ _ _ = Ok _ |- _ => apply replace_Ok in E as (_ & ->)
         | E : datetime _ _ _ _ _ _ = Ok _ |- _ => apply datetime_Ok in E as (_ & _ & ->)
         | E : (if ?c then _ else _) = Ok _ |- _ => destruct c
         end.

Lemma period_occurrence_time fuel tt p r :
  searches_by_period tt = true -> period_occurrence fuel tt p = Ok r ->
  at_time_of_day tt r.
Proof.
  intros S E. unfold at_time_of_day.
  destruct tt as [c|c|c|c|c|c|c|c|c|c|c|c|c|c|c]; try discriminate;
    cbn [period_occurrence time_of_day] in *;
    unfold MonthlyLastDay._get_last_day, MonthlyOnDay._get_run_date,
      QuarterlyFirstDay._get_first_day_of_quarter, QuarterlyLastDay._get_last_day_of_quarter,
      YearlyFirstDay._get_first_day_of_year, YearlyWeekdayOccurrence._get_nth_weekday,
      MonthlyWeekdayOccurrence._get_nth_weekday, BusinessDayOfMonth._get_nth_business_day,
      MonthlyLastDayExceptWeekend._get_last_day in E;
    cbv zeta in E; time_inv; cbn; auto.
Qed.

Lemma first_candidate_time self after y m l r :
  MonthlyMultipleDays.first_candidate self after y m l = Ok (Some r) ->
  at_time_of_day (TMonthlyMultipleDays self) r.
Proof.
  unfold at_time_of_day. cbn [time_of_day].
  induction l as [|d l IH]; simpl; [discriminate|]. intros E.
  apply bind_Ok_inv in E as (c & D & E). destruct (leb after c).
  - inversion E. subst r. apply datetime_Ok in D as (_ & _ & ->). cbn. auto.
  - apply IH. exact E.
Qed.

Lemma following_months_time fuel self y m r :
  MonthlyMultipleDays.following_months fuel self y m = Ok r ->
  at_time_of_day (TMonthlyMultipleDays self) r.
Proof.
  unfold at_time_of_day. cbn [time_of_day].
  revert y m. induction fuel as [|fuel IH]; intros y m;
    cbn [MonthlyMultipleDays.following_months]; [discriminate|].
  destruct (next_month (y, m)) as [y' m']. intros E.
  apply bind_Ok_inv in E as (last & _ & E).
  destruct (MonthlyMultipleDays.valid_days_of self (day last)) as [|d rest].
  - apply (IH _ _ E).
  - apply datetime_Ok in E as (_ & _ & ->). cbn. auto.
Qed.

Lemma step_back_time fuel self run_after base r :
  EveryNDays.step_back fuel self run_after base = Ok r -> same_time r base.
Proof.
  revert base. induction fuel as [|fuel IH]; intros base; simpl; [discriminate|].
  destruct (ltb run_after base).
  - intros E. apply IH in E. unfold subtract_days in E.
    pose proof (add_days_time base (- EveryNDays.interval_days self)).
    unfold same_time in *. intuition congruence.
  - intros E. inversion E. unfold same_time. auto.
Qed.

Lemma locate_next_time fuel tt t r :
  locate_next fuel tt t = Ok r -> at_time_of_day tt r.
Proof.
  destruct (searches_by_period tt) eqn:S.
  - intros E.
    assert (O : exists p, period_occurrence fuel tt p = Ok r).
    { destruct tt as [c|c|c|c|c|c|c|c|c|c|c|c|c|c|c]; try discriminate;
        cbn [locate_next period_occurrence] in *;
        apply search_from_occ in E as (s' & E & _);
        first [ exists s'; exact E | exists (s', 0); exact E ]. }
    destruct O as (p & O). exact (period_occurrence_time fuel tt p r S O).
  - destruct tt as [c|c|c|c|c|c|c|c|c|c|c|c|c|c|c]; try discriminate;
      cbn [locate_next]; intros E.
    + unfold MonthlyMultipleDays._get_next_run_date in E. cbv zeta in E.
      apply bind_Ok_inv in E as (last & _ & E).
      apply bind_Ok_inv in E as (found & C & E).
      destruct found as [cand|].
      * inversion E. subst cand. exact (first_candidate_time _ _ _ _ _ _ C).
      * exact (following_months_time _ _ _ _ _ E).
    + unfold at_time_of_day, WeeklyOnDay._get_next_weekday in *. cbv zeta in E.
      time_inv. cbn. auto.
    + unfold at_time_of_day, BiweeklyOnDay._get_next_biweekly in *. cbv zeta in E.
      cbn [time_of_day].
      apply bind_Ok_inv in E as (anchor & _ & E).
      apply bind_Ok_inv in E as (first & R & E).
      apply replace_Ok in R as (_ & R).
      assert (T : hour first = BiweeklyOnDay.hour c /\ minute first = BiweeklyOnDay.minute c
                  /\ second first = BiweeklyOnDay.second c /\ microsecond first = 0)
        by (rewrite R; cbn; auto).
      destruct (ltb t first); [inversion E; subst r; exact T|].
      injection E as <-. unfold add_weeks.
      match goal with
      | |- context [add_days first ?k] =>
          pose proof (add_days_time first k) as T1; set (n1 := add_days first k) in *
      end.
      destruct (leb n1 t).
      * pose proof (add_days_time n1 (7 * 2)) as T2. unfold same_time in *.
        intuition congruence.
      * unfold same_time in *. intuition congruence.
    + unfold at_time_of_day, SemiMonthly._get_next_run_date in *. cbv zeta in E.
      cbn [time_of_day].
      apply bind_Ok_inv in E as ([f l] & P & E).
      unfold SemiMonthly.fifteenth_and_last in P. time_inv.
      inversion P. subst f l. clear P.
      simpl List.filter in E.
      repeat match type of E with
             | context [if ?b then _ else _] => destruct b
             end; simpl in E; unfold min in E;
        repeat match type of E with
               | context [if ?b then _ else _] => destruct b
               end;
        try (inversion E; subst r; cbn; auto; fail);
        destruct (next_month (year t, month t)) as [y' m'];
        apply bind_Ok_inv in E as ([f l] & P & E);
        unfold SemiMonthly.fifteenth_and_last in P; time_inv;
        inversion P; subst f l; clear P;
        destruct (ltb _ _); inversion E; subst r; cbn; auto.
    + unfold at_time_of_day, EveryNDays.locate_next in *. cbn [time_of_day].
      apply bind_Ok_inv in E as (al & R & E). apply replace_Ok in R as (_ & R).
      inversion E. destruct (ltb al t).
      * pose proof (add_days_time al 1) as H. unfold same_time in H.
        rewrite R in H at 2 4 6 8. cbn in H. intuition congruence.
      * rewrite R. cbn. auto.
    + exact I.
Qed.

Lemma manual_start_time fuel tt t iv :
  infer_manual_data_interval fuel tt t = Ok iv -> at_time_of_day tt (start iv).
Proof.
  intros E. destruct (searches_by_period tt) eqn:S.
  - assert (O : exists p, period_occurrence fuel tt p = Ok (start iv)).
    { destruct tt as [c|c|c|c|c|c|c|c|c|c|c|c|c|c|c]; try discriminate;
        cbn [infer_manual_data_interval period_occurrence] in *;
        unfold MonthlyLastDay.infer_manual_data_interval,
          MonthlyOnDay.infer_manual_data_interval,
          QuarterlyFirstDay.infer_manual_data_interval,
          QuarterlyLastDay.infer_manual_data_interval,
          YearlyFirstDay.infer_manual_data_interval,
          YearlyWeekdayOccurrence.infer_manual_data_interval,
          MonthlyWeekdayOccurrence.infer_manual_data_interval,
          BusinessDayOfMonth.infer_manual_data_interval,
          MonthlyLastDayExceptWeekend.infer_manual_data_interval in E;
        cbv zeta in E;
        apply bind_Ok_inv in E as (a & Ea & E);
        apply bind_Ok_inv in E as (b & Eb & E);
        injection E as <-; cbn [start];
        (destruct (ltb t a);
         [ try match type of Eb with
               | context [let (_, _) := ?q in _] => destruct q as [y m]
               end;
           first [ exists (y, m); exact Eb | exists (year t - 1, 0); exact Eb ]
         | injection Eb as <-;
           first [ exists (year t, month t); exact Ea | exists (year t, 0); exact Ea ] ]). }
    destruct O as (p & O). exact (period_occurrence_time fuel tt p _ S O).
  - destruct tt as [c|c|c|c|c|c|c|c|c|c|c|c|c|c|c]; try discriminate;
      cbn [infer_manual_data_interval] in E.
    + unfold MonthlyMultipleDays.infer_manual_data_interval in E.
      apply bind_Ok_inv in E as (r & L & E). injection E as <-.
      exact (locate_next_time fuel (TMonthlyMultipleDays c) t r L).
    + unfold WeeklyOnDay.infer_manual_data_interval in E.
      apply bind_Ok_inv in E as (r & L & E). injection E as <-.
      exact (locate_next_time fuel (TWeeklyOnDay c) t r L).
    + unfold BiweeklyOnDay.infer_manual_data_interval in E.
      apply bind_Ok_inv in E as (r & L & E). injection E as <-.
      exact (locate_next_time fuel (TBiweeklyOnDay c) t r L).
    + unfold SemiMonthly.infer_manual_data_interval in E.
      apply bind_Ok_inv in E as (r & L & E). injection E as <-.
      exact (locate_next_time fuel (TSemiMonthly c) t r L).
    + unfold EveryNDays.infer_manual_data_interval in E.
      apply bind_Ok_inv in E as (base & R & E).
      apply bind_Ok_inv in E as (r & B & E). injection E as <-. cbn [start].
      apply step_back_time in B. apply replace_Ok in R as (_ & ->).
      unfold at_time_of_day, same_time in *. cbn in *. intuition.
    + exact I.
Qed.



(** ** The day scans *)

Lemma matching_days_shift hit dt step k :
  valid_day dt ->
  matching_days hit dt step (S k) =
  (if hit (day_of_week dt) then 1 else 0) + matching_days hit (add_days dt step) step k.
Proof.
  intros V. induction k as [|k IH].
  - cbn [matching_days]. rewrite !Z.mul_0_r. cbn [add_days].
    replace (step * Z.of_nat 1) with step by lia. lia.
  - change (matching_days hit dt step (S (S k)))
      with ((if hit (day_of_week (add_days dt (step * Z.of_nat (S (S k))))) then 1 else 0)
            + matching_days hit dt step (S k)).
    rewrite IH.
    change (matching_days hit (add_days dt step) step (S k))
      with ((if hit (day_of_week (add_days (add_days dt step) (step * Z.of_nat (S k))))
             then 1 else 0)
            + matching_days hit (add_days dt step) step k).
    rewrite add_days_add by exact V.
    replace (step + step * Z.of_nat (S k)) with (step * Z.of_nat (S (S k))) by lia.
    lia.
Qed.

Lemma scan_forward_count hit fuel n dt count r :
  valid_day dt -> scan_forward fuel hit n dt count = Ok r ->
  exists k : nat, r = add_days dt (Z.of_nat k) /\ matching_days hit dt 1 k = n - count.
Proof.
  revert dt count. induction fuel as [|fuel IH]; intros dt count V;
    cbn [scan_forward]; [discriminate|].
  destruct (hit (day_of_week dt)) eqn:H.
  - destruct (Z.eqb_spec (count + 1) n) as [E|E].
    + intros Q. injection Q as <-. exists 0%nat. split; [reflexivity|].
      cbn [matching_days]. rewrite Z.mul_0_r. cbn [add_days]. rewrite H. lia.
    + intros Q. apply IH in Q as (k & -> & M); [|apply add_days_valid_day; exact V].
      exists (S k). split.
      * rewrite add_days_add by exact V. f_equal. lia.
      * rewrite matching_days_shift by exact V. rewrite H. lia.
  - intros Q. apply IH in Q as (k & -> & M); [|apply add_days_valid_day; exact V].
    exists (S k). split.
    + rewrite add_days_add by exact V. f_equal. lia.
    + rewrite matching_days_shift by exact V. rewrite H. lia.
Qed.

Lemma scan_backward_count hit fuel n dt count r :
  valid_day dt -> scan_backward fuel hit n dt count = Ok r ->
  exists k : nat, r = add_days dt (- Z.of_nat k) /\
                  matching_days hit dt (-1) k = count - n + 1.
Proof.
  revert dt count. induction fuel as [|fuel IH]; intros dt count V;
    cbn [scan_backward]; [discriminate|].
  assert (Step : forall c,
            subtract_day dt ≫= (fun d => scan_backward fuel hit n d c) = Ok r ->
            scan_backward fuel hit n (add_days dt (-1)) c = Ok r).
  { intros c Q. apply bind_Ok_inv in Q as (d & D & Q). unfold subtract_day in D.
    destruct (is_min_date dt); [discriminate|]. injection D as <-. exact Q. }
  destruct (hit (day_of_week dt)) eqn:H.
  - destruct (Z.eqb_spec n count) as [E|E].
    + intros Q. injection Q as <-. exists 0%nat. split; [reflexivity|].
      cbn [matching_days]. rewrite Z.mul_0_r. cbn [add_days]. rewrite H. lia.
    + intros Q. apply Step in Q.
      apply IH in Q as (k & -> & M); [|apply add_days_valid_day; exact V].
      exists (S k). split.
      * rewrite add_days_add by exact V. f_equal. lia.
      * rewrite matching_days_shift by exact V. rewrite H. lia.
  - intros Q. apply Step in Q.
    apply IH in Q as (k & -> & M); [|apply add_days_valid_day; exact V].
    exists (S k). split.
    + rewrite add_days_add by exact V. f_equal. lia.
    + rewrite matching_days_shift by exact V. rewrite H. lia.
Qed.

Lemma nth_count hit fuel n y m h mi s d :
  1 <= m <= 12 -> 1 <= d <= days_in_month y m ->
  ((if 0 <? n then
      datetime y m 1 0 0 0 ≫= fun dt => scan_forward fuel hit n dt 0
    else
      last_date_of_month y m ≫= fun dt => scan_backward fuel hit n dt (-1))
   ≫= fun dt => replace dt h mi s) = Ok (mkDateTime y m d h mi s 0) ->
  hit (day_of_week (mkDateTime y m d h mi s 0)) = true /\
  (0 < n -> matching_days hit (mkDateTime y m 1 0 0 0 0) 1 (Z.to_nat (d - 1)) = n) /\
  (n < 0 -> matching_days hit (mkDateTime y m (days_in_month y m) 0 0 0 0) (-1)
                          (Z.to_nat (days_in_month y m - d)) = - n).
Proof.
  intros Hm Hd E. apply bind_Ok_inv in E as (x & S & R).
  apply replace_Ok in R as (_ & R). injection R as Ry Rm Rd.
  pose proof (days_in_month_bounds y m) as B.
  destruct (Z.ltb_spec 0 n) as [P|P].
  - rewrite datetime_valid in S
      by (try reflexivity; apply valid_date_spec; lia).
    rewrite bind_Ok in S.
    assert (V : valid_day (mkDateTime y m 1 0 0 0 0)) by (unfold valid_day; cbn; lia).
    pose proof (scan_forward_hit hit _ _ _ _ _ S) as H.
    destruct (scan_forward_count hit _ _ _ _ _ V S) as (k & X & M).
    assert (K : Z.of_nat k = d - 1).
    { pose proof (toordinal_add_days _ (Z.of_nat k) V) as T. rewrite <- X in T.
      unfold toordinal, ymd2ord in T. rewrite <- Ry, <- Rm, <- Rd in T. cbn in T. lia. }
    split; [|split].
    + rewrite <- H. f_equal. apply day_of_week_date; cbn; congruence.
    + intros _. rewrite <- K, Nat2Z.id. lia.
    + lia.
  - rewrite last_date_of_month_spec in S by exact Hm. rewrite bind_Ok in S.
    assert (V : valid_day (mkDateTime y m (days_in_month y m) 0 0 0 0))
      by (unfold valid_day; cbn; lia).
    pose proof (scan_backward_hit hit _ _ _ _ _ S) as H.
    destruct (scan_backward_count hit _ _ _ _ _ V S) as (k & X & M).
    assert (K : Z.of_nat k = days_in_month y m - d).
    { pose proof (toordinal_add_days _ (- Z.of_nat k) V) as T. rewrite <- X in T.
      unfold toordinal, ymd2ord in T. rewrite <- Ry, <- Rm, <- Rd in T. cbn in T. lia. }
    split; [|split].
    + rewrite <- H. f_equal. apply day_of_week_date; cbn; congruence.
    + lia.
    + intros _. rewrite <- K, Nat2Z.id. lia.
Qed.

(** X9.  For the three classes with an ordinal index (YearlyWeekdayOccurrence,
    MonthlyWeekdayOccurrence, BusinessDayOfMonth), well-formed, the occurrence
    of a month is a day of that month that passes the class's weekday test
    and is the [n]-th such day counted from the first of the month when
    [n > 0], the [-n]-th counted back from the last day when [n < 0]. *)
Theorem ordinal_occurrence_is_the_nth (fuel : nat) (tt : Timetable)
    (hit : Z -> bool) (n y m : Z) :
  ordinal_rule tt = Some (hit, n) -> well_formed tt = true -> (28 <= fuel)%nat ->
  1 <= m <= 12 ->
  exists r,
    period_occurrence fuel tt (y, m) = Ok r /\ valid r = true /\ year r = y /\
    hit (day_of_week r) = true /\
    (0 < n -> matching_days hit (first_of_month r) 1 (Z.to_nat (day r - 1)) = n) /\
    (n < 0 -> matching_days hit (last_of_month r) (-1)
                (Z.to_nat (days_in_month (year r) (month r) - day r)) = - n).
Proof.
  intros O W F Hm.
  destruct tt as [c|c|c|c|c|c|c|c|c|c|c|c|c|c|c]; try discriminate;
    cbn [ordinal_rule] in O; injection O as <- <-; cbn [period_occurrence fst snd].
  - destruct (YearlyWeekdayOccurrence_in_month' fuel c W F y) as (d & Hd & E).
    pose proof W as W'. wf_split W'.
    assert (Vt : valid_time (YearlyWeekdayOccurrence.hour c) (YearlyWeekdayOccurrence.minute c)
                            (YearlyWeekdayOccurrence.second c) = true) by assumption.
    pose proof E as E'. unfold YearlyWeekdayOccurrence._get_nth_weekday in E'.
    rewrite <- !bind_assoc, <- if_bind in E'.
    assert (Hm' : 1 <= YearlyWeekdayOccurrence.month c <= 12) by lia.
    destruct (nth_count _ _ _ _ _ _ _ _ _ Hm' Hd E') as (H & Pf & Pb).
    eexists. split; [exact E|]. split.
    { apply valid_spec. apply valid_time_spec in Vt. unfold valid_day. cbn. lia. }
    split; [reflexivity|]. split; [exact H|]. split; [exact Pf | exact Pb].
  - destruct (MonthlyWeekdayOccurrence_in_month' fuel c W F y m Hm) as (d & Hd & E).
    pose proof W as W'. wf_split W'.
    assert (Vt : valid_time (MonthlyWeekdayOccurrence.hour c)
                            (MonthlyWeekdayOccurrence.minute c)
                            (MonthlyWeekdayOccurrence.second c) = true) by assumption.
    pose proof E as E'. unfold MonthlyWeekdayOccurrence._get_nth_weekday in E'.
    rewrite <- !bind_assoc, <- if_bind in E'.
    destruct (nth_count _ _ _ _ _ _ _ _ _ Hm Hd E') as (H & Pf & Pb).
    eexists. split; [exact E|]. split.
    { apply valid_spec. apply valid_time_spec in Vt. unfold valid_day. cbn. lia. }
    split; [reflexivity|]. split; [exact H|]. split; [exact Pf | exact Pb].
  - destruct (BusinessDayOfMonth_in_month' fuel c W F y m Hm) as (d & Hd & E).
    pose proof W as W'. wf_split W'.
    assert (Vt : valid_time (BusinessDayOfMonth.hour c) (BusinessDayOfMonth.minute c)
                            (BusinessDayOfMonth.second c) = true) by assumption.
    pose proof E as E'. unfold BusinessDayOfMonth._get_nth_business_day in E'.
    destruct (nth_count _ _ _ _ _ _ _ _ _ Hm Hd E') as (H & Pf & Pb).
    eexists. split; [exact E|]. split.
    { apply valid_spec. apply valid_time_spec in Vt. unfold valid_day. cbn. lia. }
    split; [reflexivity|]. split; [exact H|]. split; [exact Pf | exact Pb].
Qed.

Lemma ordinal_occurrence_is_the_nth_witness :
  exists r,
    period_occurrence 28
      (TMonthlyWeekdayOccurrence (MonthlyWeekdayOccurrence.mk 0 2 "UTC" 9 0 0)) (2024, 3)
    = Ok r /\ valid r = true /\ year r = 2024 /\
    (fun w => w =? 0) (day_of_week r) = true /\
    (0 < 2 -> matching_days (fun w => w =? 0) (first_of_month r) 1 (Z.to_nat (day r - 1)) = 2) /\
    (2 < 0 -> matching_days (fun w => w =? 0) (last_of_month r) (-1)
                (Z.to_nat (days_in_month (year r) (month r) - day r)) = - 2).
Proof.
  apply (ordinal_occurrence_is_the_nth 28
           (TMonthlyWeekdayOccurrence (MonthlyWeekdayOccurrence.mk 0 2 "UTC" 9 0 0))
           (fun w => w =? 0) 2 2024 3).
  - reflexivity.
  - reflexivity.
  - lia.
  - lia.
Defined.

(** ** Classes that coincide *)

Lemma search_from_ext {St : Type} fuel (occ1 occ2 : St -> result DateTime) step
    (ok : St -> Prop) after s :
  (forall x, ok x -> occ1 x = occ2 x) -> (forall x, ok x -> ok (step x)) -> ok s ->
  search_from fuel occ1 step after s = search_from fuel occ2 step after s.
Proof.
  intros E K. revert s. induction fuel as [|fuel IH]; intros s O; [reflexivity|].
  cbn [search_from]. rewrite (E s O). destruct (occ2 s) as [d| |]; try reflexivity.
  rewrite !bind_Ok. destruct (leb after d); [reflexivity|]. apply IH. apply K. exact O.
Qed.

Lemma skip_weekend_scan fuel dt :
  MonthlyLastDayExceptWeekend.skip_weekend fuel dt
  = scan_backward fuel (fun w => w <? 5) (-1) dt (-1).
Proof.
  revert dt. induction fuel as [|fuel IH]; intros dt; [reflexivity|].
  cbn [MonthlyLastDayExceptWeekend.skip_weekend scan_backward].
  destruct (Z.ltb_spec 4 (day_of_week dt)); destruct (Z.ltb_spec (day_of_week dt) 5);
    try lia.
  - (* a weekend day is not 0001-01-01, a Monday *)
    assert (M : is_min_date dt = false).
    { destruct (is_min_date dt) eqn:M; [exfalso | reflexivity].
      unfold is_min_date in M. rewrite !andb_true_iff, !Z.eqb_eq in M.
      destruct M as [[Ey Em] Ed].
      assert (D : day_of_week dt = 0)
        by (unfold day_of_week, toordinal; rewrite Ey, Em, Ed; reflexivity).
      lia. }
    unfold subtract_day. rewrite M, bind_Ok. apply IH.
  - reflexivity.
Qed.

Lemma last_weekday_occurrence fuel tz h mi s y m :
  MonthlyLastDayExceptWeekend._get_last_day fuel
    (MonthlyLastDayExceptWeekend.mk tz h mi s) y m
  = BusinessDayOfMonth._get_nth_business_day fuel (BusinessDayOfMonth.mk (-1) tz h mi s) y m.
Proof.
  unfold MonthlyLastDayExceptWeekend._get_last_day,
    BusinessDayOfMonth._get_nth_business_day.
  cbn [BusinessDayOfMonth.n BusinessDayOfMonth.hour BusinessDayOfMonth.minute
       BusinessDayOfMonth.second MonthlyLastDayExceptWeekend.hour
       MonthlyLastDayExceptWeekend.minute MonthlyLastDayExceptWeekend.second].
  change (0 <? -1) with false. cbv iota. rewrite bind_assoc.
  destruct (last_date_of_month y m) as [d| |]; try reflexivity.
  rewrite !bind_Ok, skip_weekend_scan. reflexivity.
Qed.

(** X10.  MonthlyLastDayExceptWeekend is BusinessDayOfMonth with [n = -1]:
    for the same time of day the two classes return the same result from the
    search, from the manual-interval call and from the next-run call, on
    every input. *)
Theorem last_weekday_is_last_business_day (fuel : nat) (tz : string) (h mi s : Z) :
  let a := TMonthlyLastDayExceptWeekend (MonthlyLastDayExceptWeekend.mk tz h mi s) in
  let b := TBusinessDayOfMonth (BusinessDayOfMonth.mk (-1) tz h mi s) in
  (forall t, locate_next fuel a t = locate_next fuel b t) /\
  (forall t, infer_manual_data_interval fuel a t = infer_manual_data_interval fuel b t) /\
  (forall clock last restriction,
     next_dagrun_info fuel a clock last restriction
     = next_dagrun_info fuel b clock last restriction).
Proof.
  cbv zeta.
  assert (L : forall t,
             MonthlyLastDayExceptWeekend.locate_next fuel
               (MonthlyLastDayExceptWeekend.mk tz h mi s) t
             = BusinessDayOfMonth.locate_next fuel (BusinessDayOfMonth.mk (-1) tz h mi s) t).
  { intros t. unfold MonthlyLastDayExceptWeekend.locate_next, BusinessDayOfMonth.locate_next.
    apply (search_from_ext fuel _ _ _ (fun _ => True)); auto.
    intros x _. apply last_weekday_occurrence. }
  split; [|split].
  - intros t. cbn [locate_next]. apply L.
  - intros t. cbn [infer_manual_data_interval].
    unfold MonthlyLastDayExceptWeekend.infer_manual_data_interval,
      BusinessDayOfMonth.infer_manual_data_interval. cbv zeta.
    rewrite last_weekday_occurrence.
    destruct (BusinessDayOfMonth._get_nth_business_day fuel _ (year t) (month t))
      as [d| |]; try reflexivity.
    rewrite !bind_Ok. destruct (ltb t d); [|reflexivity].
    destruct (prev_month (year t, month t)) as [y m].
    rewrite last_weekday_occurrence. reflexivity.
  - intros clock last restriction. cbn [next_dagrun_info].
    unfold MonthlyLastDayExceptWeekend.next_dagrun_info, BusinessDayOfMonth.next_dagrun_info.
    destruct (datetime_now clock) as [now| |]; try reflexivity.
    rewrite !bind_Ok. cbv zeta. rewrite L. reflexivity.
Qed.

(** *** MonthlyOnDay *)

Lemma MonthlyOnDay_run_date self y m :
  1 <= m <= 12 ->
  MonthlyOnDay._get_run_date self y m =
  datetime y m (Z.min (MonthlyOnDay.day self) (days_in_month y m))
           (MonthlyOnDay.hour self) (MonthlyOnDay.minute self) (MonthlyOnDay.second self).
Proof.
  intros Hm. unfold MonthlyOnDay._get_run_date.
  pose proof (first_of_next_month_day y m Hm) as F.
  destruct (if m <? 12 then datetime y (m + 1) 1 0 0 0 else datetime (y + 1) 1 1 0 0 0)
    as [first| |]; try discriminate.
  rewrite !bind_Ok in *. injection F as ->. reflexivity.
Qed.



Lemma MonthlyOnDay_31_occurrence d tz h mi s y m :
  31 <= d -> 1 <= m <= 12 ->
  MonthlyOnDay._get_run_date (MonthlyOnDay.mk d tz h mi s) y m
  = MonthlyLastDay._get_last_day (MonthlyLastDay.mk tz h mi s) y m.
Proof.
  intros D Hm. rewrite MonthlyOnDay_run_date by exact Hm.
  unfold MonthlyLastDay._get_last_day. rewrite last_date_of_month_spec by exact Hm.
  rewrite bind_Ok. pose proof (days_in_month_bounds y m) as B.
  cbn [MonthlyOnDay.day MonthlyOnDay.hour MonthlyOnDay.minute MonthlyOnDay.second
       MonthlyLastDay.hour MonthlyLastDay.minute MonthlyLastDay.second].
  rewrite Z.min_r by lia. unfold datetime, replace. cbn [year month day].
  assert (V : valid_date y m (days_in_month y m) = true) by (apply valid_date_spec; lia).
  rewrite V. reflexivity.
Qed.

(** X12.  MonthlyOnDay with a configured day of 31 or more is MonthlyLastDay:
    for the same time of day the two classes return the same result from the
    search and from the manual-interval call at every valid instant, and
    from the next-run call for every valid clock, last interval and
    restriction. *)
Theorem monthly_on_day_31_is_monthly_last_day (fuel : nat) (d : Z) (tz : string)
    (h mi s : Z) :
  31 <= d ->
  let a := TMonthlyOnDay (MonthlyOnDay.mk d tz h mi s) in
  let b := TMonthlyLastDay (MonthlyLastDay.mk tz h mi s) in
  (forall t, valid t = true ->
     locate_next fuel a t = locate_next fuel b t /\
     infer_manual_data_interval fuel a t = infer_manual_data_interval fuel b t) /\
  (forall clock last restriction,
     valid_clock clock = true -> valid_last last = true ->
     valid_restriction restriction = true ->
     next_dagrun_info fuel a clock last restriction
     = next_dagrun_info fuel b clock last restriction).
Proof.
  intros D. cbv zeta.
  assert (L : forall t, valid t = true ->
             MonthlyOnDay.locate_next fuel (MonthlyOnDay.mk d tz h mi s) t
             = MonthlyLastDay.locate_next fuel (MonthlyLastDay.mk tz h mi s) t).
  { intros t V. apply valid_spec in V as ((Vm & _) & _).
    unfold MonthlyOnDay.locate_next, MonthlyLastDay.locate_next.
    apply (search_from_ext fuel _ _ _ valid_month).
    - intros [y m] O. apply MonthlyOnDay_31_occurrence; [exact D | exact O].
    - apply next_month_valid.
    - exact Vm. }
  split.
  - intros t V. split; [apply L; exact V|].
    apply valid_spec in V as ((Vm & _) & _).
    cbn [infer_manual_data_interval].
    unfold MonthlyOnDay.infer_manual_data_interval, MonthlyLastDay.infer_manual_data_interval.
    cbv zeta. rewrite MonthlyOnDay_31_occurrence by assumption.
    destruct (MonthlyLastDay._get_last_day _ (year t) (month t)) as [x| |]; try reflexivity.
    rewrite !bind_Ok. destruct (ltb t x); [|reflexivity].
    pose proof (prev_month_valid (year t, month t) Vm) as Vp.
    destruct (prev_month (year t, month t)) as [y m].
    rewrite MonthlyOnDay_31_occurrence by assumption. reflexivity.
  - intros clock last restriction Vc Vl Vr. cbn [next_dagrun_info].
    unfold MonthlyOnDay.next_dagrun_info, MonthlyLastDay.next_dagrun_info. cbv zeta.
    rewrite L; [reflexivity|].
    apply resolve_after_valid; try assumption.
    apply andb_true_iff in Vc as [Vn _]. exact Vn.
Qed.

Lemma monthly_on_day_31_is_monthly_last_day_witness :
  locate_next 28 (TMonthlyOnDay (MonthlyOnDay.mk 31 "UTC" 18 30 0))
              (mkDateTime 2024 2 10 0 0 0 0)
  = locate_next 28 (TMonthlyLastDay (MonthlyLastDay.mk "UTC" 18 30 0))
                (mkDateTime 2024 2 10 0 0 0 0).
Proof.
  apply (proj1 (monthly_on_day_31_is_monthly_last_day 28 31 "UTC" 18 30 0 ltac:(lia))
               (mkDateTime 2024 2 10 0 0 0 0)).
  reflexivity.
Defined.

(** ** EveryNInterval *)

(** X13.  With a positive total interval, the manual interval of
    EveryNInterval starts at the point of the grid anchored at the midnight
    of [run_after] (whole multiples of the interval after midnight) that is
    the last one at or before [run_after], ends one interval later, and so
    contains [run_after]. *)
Theorem every_n_interval_manual_covers_run_after (self : EveryNInterval.t) (t : DateTime) :
  0 < EveryNInterval.total_minutes self -> valid t = true ->
  let total := EveryNInterval.total_minutes self in
  exists k,
    0 <= k /\
    EveryNInterval.infer_manual_data_interval self t =
      Ok (mkDataInterval (grid_point total t k) (add_minutes (grid_point total t k) total)) /\
    le (grid_point total t k) t /\ lt t (add_minutes (grid_point total t k) total).
Proof.
  intros P V total. fold total in P.
  set (hm := hour t * 60 + minute t). exists (hm / total).
  pose proof V as V'. apply valid_spec in V' as (_ & (Hh & Hmi & Hs) & Hu).
  assert (Hhm : 0 <= hm) by (subst hm; lia).
  pose proof (Z.div_mod hm total ltac:(lia)) as DM.
  pose proof (Z.mod_pos_bound hm total P) as MB.
  assert (Q : 0 <= hm / total) by (apply Z.div_pos; lia).
  destruct (grid_point_spec total t (hm / total) V) as (Vg & Sg).
  destruct (add_minutes_spec (grid_point total t (hm / total)) total Vg) as (Ve & Se).
  destruct (stamp_time_of_day t V) as (x & St & Hx & Ex).
  split; [exact Q|]. split; [|split].
  - unfold EveryNInterval.infer_manual_data_interval. cbv zeta. fold total.
    destruct (Z.eqb_spec total 0); [lia|].
    rewrite grid_floor_spec by exact V. rewrite bind_Ok. reflexivity.
  - apply le_stamp; [assumption..|]. rewrite Sg, St. subst hm. nia.
  - apply lt_stamp; [assumption..|]. rewrite Se, Sg, St. subst hm. nia.
Qed.

Lemma every_n_interval_manual_covers_run_after_witness :
  exists k,
    0 <= k /\
    EveryNInterval.infer_manual_data_interval (EveryNInterval.mk 30 1 "UTC")
      (mkDateTime 2024 1 1 1 0 0 0) =
      Ok (mkDataInterval (grid_point 90 (mkDateTime 2024 1 1 1 0 0 0) k)
            (add_minutes (grid_point 90 (mkDateTime 2024 1 1 1 0 0 0) k) 90)) /\
    le (grid_point 90 (mkDateTime 2024 1 1 1 0 0 0) k) (mkDateTime 2024 1 1 1 0 0 0) /\
    lt (mkDateTime 2024 1 1 1 0 0 0)
       (add_minutes (grid_point 90 (mkDateTime 2024 1 1 1 0 0 0) k) 90).
Proof.
  apply (every_n_interval_manual_covers_run_after (EveryNInterval.mk 30 1 "UTC")
           (mkDateTime 2024 1 1 1 0 0 0)).
  - reflexivity.
  - reflexivity.
Defined.



(** ** EveryNDays *)



Lemma step_back_zero fuel self run_after base :
  EveryNDays.interval_days self = 0 -> ltb run_after base = true ->
  EveryNDays.step_back fuel self run_after base = OutOfFuel.
Proof.
  intros Z0 B. induction fuel as [|fuel IH]; [reflexivity|].
  cbn [EveryNDays.step_back]. rewrite B, Z0. exact IH.
Qed.



(** X17.  The search of EveryNDays does not use [interval_days]: from a valid
    instant it returns, whatever [interval_days] is, the one instant at the
    configured time of day (microsecond 0) that is at or after the instant
    searched from and less than 24 hours after it; an instant that already
    is at the configured time of day (as the end of every interval the class
    produces is) is returned unchanged. *)
Theorem every_n_days_search_is_daily (self : EveryNDays.t) (t : DateTime) :
  well_formed (TEveryNDays self) = true -> valid t = true ->
  exists r,
    EveryNDays.locate_next self t = Ok r /\
    (forall n, EveryNDays.locate_next
                 (EveryNDays.mk n (EveryNDays.tz self) (EveryNDays.hour self)
                                (EveryNDays.minute self) (EveryNDays.second self)) t
               = Ok r) /\
    at_time_of_day (TEveryNDays self) r /\
    le t r /\
    stamp r - stamp t < 86400000000 /\
    (at_time_of_day (TEveryNDays self) t -> r = t).
Proof.
  intros W V. destruct (EveryNDays_locate_stamp self t W V) as (r & E & Vr & S).
  cbv zeta in S. exists r. split; [exact E|].
  split; [intros n; rewrite <- E; reflexivity|].
  split; [exact (locate_next_time 0 (TEveryNDays self) t r E)|].
  destruct (stamp_time_of_day t V) as (x & Et & Hx & Ex).
  pose proof W as W'. wf_split W'. apply valid_time_spec in W'.
  set (c := (EveryNDays.hour self * 3600 + EveryNDays.minute self * 60
             + EveryNDays.second self) * 1000000) in *.
  assert (Hc : 0 <= c < 86400000000) by (subst c; lia).
  split; [|split].
  - apply le_stamp; [assumption..|]. rewrite S.
    destruct (Z.ltb_spec (toordinal t * 86400000000 + c) (stamp t)); lia.
  - rewrite S. destruct (Z.ltb_spec (toordinal t * 86400000000 + c) (stamp t)); lia.
  - unfold at_time_of_day. cbn [time_of_day]. intros (Hh & Hm & Hs & Hu).
    apply stamp_inj; [assumption..|]. rewrite S.
    assert (x = c) by (subst c; rewrite Ex, Hh, Hm, Hs, Hu; lia).
    destruct (Z.ltb_spec (toordinal t * 86400000000 + c) (stamp t)); lia.
Qed.

Lemma every_n_days_search_is_daily_witness :
  exists r,
    EveryNDays.locate_next (EveryNDays.mk 10 "UTC" 7 0 0) (mkDateTime 2024 3 5 7 0 0 0)
    = Ok r /\
    (forall n, EveryNDays.locate_next (EveryNDays.mk n "UTC" 7 0 0)
                 (mkDateTime 2024 3 5 7 0 0 0) = Ok r) /\
    at_time_of_day (TEveryNDays (EveryNDays.mk 10 "UTC" 7 0 0)) r /\
    le (mkDateTime 2024 3 5 7 0 0 0) r /\
    stamp r - stamp (mkDateTime 2024 3 5 7 0 0 0) < 86400000000 /\
    (at_time_of_day (TEveryNDays (EveryNDays.mk 10 "UTC" 7 0 0))
                    (mkDateTime 2024 3 5 7 0 0 0) ->
     r = mkDateTime 2024 3 5 7 0 0 0).
Proof.
  apply (every_n_days_search_is_daily (EveryNDays.mk 10 "UTC" 7 0 0)
           (mkDateTime 2024 3 5 7 0 0 0)).
  - reflexivity.
  - reflexivity.
Defined.

(** ** WeeklyOnDay *)

(** X18.  The search of WeeklyOnDay returns, for a valid instant and a time
    of day in range, an instant on the configured weekday (taken modulo 7)
    at the configured time of day, on the day of [after] or one of the seven
    days that follow; when it is before [after] it is on the very day of
    [after]. *)
Theorem weekly_search_lands_on_the_weekday (self : WeeklyOnDay.t) (t : DateTime) :
  valid_time (WeeklyOnDay.hour self) (WeeklyOnDay.minute self) (WeeklyOnDay.second self)
    = true ->
  valid t = true ->
  exists r,
    WeeklyOnDay._get_next_weekday self t = Ok r /\ valid r = true /\
    day_of_week r = WeeklyOnDay.weekday self mod 7 /\
    at_time_of_day (TWeeklyOnDay self) r /\
    0 <= toordinal r - toordinal t <= 7 /\
    (lt r t -> same_date r t).
Proof.
  intros T V. unfold WeeklyOnDay._get_next_weekday. cbv zeta.
  set (k0 := (WeeklyOnDay.weekday self - day_of_week t + 7) mod 7).
  set (k := if (k0 =? 0) && (WeeklyOnDay.hour self <=? hour t)
               && (WeeklyOnDay.minute self <=? minute t) then 7 else k0).
  pose proof (Z.mod_pos_bound (WeeklyOnDay.weekday self - day_of_week t + 7) 7 ltac:(lia)) as K0.
  fold k0 in K0.
  pose proof V as V'. apply valid_spec in V' as (Vd & _).
  pose proof (add_days_valid t k V) as Va.
  pose proof (toordinal_add_days t k Vd) as Ta.
  pose proof (day_of_week_add_days t k Vd) as Da.
  pose proof (day_of_week_range t) as Dr.
  rewrite replace_valid_time by exact T.
  eexists. split; [reflexivity|].
  assert (Hk : (k = k0 \/ (k = 7 /\ k0 = 0))).
  { subst k. destruct ((k0 =? 0) && _ && _) eqn:B; [|left; reflexivity].
    right. split; [reflexivity|]. apply andb_true_iff in B as [B _].
    apply andb_true_iff in B as [B _]. apply Z.eqb_eq. exact B. }
  assert (Hk7 : 0 <= k <= 7) by lia.
  split; [|split; [|split; [|split]]].
  - apply valid_spec. apply valid_spec in Va as (Vad & _). apply valid_time_spec in T.
    unfold valid_day in *. cbn. lia.
  - erewrite day_of_week_date; [rewrite Da | reflexivity..].
    subst k0. destruct Hk as [-> | (-> & Z0)].
    + rewrite Z.add_mod_idemp_r by lia.
      replace (day_of_week t + (WeeklyOnDay.weekday self - day_of_week t + 7))
        with (WeeklyOnDay.weekday self + 1 * 7) by lia.
      apply Z.mod_add. lia.
    + rewrite <- (Z.add_0_r (day_of_week t)) at 1. rewrite <- Z0 at 1.
      rewrite Zplus_mod, Z_mod_same_full, Z.add_0_r, Z.mod_mod by lia.
      rewrite Z.add_mod_idemp_r by lia.
      replace (day_of_week t + (WeeklyOnDay.weekday self - day_of_week t + 7))
        with (WeeklyOnDay.weekday self + 1 * 7) by lia.
      apply Z.mod_add. lia.
  - unfold at_time_of_day. cbn. auto.
  - unfold toordinal in *. cbn [year month day]. lia.
  - intros L. destruct (Z.eq_dec k 0) as [E0 | N0].
    + rewrite E0. cbn. unfold same_date. cbn. auto.
    + exfalso. apply lt_lex in L. unfold lex_lt in L. cbn [year month day] in L.
      assert (Q : date_lt t (add_days t k)).
      { apply toordinal_lt_iff; [exact Vd | apply valid_spec in Va; tauto | lia]. }
      unfold date_lt in Q. lia.
Qed.

Lemma weekly_search_lands_on_the_weekday_witness :
  exists r,
    WeeklyOnDay._get_next_weekday (WeeklyOnDay.mk 0 "UTC" 8 30 0)
      (mkDateTime 2024 1 1 9 15 0 0) = Ok r /\ valid r = true /\
    day_of_week r = 0 mod 7 /\
    at_time_of_day (TWeeklyOnDay (WeeklyOnDay.mk 0 "UTC" 8 30 0)) r /\
    0 <= toordinal r - toordinal (mkDateTime 2024 1 1 9 15 0 0) <= 7 /\
    (lt r (mkDateTime 2024 1 1 9 15 0 0) -> same_date r (mkDateTime 2024 1 1 9 15 0 0)).
Proof.
  apply (weekly_search_lands_on_the_weekday (WeeklyOnDay.mk 0 "UTC" 8 30 0)
           (mkDateTime 2024 1 1 9 15 0 0)).
  - reflexivity.
  - reflexivity.
Defined.

(** ** BiweeklyOnDay *)

Lemma BiweeklyOnDay_stamp_from self anchor first t :
  parse (BiweeklyOnDay.anchor_date self) = Ok anchor ->
  replace (add_days anchor
             ((BiweeklyOnDay.weekday self - day_of_week anchor + 7) mod 7))
          (BiweeklyOnDay.hour self) (BiweeklyOnDay.minute self) (BiweeklyOnDay.second self)
  = Ok first ->
  valid first = true -> valid t = true ->
  exists r, BiweeklyOnDay._get_next_biweekly self t = Ok r /\ valid r = true /\
            stamp r = biweekly_stamp (stamp first) (stamp t).
Proof.
  intros Ep Ef Vf Vt.
  unfold BiweeklyOnDay._get_next_biweekly. rewrite Ep, bind_Ok.
  rewrite Ef, bind_Ok. unfold biweekly_stamp.
  rewrite (ltb_stamp t first Vt Vf).
  destruct (Z.ltb_spec (stamp t) (stamp first)) as [L | L].
  - exists first. auto.
  - destruct (add_spec first 13 23 59 59 Vf) as (V13 & S13).
    rewrite (leb_stamp t _ Vt V13), S13. unfold diff_days.
    set (cycles := (stamp t - stamp first) / 86400000000 / 14
                   + (if stamp t <=? _ then 0 else 1)).
    destruct (add_weeks_spec first (cycles * 2) Vf) as (Vn & Sn).
    rewrite (leb_stamp _ t Vn Vt), Sn.
    destruct (add_weeks_spec (add_weeks first (cycles * 2)) 2 Vn) as (Vn2 & Sn2).
    eexists. split; [reflexivity|].
    destruct (Z.leb_spec (stamp first + cycles * 2 * 7 * 86400000000) (stamp t)) as [C | C].
    + split; [exact Vn2|]. rewrite Sn2, Sn. subst cycles.
      destruct (Z.leb_spec (stamp t)
                  (stamp first + 13 * 86400000000 + (23 * 3600 + 59 * 60 + 59) * 1000000));
        Z.div_mod_to_equations; lia.
    + split; [exact Vn|]. rewrite Sn. subst cycles.
      destruct (Z.leb_spec (stamp t)
                  (stamp first + 13 * 86400000000 + (23 * 3600 + 59 * 60 + 59) * 1000000));
        Z.div_mod_to_equations; lia.
Qed.



(** ** SemiMonthly *)

(** X20.  For a well-formed SemiMonthly with the zone of the instant
    searched from (UTC) the search from a valid instant returns the configured time on the 15th or on the last day of a month,
    at or after the instant, and no 15th or last day of any month at that
    time lies between the instant and the result: it is the first such
    occurrence at or after the instant. *)
Theorem semi_monthly_search_is_first_15th_or_last (self : SemiMonthly.t) (t : DateTime) :
  in_utc (TSemiMonthly self) = true ->
  well_formed (TSemiMonthly self) = true -> valid t = true ->
  let at_day y m d := mkDateTime y m d (SemiMonthly.hour self) (SemiMonthly.minute self)
                                 (SemiMonthly.second self) 0 in
  exists r,
    SemiMonthly._get_next_run_date self t = Ok r /\ le t r /\
    (exists y m, 1 <= m <= 12 /\ (r = at_day y m 15 \/ r = at_day y m (days_in_month y m))) /\
    (forall y m d, 1 <= m <= 12 -> d = 15 \/ d = days_in_month y m ->
       le t (at_day y m d) -> le r (at_day y m d)).
Proof.
  intros _ W V at_day. pose proof (SemiMonthly_spec self t W V) as S. cbv zeta in S.
  fold at_day in S.
  pose proof V as V'. apply valid_spec in V' as ((Vm & Vd) & _).
  pose proof (days_in_month_bounds (year t) (month t)) as B.
  pose proof (next_month_valid (year t, month t) Vm) as Vn.
  eexists. split; [exact S|].
  destruct (leb t (at_day (year t) (month t) 15)) eqn:B15.
  - split; [exact B15|]. split.
    + exists (year t), (month t). split; [exact Vm | left; reflexivity].
    + intros y m d Hm Hd L. pose proof (days_in_month_bounds y m) as B'.
      assert (15 <= d) by lia. subst at_day. order_lia.
  - destruct (leb t (at_day (year t) (month t) (days_in_month (year t) (month t)))) eqn:BL.
    + split; [exact BL|]. split.
      * exists (year t), (month t). split; [exact Vm | right; reflexivity].
      * intros y m d Hm Hd L. pose proof (days_in_month_bounds y m) as B'.
        assert (Hdd : y = year t -> m = month t ->
                      d = 15 \/ d = days_in_month (year t) (month t))
          by (intros -> ->; exact Hd).
        subst at_day. clear S Hd. order_lia.
    + unfold valid_month, next_month in *.
      destruct (Z.eqb_spec (month t) 12) as [M12 | M12]; cbn [fst snd] in *.
      * split; [subst at_day; order_lia|]. split.
        -- exists (year t + 1), 1. split; [lia | left; reflexivity].
        -- intros y m d Hm Hd L. pose proof (days_in_month_bounds y m) as B'.
           assert (Hdd : y = year t -> m = month t ->
                         d = 15 \/ d = days_in_month (year t) (month t))
             by (intros -> ->; exact Hd).
           assert (15 <= d) by lia.
           subst at_day. clear S Hd. order_lia.
      * split; [subst at_day; order_lia|]. split.
        -- exists (year t), (month t + 1). split; [lia | left; reflexivity].
        -- intros y m d Hm Hd L. pose proof (days_in_month_bounds y m) as B'.
           assert (Hdd : y = year t -> m = month t ->
                         d = 15 \/ d = days_in_month (year t) (month t))
             by (intros -> ->; exact Hd).
           assert (15 <= d) by lia.
           subst at_day. clear S Hd. order_lia.
Qed.

Lemma semi_monthly_search_is_first_15th_or_last_witness :
  let at_day y m d := mkDateTime y m d 6 0 0 0 in
  exists r,
    SemiMonthly._get_next_run_date (SemiMonthly.mk "UTC" 6 0 0) (mkDateTime 2024 2 20 0 0 0 0)
    = Ok r /\ le (mkDateTime 2024 2 20 0 0 0 0) r /\
    (exists y m, 1 <= m <= 12 /\ (r = at_day y m 15 \/ r = at_day y m (days_in_month y m))) /\
    (forall y m d, 1 <= m <= 12 -> d = 15 \/ d = days_in_month y m ->
       le (mkDateTime 2024 2 20 0 0 0 0) (at_day y m d) -> le r (at_day y m d)).
Proof.
  apply (semi_monthly_search_is_first_15th_or_last (SemiMonthly.mk "UTC" 6 0 0)
           (mkDateTime 2024 2 20 0 0 0 0)).
  - reflexivity.
  - reflexivity.
  - reflexivity.
Defined.

(** ** MonthlyMultipleDays *)

Lemma strictly_increasing_filter (f : Z -> bool) l :
  strictly_increasing l = true -> strictly_increasing (List.filter f l) = true.
Proof.
  induction l as [|x l IH]; intros S; [reflexivity|].
  apply strictly_increasing_cons in S as [A S]. simpl.
  destruct (f x); [|apply IH; exact S].
  apply strictly_increasing_cons. split; [|apply IH; exact S].
  intros y I. apply filter_In in I as [I _]. apply A. exact I.
Qed.

Lemma first_candidate_least self t y m l c :
  strictly_increasing l = true ->
  MonthlyMultipleDays.first_candidate self t y m l = Ok (Some c) ->
  forall d, In d l ->
    le t (mkDateTime y m d (MonthlyMultipleDays.hour self) (MonthlyMultipleDays.minute self)
                     (MonthlyMultipleDays.second self) 0) ->
    le c (mkDateTime y m d (MonthlyMultipleDays.hour self) (MonthlyMultipleDays.minute self)
                     (MonthlyMultipleDays.second self) 0).
Proof.
  induction l as [|d0 l IH]; intros S E d I L; [destruct I|].
  apply strictly_increasing_cons in S as [A S].
  cbn [MonthlyMultipleDays.first_candidate] in E.
  apply bind_Ok_inv in E as (c0 & D & E). apply datetime_Ok in D as (_ & _ & ->).
  destruct (leb t _) eqn:B.
  - injection E as <-. destruct I as [-> | I]; [apply le_refl|].
    specialize (A d I). order_lia.
  - destruct I as [-> | I].
    + unfold le in L. rewrite L in B. discriminate.
    + exact (IH S E d I L).
Qed.

(** X21.  For a well-formed MonthlyMultipleDays whose days are stored as the
    constructor stores them (strictly increasing) and whose zone is the zone
    of the instant searched from (UTC), the search from a valid instant
    returns the configured time on a configured day that exists in
    its month, at or after the instant, and no configured day of any month
    at that time lies between the instant and the result. *)
Theorem multiple_days_search_is_first_configured_day (fuel : nat)
    (self : MonthlyMultipleDays.t) (t : DateTime) :
  in_utc (TMonthlyMultipleDays self) = true ->
  well_formed (TMonthlyMultipleDays self) = true ->
  strictly_increasing (MonthlyMultipleDays.days self) = true ->
  valid t = true -> (1 <= fuel)%nat ->
  let at_day y m d :=
    mkDateTime y m d (MonthlyMultipleDays.hour self) (MonthlyMultipleDays.minute self)
               (MonthlyMultipleDays.second self) 0 in
  exists r,
    MonthlyMultipleDays._get_next_run_date fuel self t = Ok r /\ le t r /\
    (exists y m d, 1 <= m <= 12 /\ 1 <= d <= days_in_month y m /\
                   In d (MonthlyMultipleDays.days self) /\ r = at_day y m d) /\
    (forall y m d, 1 <= m <= 12 -> 1 <= d <= days_in_month y m ->
       In d (MonthlyMultipleDays.days self) ->
       le t (at_day y m d) -> le r (at_day y m d)).
Proof.
  intros _ W S V F at_day.
  pose proof V as V'. apply valid_spec in V' as ((Vm & Vd) & _).
  assert (Vp : valid_month (year t, month t)) by exact Vm.
  pose proof (next_month_valid _ Vp) as Vn.
  pose proof (month_key_next _ Vp) as Kn.
  assert (InV : forall y m d, 1 <= d <= days_in_month y m ->
                  In d (MonthlyMultipleDays.days self) ->
                  In d (MonthlyMultipleDays.valid_days_of self (days_in_month y m))).
  { intros y m d Hd I. unfold MonthlyMultipleDays.valid_days_of.
    apply filter_In. split; [exact I|].
    apply andb_true_iff. split; apply Z.leb_le; lia. }
  assert (VIn : forall y m d,
                  In d (MonthlyMultipleDays.valid_days_of self (days_in_month y m)) ->
                  1 <= d <= days_in_month y m /\ In d (MonthlyMultipleDays.days self)).
  { intros y m d I. unfold MonthlyMultipleDays.valid_days_of in I.
    apply filter_In in I as [I B]. apply andb_true_iff in B as [B1 B2].
    apply Z.leb_le in B1, B2. auto. }
  assert (Early : forall y m d, 1 <= m <= 12 -> month_key (y, m) < month_key (year t, month t) ->
                    le t (at_day y m d) -> False).
  { intros y m d Hm K L. unfold month_key in K. cbn [fst snd] in K.
    subst at_day. order_lia. }
  destruct (multiple_spec self W fuel t V F) as (r & E & H). cbv zeta in H.
  cbn [fst snd] in H.
  exists r. split; [exact E|].
  destruct H as [(C & L & d0 & R) | (C & N & d0 & rest & Dn & R)].
  - split; [exact L|]. split.
    + pose proof (first_candidate_spec self W t (year t, month t)
                    (MonthlyMultipleDays.valid_days_of self (days_in_month (year t) (month t)))
                    Vp (fun d => days_of_In self (year t, month t) d)) as (o & C' & P).
      cbn [fst snd] in C'. rewrite C in C'. injection C' as <-.
      destruct P as (_ & d & I & R'). apply (VIn (year t) (month t)) in I as (Hd & I).
      exists (year t), (month t), d. auto.
    + intros y m d Hm Hd I Lc.
      destruct (Z.lt_trichotomy (month_key (y, m)) (month_key (year t, month t)))
        as [K | [K | K]].
      * exfalso. exact (Early y m d Hm K Lc).
      * assert (y = year t /\ m = month t) as (-> & ->)
          by (unfold month_key in K; cbn [fst snd] in K; lia).
        apply (first_candidate_least self t (year t) (month t)
                 (MonthlyMultipleDays.valid_days_of self (days_in_month (year t) (month t)))
                 r); try assumption.
        -- apply strictly_increasing_filter. exact S.
        -- apply InV; assumption.
      * apply lt_le. rewrite R.
        exact (at_day_key_lt self (year t, month t) (y, m) d0 d Vp Hm K).
  - assert (Hd0 : In d0 (MonthlyMultipleDays.valid_days_of self
                           (days_in_month (next_month (year t, month t)).1
                                          (next_month (year t, month t)).2)))
      by (rewrite Dn; left; reflexivity).
    apply VIn in Hd0 as (Hd0 & Id0).
    split; [rewrite R; apply lt_le; apply at_day_next_after; exact V|]. split.
    + exists (next_month (year t, month t)).1, (next_month (year t, month t)).2, d0.
      split; [exact Vn|]. auto.
    + intros y m d Hm Hd I Lc.
      destruct (Z.lt_trichotomy (month_key (y, m)) (month_key (year t, month t)))
        as [K | [K | K]].
      * exfalso. exact (Early y m d Hm K Lc).
      * assert (y = year t /\ m = month t) as (-> & ->)
          by (unfold month_key in K; cbn [fst snd] in K; lia).
        exfalso. specialize (N d (InV _ _ d Hd I)).
        apply lt_not_le in N. apply N. exact Lc.
      * destruct (Z.eq_dec (month_key (y, m)) (month_key (next_month (year t, month t))))
          as [Q | Q].
        -- assert (y = (next_month (year t, month t)).1 /\
                   m = (next_month (year t, month t)).2) as (Ey & Em).
           { unfold month_key, valid_month in *.
             destruct (next_month (year t, month t)) as [yn mn]. cbn [fst snd] in *. lia. }
           rewrite R, <- Ey, <- Em.
           pose proof (InV y m d Hd I) as Iv. rewrite Ey, Em, Dn in Iv.
           pose proof (strictly_increasing_filter
                         (fun d => (1 <=? d) && (d <=? days_in_month y m))
                         _ S) as Sv.
           fold (MonthlyMultipleDays.valid_days_of self (days_in_month y m)) in Sv.
           rewrite Ey, Em, Dn in Sv. apply strictly_increasing_cons in Sv as [A _].
           destruct Iv as [<- | Iv]; [apply le_refl|].
           specialize (A d Iv). subst at_day. order_lia.
        -- apply lt_le. rewrite R.
           apply (at_day_key_lt self (next_month (year t, month t)) (y, m) d0 d Vn Hm).
           lia.
Qed.

Lemma multiple_days_search_is_first_configured_day_witness :
  let at_day y m d := mkDateTime y m d 9 0 0 0 in
  exists r,
    MonthlyMultipleDays._get_next_run_date 1
      (MonthlyMultipleDays.__init__ (Some [31; 15; 31]) 9 0 "UTC" 0)
      (mkDateTime 2024 2 20 0 0 0 0) = Ok r /\
    le (mkDateTime 2024 2 20 0 0 0 0) r /\
    (exists y m d, 1 <= m <= 12 /\ 1 <= d <= days_in_month y m /\
                   In d [15; 31] /\ r = at_day y m d) /\
    (forall y m d, 1 <= m <= 12 -> 1 <= d <= days_in_month y m -> In d [15; 31] ->
       le (mkDateTime 2024 2 20 0 0 0 0) (at_day y m d) -> le r (at_day y m d)).
Proof.
  apply (multiple_days_search_is_first_configured_day 1
           (MonthlyMultipleDays.__init__ (Some [31; 15; 31]) 9 0 "UTC" 0)
           (mkDateTime 2024 2 20 0 0 0 0)).
  - reflexivity.
  - reflexivity.
  - reflexivity.
  - reflexivity.
  - lia.
Defined.

(** ** Out-of-range configuration *)

Lemma replace_invalid dt h mi s :
  valid_time h mi s = false -> replace dt h mi s = Raise ValueError.
Proof. intros H. unfold replace. rewrite H. reflexivity. Qed.

Lemma datetime_invalid_time y m d h mi s :
  valid_time h mi s = false -> datetime y m d h mi s = Raise ValueError.
Proof. intros H. unfold datetime. rewrite H, andb_false_r. reflexivity. Qed.

Lemma search_from_raise {St : Type} fuel (occ : St -> result DateTime) step after s e :
  (1 <= fuel)%nat -> occ s = Raise e -> search_from fuel occ step after s = Raise e.
Proof. intros F E. destruct fuel; [lia|]. cbn [search_from]. rewrite E. reflexivity. Qed.

Lemma period_occurrence_invalid_time fuel tt y m h mi s :
  searches_by_period tt = true -> sets_time_directly tt = true ->
  time_of_day tt = Some (h, mi, s) -> valid_time h mi s = false ->
  1 <= m <= 12 -> (3 <= fuel)%nat ->
  period_occurrence fuel tt (y, m) = Raise ValueError.
Proof.
  intros S D T V Hm F.
  destruct tt as [c|c|c|c|c|c|c|c|c|c|c|c|c|c|c]; try discriminate;
    cbn [time_of_day] in T; injection T as <- <- <-;
    cbn [period_occurrence fst snd].
  - unfold MonthlyLastDay._get_last_day. rewrite last_date_of_month_spec by exact Hm.
    rewrite bind_Ok. apply replace_invalid. exact V.
  - rewrite MonthlyOnDay_run_date by exact Hm. apply datetime_invalid_time. exact V.
  - unfold QuarterlyFirstDay._get_first_day_of_quarter. cbv zeta.
    apply datetime_invalid_time. exact V.
  - unfold QuarterlyLastDay._get_last_day_of_quarter. cbv zeta.
    rewrite last_date_of_month_spec.
    + rewrite bind_Ok. apply replace_invalid. exact V.
    + repeat match goal with |- context [if ?b then _ else _] => destruct b end; lia.
  - unfold YearlyFirstDay._get_first_day_of_year. apply datetime_invalid_time. exact V.
  - unfold MonthlyLastDayExceptWeekend._get_last_day.
    rewrite last_date_of_month_spec by exact Hm. rewrite bind_Ok.
    pose proof (days_in_month_bounds y m) as B.
    destruct (skip_weekend_spec fuel (mkDateTime y m (days_in_month y m) 0 0 0 0))
      as (k & _ & ->); [unfold valid_day; cbn; lia | exact F |].
    rewrite bind_Ok. apply replace_invalid. exact V.
Qed.

(** X22.  No constructor checks the time of day.  For the nine classes that
    reach the time fields directly (MonthlyLastDay, MonthlyOnDay,
    QuarterlyFirstDay, QuarterlyLastDay, YearlyFirstDay, WeeklyOnDay,
    SemiMonthly, EveryNDays, MonthlyLastDayExceptWeekend), an hour, minute or
    second out of range makes the search and the manual-interval call raise
    ValueError at every valid instant. *)
Theorem out_of_range_time_raises (fuel : nat) (tt : Timetable) (t : DateTime)
    (h mi s : Z) :
  sets_time_directly tt = true -> time_of_day tt = Some (h, mi, s) ->
  valid_time h mi s = false -> valid t = true -> (3 <= fuel)%nat ->
  locate_next fuel tt t = Raise ValueError /\
  infer_manual_data_interval fuel tt t = Raise ValueError.
Proof.
  intros D T V Vt F.
  pose proof Vt as Vt'. apply valid_spec in Vt' as ((Vm & Vd) & _).
  destruct (searches_by_period tt) eqn:S.
  - pose proof (period_occurrence_invalid_time fuel tt (year t) (month t) h mi s
                  S D T V Vm F) as O.
    destruct tt as [c|c|c|c|c|c|c|c|c|c|c|c|c|c|c]; try discriminate;
      cbn [period_occurrence fst snd locate_next infer_manual_data_interval] in *;
      (split;
       [ unfold MonthlyLastDay.locate_next, MonthlyOnDay.locate_next,
           QuarterlyFirstDay.locate_next, QuarterlyLastDay.locate_next,
           YearlyFirstDay.locate_next, MonthlyLastDayExceptWeekend.locate_next;
         apply search_from_raise; [lia | exact O]
       | unfold MonthlyLastDay.infer_manual_data_interval,
           MonthlyOnDay.infer_manual_data_interval,
           QuarterlyFirstDay.infer_manual_data_interval,
           QuarterlyLastDay.infer_manual_data_interval,
           YearlyFirstDay.infer_manual_data_interval,
           MonthlyLastDayExceptWeekend.infer_manual_data_interval;
         cbv zeta; rewrite O; reflexivity ]).
  - destruct tt as [c|c|c|c|c|c|c|c|c|c|c|c|c|c|c]; try discriminate;
      cbn [time_of_day] in T; injection T as <- <- <-;
      cbn [locate_next infer_manual_data_interval].
    + assert (L : WeeklyOnDay._get_next_weekday c t = Raise ValueError).
      { unfold WeeklyOnDay._get_next_weekday. cbv zeta. apply replace_invalid. exact V. }
      split; [exact L|]. unfold WeeklyOnDay.infer_manual_data_interval. rewrite L. reflexivity.
    + assert (L : SemiMonthly._get_next_run_date c t = Raise ValueError).
      { unfold SemiMonthly._get_next_run_date, SemiMonthly.fifteenth_and_last. cbv zeta.
        rewrite datetime_invalid_time by exact V. reflexivity. }
      split; [exact L|]. unfold SemiMonthly.infer_manual_data_interval. rewrite L. reflexivity.
    + split.
      * unfold EveryNDays.locate_next. rewrite replace_invalid by exact V. reflexivity.
      * unfold EveryNDays.infer_manual_data_interval. rewrite replace_invalid by exact V.
        reflexivity.
Qed.

Lemma out_of_range_time_raises_witness :
  locate_next 3 (TMonthlyLastDay (MonthlyLastDay.mk "UTC" 24 0 0))
              (mkDateTime 2024 2 10 0 0 0 0) = Raise ValueError /\
  infer_manual_data_interval 3 (TMonthlyLastDay (MonthlyLastDay.mk "UTC" 24 0 0))
                             (mkDateTime 2024 2 10 0 0 0 0) = Raise ValueError.
Proof.
  apply (out_of_range_time_raises 3 (TMonthlyLastDay (MonthlyLastDay.mk "UTC" 24 0 0))
           (mkDateTime 2024 2 10 0 0 0 0) 24 0 0).
  - reflexivity.
  - reflexivity.
  - reflexivity.
  - reflexivity.
  - lia.
Defined.
